(** * Amicii coordination state engine: reservations, messages, registry.

    A shallow embedding of the request handlers of the server
    (src/handlers/project.ts, agent.ts, reservation.ts, message.ts),
    of the retention job of src/db.ts and of the helpers of
    src/utils/names.ts and src/utils/slug.ts, over an explicit model of
    the five SQLite tables.

    Conventions of the model:
    - a table is the list of its rows in rowid order; an INSERT appends a
      row whose INTEGER PRIMARY KEY is one more than the largest in use;
    - [.get()] on a query without ORDER BY returns the first matching row
      in table order;
    - JavaScript and SQLite strings are [string] (bytes); the functions
      that depend on the alphabet (toLowerCase, charCodeAt, the regular
      expressions) are the ASCII ones;
    - the clock is a [Z], milliseconds since the Unix epoch, as returned
      by [Date.now()]; one handler call reads one clock value;
    - a handler is a function from the store to a result and a store. *)

From Stdlib Require Import ZArith List String Ascii Bool Lia Permutation.
From Stdlib Require Import DecimalString Sorted.
Import ListNotations.

Local Open Scope string_scope.
Local Open Scope Z_scope.

(** ** JavaScript string helpers *)

Module Js.

(** [String.prototype.startsWith]: [startsWith s t] is [s.startsWith(t)]. *)
Definition startsWith (s t : string) : bool := String.prefix t s.

(** [s.split(sep)] for a one-character separator. *)
Fixpoint split (sep : ascii) (s : string) : list string :=
  match s with
  | EmptyString => [EmptyString]
  | String c r =>
      if Ascii.eqb c sep then EmptyString :: split sep r
      else match split sep r with
           | [] => [String c EmptyString]
           | w :: ws => String c w :: ws
           end
  end.

(** [arr.slice(0, -1)]: every element but the last. *)
Definition slice_0_m1 {A} (l : list A) : list A := removelast l.

(** [arr.slice(-2)]: the last two elements (fewer when there are fewer). *)
Definition slice_m2 {A} (l : list A) : list A :=
  skipn (List.length l - 2) l.

(** [arr.join(sep)]. *)
Definition join (sep : string) (l : list string) : string :=
  String.concat sep l.

Definition is_upper (c : ascii) : bool :=
  let n := Z.of_N (N_of_ascii c) in (65 <=? n) && (n <=? 90).

Definition is_lower (c : ascii) : bool :=
  let n := Z.of_N (N_of_ascii c) in (97 <=? n) && (n <=? 122).

Definition is_digit (c : ascii) : bool :=
  let n := Z.of_N (N_of_ascii c) in (48 <=? n) && (n <=? 57).

Definition lower_char (c : ascii) : ascii :=
  if is_upper c then ascii_of_N (N_of_ascii c + 32) else c.

(** [s.toLowerCase()]. *)
Fixpoint toLowerCase (s : string) : string :=
  match s with
  | EmptyString => EmptyString
  | String c r => String (lower_char c) (toLowerCase r)
  end.

(** [s.includes(t)]. *)
Fixpoint includes (s t : string) : bool :=
  String.prefix t s ||
  match s with
  | EmptyString => false
  | String _ r => includes r t
  end.

(** Truthiness of a string: only the empty string is falsy. *)
Definition truthy (s : string) : bool :=
  match s with EmptyString => false | _ => true end.

(** Truthiness of a nullable string ([string | null | undefined]). *)
Definition truthy_opt (o : option string) : bool :=
  match o with Some s => truthy s | None => false end.

End Js.

(** ** Clock and timestamp formats

    Two textual formats meet in the tables: JavaScript's
    [Date.prototype.toISOString] ([2026-01-02T03:04:05.678Z]) and SQLite's
    [datetime('now')] ([2026-01-02 03:04:05]).  SQLite compares TEXT
    values byte by byte. *)

Module Clock.

Definition ms_per_day : Z := 86400000.

(** Proleptic Gregorian date of a day number counted from 1970-01-01. *)
Definition civil_from_days (z : Z) : Z * Z * Z :=
  let z := z + 719468 in
  let era := z / 146097 in
  let doe := z - era * 146097 in
  let yoe := (doe - doe / 1460 + doe / 36524 - doe / 146096) / 365 in
  let y := yoe + era * 400 in
  let doy := doe - (365 * yoe + yoe / 4 - yoe / 100) in
  let mp := (5 * doy + 2) / 153 in
  let d := doy - (153 * mp + 2) / 5 + 1 in
  let m := if mp <? 10 then mp + 3 else mp - 9 in
  (if m <=? 2 then y + 1 else y, m, d).

Definition digit (d : Z) : ascii := ascii_of_N (Z.to_N (48 + d mod 10)).

Fixpoint pad (width : nat) (n : Z) (acc : string) : string :=
  match width with
  | O => acc
  | S w => pad w (n / 10) (String (digit n) acc)
  end.

Definition pad2 (n : Z) : string := pad 2 n "".
Definition pad3 (n : Z) : string := pad 3 n "".
Definition pad4 (n : Z) : string := pad 4 n "".
Definition pad6 (n : Z) : string := pad 6 n "".

(** Year of an ISO string: four digits, or a sign and six digits outside
    0000..9999 (the expanded years of ECMAScript). *)
Definition iso_year (y : Z) : string :=
  if (0 <=? y) && (y <=? 9999) then pad4 y
  else if y <? 0 then "-" ++ pad6 (- y) else "+" ++ pad6 y.

(** The time values a [Date] can hold (ECMAScript time clip). *)
Definition valid_time (ms : Z) : bool :=
  (-8640000000000000 <=? ms) && (ms <=? 8640000000000000).

(** The text [new Date(ms).toISOString()] produces for a valid [ms]. *)
Definition iso_format (ms : Z) : string :=
  let '(y, m, d) := civil_from_days (ms / ms_per_day) in
  let r := ms mod ms_per_day in
  iso_year y ++ "-" ++ pad2 m ++ "-" ++ pad2 d ++ "T" ++
  pad2 (r / 3600000) ++ ":" ++ pad2 (r / 60000 mod 60) ++ ":" ++
  pad2 (r / 1000 mod 60) ++ "." ++ pad3 (r mod 1000) ++ "Z".

(** [new Date(ms).toISOString()]; [None] is the RangeError thrown for an
    invalid date. *)
Definition toISOString (ms : Z) : option string :=
  if valid_time ms then Some (iso_format ms) else None.

(** The year of SQLite's date texts: four digits, behind a minus sign
    when the year is negative. *)
Definition sqlite_year (y : Z) : string :=
  if y <? 0 then "-" ++ pad4 (- y) else pad4 y.

(** SQLite's [datetime('now')] when the clock reads [now] milliseconds. *)
Definition sqlite_datetime (now : Z) : string :=
  let '(y, m, d) := civil_from_days (now / ms_per_day) in
  let r := now mod ms_per_day in
  sqlite_year y ++ "-" ++ pad2 m ++ "-" ++ pad2 d ++ " " ++
  pad2 (r / 3600000) ++ ":" ++ pad2 (r / 60000 mod 60) ++ ":" ++
  pad2 (r / 1000 mod 60).

(** The instants SQLite's date functions represent: julian day 0 (noon
    of -4713-11-24) to the end of the year 9999; outside, they return
    NULL. *)
Definition valid_julian (ms : Z) : bool :=
  (-210866760000000 <=? ms) && (ms <=? 253402300799999).


(** SQLite's comparison of two TEXT values (BINARY collation). *)
Definition text_lt (a b : string) : bool := String.ltb a b.
Definition text_gt (a b : string) : bool := String.ltb b a.

End Clock.

(** ** Agent names (src/utils/names.ts) *)

Module Names.

Definition ADJECTIVES : list string :=
  ["Amber"; "Azure"; "Blue"; "Bright"; "Bronze"; "Calm"; "Clear"; "Coral";
   "Crimson"; "Crystal"; "Cyber"; "Dark"; "Dawn"; "Deep"; "Desert";
   "Digital"; "Dusk"; "Electric"; "Emerald"; "Fire"; "Forest"; "Frost";
   "Ghost"; "Golden"; "Gray"; "Green"; "Hidden"; "Ice"; "Indigo"; "Iron";
   "Ivory"; "Jade"; "Light"; "Lunar"; "Marble"; "Midnight"; "Misty";
   "Moon"; "Neon"; "Night"; "Noble"; "Ocean"; "Onyx"; "Orange"; "Pale";
   "Pearl"; "Pine"; "Pink"; "Platinum"; "Purple"; "Quiet"; "Rapid"; "Red";
   "River"; "Rose"; "Royal"; "Ruby"; "Rust"; "Sacred"; "Sage"; "Sand";
   "Sapphire"; "Scarlet"; "Secret"; "Shadow"; "Silent"; "Silver"; "Sky";
   "Slate"; "Snow"; "Solar"; "Spring"; "Steel"; "Stone"; "Storm"; "Summer";
   "Swift"; "Thunder"; "Tidal"; "Twilight"; "Velvet"; "Violet"; "Warm";
   "White"; "Wild"; "Winter"; "Wise"].

Definition NOUNS : list string :=
  ["Arrow"; "Bay"; "Bear"; "Bird"; "Blade"; "Brook"; "Canyon"; "Castle";
   "Cave"; "Cedar"; "Cliff"; "Cloud"; "Cobra"; "Cove"; "Crane"; "Creek";
   "Crown"; "Dawn"; "Deer"; "Delta"; "Dove"; "Dragon"; "Drift"; "Dune";
   "Eagle"; "Elm"; "Falcon"; "Fern"; "Field"; "Finch"; "Flame"; "Flash";
   "Flint"; "Fox"; "Frost"; "Garden"; "Gate"; "Glacier"; "Glen"; "Grove";
   "Harbor"; "Hawk"; "Haven"; "Heath"; "Heron"; "Hill"; "Hollow"; "Horn";
   "Isle"; "Jade"; "Jaguar"; "Keep"; "Lake"; "Lark"; "Leaf"; "Lion";
   "Lodge"; "Lynx"; "Maple"; "Marsh"; "Mesa"; "Mill"; "Mist"; "Moon";
   "Moss"; "Mountain"; "Oak"; "Oasis"; "Owl"; "Palm"; "Panther"; "Pass";
   "Path"; "Peak"; "Petal"; "Phoenix"; "Pine"; "Plain"; "Pond"; "Quail";
   "Raven"; "Reef"; "Ridge"; "River"; "Rock"; "Rose"; "Sage"; "Sand";
   "Shade"; "Shore"; "Sparrow"; "Spring"; "Star"; "Stone"; "Storm";
   "Stream"; "Summit"; "Swan"; "Thorn"; "Thunder"; "Tiger"; "Tower";
   "Trail"; "Tree"; "Vale"; "Valley"; "Vine"; "Vista"; "Wave"; "Willow";
   "Wind"; "Wolf"; "Wood"].

(** [arr[Math.floor(Math.random() * arr.length)]]: the draw is any index
    of the array; [r] is the raw value of the random source. *)
Definition randomElement (arr : list string) (r : nat) : string :=
  nth (r mod List.length arr)%nat arr "".

(** The random source: the successive draws of [Math.random()], read
    from position [k] on. *)
Definition Rng := nat -> nat.

(** [generateName()]: adjective first, then noun; two draws. *)
Definition generateName (rnd : Rng) (k : nat) : string * nat :=
  (randomElement ADJECTIVES (rnd k) ++ randomElement NOUNS (rnd (S k)),
   S (S k)).

(** Longest prefix of lower-case letters and the rest. *)
Fixpoint span_lower (s : string) : string * string :=
  match s with
  | EmptyString => (EmptyString, EmptyString)
  | String c r =>
      if Js.is_lower c then
        let '(w, rest) := span_lower r in (String c w, rest)
      else (EmptyString, s)
  end.

(** One group [[A-Z][a-z]+] at the head of [s], and what follows it. *)
Definition match_word (s : string) : option (string * string) :=
  match s with
  | EmptyString => None
  | String c r =>
      if Js.is_upper c then
        match span_lower r with
        | (EmptyString, _) => None
        | (w, rest) => Some (String c w, rest)
        end
      else None
  end.

(** [name.match(/^([A-Z][a-z]+)([A-Z][a-z]+)$/)]: the two groups. *)
Definition match_name (name : string) : option (string * string) :=
  match match_word name with
  | Some (adj, rest) =>
      match match_word rest with
      | Some (noun, EmptyString) => Some (adj, noun)
      | _ => None
      end
  | None => None
  end.

Definition includes (arr : list string) (w : string) : bool :=
  existsb (String.eqb w) arr.

Definition isValidName (name : string) : bool :=
  match match_name name with
  | None => false
  | Some (adj, noun) => includes ADJECTIVES adj && includes NOUNS noun
  end.

(** [existing.has(name)] on the set of existing names. *)
Definition has (existing : list string) (name : string) : bool :=
  existsb (String.eqb name) existing.

(** Decimal text of a number, as a template literal prints it. *)
Definition show (n : Z) : string :=
  DecimalString.NilZero.string_of_int (Z.to_int n).

(** The [for] loop of [generateUniqueName]: up to [n] random names. *)
Fixpoint try_random (n : nat) (rnd : Rng) (k : nat) (existing : list string)
  : option string * nat :=
  match n with
  | O => (None, k)
  | S n' =>
      let '(name, k') := generateName rnd k in
      if negb (has existing name) then (Some name, k')
      else try_random n' rnd k' existing
  end.

(** The [while] loop of the fallback; [None] when [fuel] iterations did
    not leave the loop. *)
Fixpoint suffix_loop (fuel : nat) (rnd : Rng) (k : nat) (name : string)
    (suffix : Z) (existing : list string) : option string :=
  if has existing (name ++ show suffix) then
    match fuel with
    | O => None
    | S f =>
        let suffix := suffix + 1 in
        if suffix >? 100 then
          let '(name', k') := generateName rnd k in
          suffix_loop f rnd k' name' 1 existing
        else suffix_loop f rnd k name suffix existing
    end
  else Some (name ++ show suffix).

Definition generateUniqueName (fuel : nat) (rnd : Rng)
    (existing : list string) (hint : option string) : option string :=
  if match hint with
     | Some h => Js.truthy h && isValidName h && negb (has existing h)
     | None => false
     end
  then hint
  else
    match try_random 100 rnd 0%nat existing with
    | (Some name, _) => Some name
    | (None, k) =>
        let '(name, k') := generateName rnd k in
        suffix_loop fuel rnd k' name 1 existing
    end.

End Names.

(** ** Project slugs (src/utils/slug.ts) *)

Module Slug.

(** ToInt32 of ECMAScript. *)
Definition to_int32 (z : Z) : Z := (z + 2 ^ 31) mod 2 ^ 32 - 2 ^ 31.

Definition hex_digit (d : Z) : ascii :=
  if d <? 10 then ascii_of_N (Z.to_N (48 + d))
  else ascii_of_N (Z.to_N (87 + d)).

Fixpoint hex_aux (fuel : nat) (n : Z) (acc : string) : string :=
  match fuel with
  | O => acc
  | S f =>
      let acc := String (hex_digit (n mod 16)) acc in
      if n / 16 =? 0 then acc else hex_aux f (n / 16) acc
  end.

(** [n.toString(16)] for [0 <= n < 2^64]. *)
Definition toString16 (n : Z) : string := hex_aux 16 n "".

Definition charCode (c : ascii) : Z := Z.of_N (N_of_ascii c).

Fixpoint hash_loop (str : string) (hash : Z) : Z :=
  match str with
  | EmptyString => hash
  | String c r =>
      let hash := to_int32 (hash * 32) - hash + charCode c in
      let hash := to_int32 hash in
      hash_loop r hash
  end.

Definition simpleHash (str : string) : string :=
  toString16 (Z.abs (hash_loop str 0)).

Definition is_alnum (c : ascii) : bool := Js.is_lower c || Js.is_digit c.

(** [s.replace(/[^a-z0-9]+/g, "-")]; [inrun] tells that the previous
    character already belonged to the run being replaced. *)
Fixpoint replace_runs (inrun : bool) (s : string) : string :=
  match s with
  | EmptyString => EmptyString
  | String c r =>
      if is_alnum c then String c (replace_runs false r)
      else if inrun then replace_runs true r
      else String "-" (replace_runs true r)
  end.

Fixpoint drop_hyphens (s : string) : string :=
  match s with
  | String "-" r => drop_hyphens r
  | _ => s
  end.

Fixpoint rev_string (s acc : string) : string :=
  match s with
  | EmptyString => acc
  | String c r => rev_string r (String c acc)
  end.

(** [s.replace(/^-+|-+$/g, "")]. *)
Definition trim_hyphens (s : string) : string :=
  rev_string (drop_hyphens (rev_string (drop_hyphens s) "")) "".

Definition slugify (input : string) : string :=
  String.substring 0 64
    (trim_hyphens (replace_runs false (Js.toLowerCase input))).

Definition projectSlug (humanKey : string) : string :=
  let parts := filter Js.truthy (Js.split "/" humanKey) in
  let relevant := Js.join "-" (Js.slice_m2 parts) in
  let hash := String.substring 0 8 (simpleHash humanKey) in
  slugify (relevant ++ "-" ++ hash).

End Slug.

(** ** Data model (types.ts, and the schema of src/db.ts) *)

Inductive Importance := Low | Normal | High | Urgent.

Inductive Kind := KTo | KCc | KBcc.

Definition Kind_eqb (a b : Kind) : bool :=
  match a, b with
  | KTo, KTo | KCc, KCc | KBcc, KBcc => true
  | _, _ => false
  end.

Record Project := {
  p_id : Z;
  p_slug : string;
  p_human_key : string;
  p_created_at : string }.

Record Agent := {
  a_id : Z;
  a_project_id : Z;
  a_name : string;
  a_program : string;
  a_model : string;
  a_task_description : string;
  a_inception_ts : string;
  a_last_active_ts : string }.

Record Message := {
  m_id : Z;
  m_project_id : Z;
  m_sender_id : Z;
  m_thread_id : option string;
  m_subject : string;
  m_body_md : string;
  m_to_agents : string;
  m_cc_agents : string;
  m_importance : Importance;
  m_ack_required : Z;
  m_created_ts : string }.

Record MessageRecipient := {
  mr_message_id : Z;
  mr_agent_id : Z;
  mr_kind : Kind;
  mr_read_ts : option string;
  mr_ack_ts : option string }.

Record FileReservation := {
  fr_id : Z;
  fr_project_id : Z;
  fr_agent_id : Z;
  fr_path_pattern : string;
  fr_exclusive : Z;
  fr_reason : string;
  fr_created_ts : string;
  fr_expires_ts : string;
  fr_released_ts : option string }.

Record ReservationWithAgent := {
  rwa_row : FileReservation;
  rwa_agent_name : string }.

Record ReservationConflict := {
  rc_id : Z;
  rc_agent_name : string;
  rc_path_pattern : string;
  rc_expires_ts : string;
  rc_reason : string }.

Record ReservationResult := {
  granted : list FileReservation;
  conflicts : list ReservationConflict }.

Record ApiError := {
  err_type : string;
  err_message : string;
  err_recoverable : bool;
  err_data : option (list string) }.

Inductive Result (T : Type) :=
  | Ok (value : T)
  | Err (error : ApiError).
Arguments Ok {T} value.
Arguments Err {T} error.

Definition is_ok {T} (r : Result T) : bool :=
  match r with Ok _ => true | Err _ => false end.

(** The five tables. *)
Record Store := {
  projects : list Project;
  agents : list Agent;
  messages : list Message;
  message_recipients : list MessageRecipient;
  file_reservations : list FileReservation }.

Definition empty_store : Store :=
  {| projects := []; agents := []; messages := [];
     message_recipients := []; file_reservations := [] |}.

Definition set_projects (s : Store) (l : list Project) : Store :=
  {| projects := l; agents := agents s; messages := messages s;
     message_recipients := message_recipients s;
     file_reservations := file_reservations s |}.

Definition set_agents (s : Store) (l : list Agent) : Store :=
  {| projects := projects s; agents := l; messages := messages s;
     message_recipients := message_recipients s;
     file_reservations := file_reservations s |}.

Definition set_messages (s : Store) (l : list Message) : Store :=
  {| projects := projects s; agents := agents s; messages := l;
     message_recipients := message_recipients s;
     file_reservations := file_reservations s |}.

Definition set_message_recipients (s : Store) (l : list MessageRecipient)
  : Store :=
  {| projects := projects s; agents := agents s; messages := messages s;
     message_recipients := l;
     file_reservations := file_reservations s |}.

Definition set_file_reservations (s : Store) (l : list FileReservation)
  : Store :=
  {| projects := projects s; agents := agents s; messages := messages s;
     message_recipients := message_recipients s;
     file_reservations := l |}.

(** ** The handler monad: a store passed along, and [Result] errors that
    end the handler ([if (!r.ok) return r]). *)

Definition M (T : Type) : Type := Store -> Result T * Store.

Definition ret {T} (v : T) : M T := fun s => (Ok v, s).

Definition fail {T} (e : ApiError) : M T := fun s => (Err e, s).

Definition bind {A B} (m : M A) (k : A -> M B) : M B :=
  fun s =>
    match m s with
    | (Ok v, s') => k v s'
    | (Err e, s') => (Err e, s')
    end.

Notation "x <- m ;; k" := (bind m (fun x => k))
  (at level 61, m at next level, right associativity).

(** ** SQLite helpers *)

(** The rowid SQLite gives a new row of a table whose rowids are [ids]. *)
Definition next_rowid (ids : list Z) : Z := fold_right Z.max 0 ids + 1.

(** Number of rows an UPDATE or DELETE touches ([result.changes]). *)
Definition changes {A} (p : A -> bool) (rows : list A) : Z :=
  Z.of_nat (List.length (filter p rows)).

(** [UPDATE ... SET ... WHERE p]. *)
Definition update_where {A} (p : A -> bool) (f : A -> A) (rows : list A)
  : list A :=
  map (fun r => if p r then f r else r) rows.

(** Insertion sort of rows by a text column, largest first, keeping the
    table order among equal keys: [ORDER BY col DESC]. *)
Fixpoint insert_desc {A} (key : A -> string) (x : A) (l : list A) : list A :=
  match l with
  | [] => [x]
  | y :: r =>
      if Clock.text_lt (key x) (key y) then y :: insert_desc key x r
      else x :: l
  end.

Definition order_by_desc {A} (key : A -> string) (l : list A) : list A :=
  fold_right (insert_desc key) [] l.

(** ** Project registry (src/handlers/project.ts) *)

Definition mkErr {T} (type message : string) (recoverable : bool)
    (data : option (list string)) : Result T :=
  Err {| err_type := type; err_message := message;
         err_recoverable := recoverable; err_data := data |}.

(** [suggestions.length > 0 ? { suggestions } : undefined]. *)
Definition suggestions_data (l : list string) : option (list string) :=
  match l with [] => None | _ => Some l end.

Definition getProject (slugOrKey : string) : M Project := fun s =>
  match find (fun p => String.eqb (p_slug p) slugOrKey
                       || String.eqb (p_human_key p) slugOrKey)
             (projects s) with
  | Some project => (Ok project, s)
  | None =>
      let suggestions :=
        map p_slug
          (firstn 3
             (filter (fun p =>
                        Js.includes (p_slug p) (Js.toLowerCase slugOrKey)
                        || Js.includes (p_human_key p) slugOrKey)
                     (projects s))) in
      (mkErr "PROJECT_NOT_FOUND" ("Project not found: " ++ slugOrKey) true
             (suggestions_data suggestions), s)
  end.

(** [INSERT INTO projects (slug, human_key)]: the new table, or the
    message of the UNIQUE constraint that refuses the row. *)
Definition insert_project (now : Z) (slug humanKey : string) (s : Store)
  : Store + string :=
  if existsb (fun p => String.eqb (p_slug p) slug) (projects s) then
    inr "UNIQUE constraint failed: projects.slug"
  else if existsb (fun p => String.eqb (p_human_key p) humanKey)
            (projects s) then
    inr "UNIQUE constraint failed: projects.human_key"
  else
    inl (set_projects s
           (projects s ++
            [{| p_id := next_rowid (map p_id (projects s));
                p_slug := slug;
                p_human_key := humanKey;
                p_created_at := Clock.sqlite_datetime now |}])%list).

(** The [try] block of [ensureProject]: what runs once the lookup found
    no row. *)
Definition ensureProject_create (now : Z) (humanKey : string) : M Project :=
  fun s =>
    let slug := Slug.projectSlug humanKey in
    match insert_project now slug humanKey s with
    | inl s' =>
        match find (fun p => String.eqb (p_slug p) slug) (projects s') with
        | Some created => (Ok created, s')
        | None =>
            (mkErr "PROJECT_CREATE_FAILED" "Failed to create project" true
                   None, s')
        end
    | inr msg => (mkErr "PROJECT_CREATE_FAILED" msg false None, s)
    end.

Definition ensureProject (now : Z) (humanKey : string) : M Project :=
  fun s =>
    let slug := Slug.projectSlug humanKey in
    match find (fun p => String.eqb (p_human_key p) humanKey
                         || String.eqb (p_slug p) slug)
               (projects s) with
    | Some existing => (Ok existing, s)
    | None => ensureProject_create now humanKey s
    end.

(** Two processes on one database file: the lookup of this call ran on
    [s] and found nothing, another writer then brought the store to [s'],
    and the insert of this call runs on [s']. *)
Definition ensureProject_raced (now : Z) (humanKey : string)
    (s s' : Store) : option (Result Project * Store) :=
  let slug := Slug.projectSlug humanKey in
  match find (fun p => String.eqb (p_human_key p) humanKey
                       || String.eqb (p_slug p) slug)
             (projects s) with
  | Some _ => None
  | None => Some (ensureProject_create now humanKey s')
  end.

(** ** Agent directory (src/handlers/agent.ts) *)

Record RegisterAgentInput := {
  reg_projectSlug : string;
  reg_name : option string;
  reg_program : string;
  reg_model : string;
  reg_taskDescription : option string }.

(** [input.taskDescription ?? ""], and the like. *)
Definition or_default {A} (o : option A) (d : A) : A :=
  match o with Some v => v | None => d end.

Definition agent_named (project_id : Z) (name : string) (a : Agent) : bool :=
  (a_project_id a =? project_id) && String.eqb (a_name a) name.

(** [SET last_active_ts = ?]. *)
Definition set_last_active (ts : string) (a : Agent) : Agent :=
  {| a_id := a_id a; a_project_id := a_project_id a;
     a_name := a_name a; a_program := a_program a; a_model := a_model a;
     a_task_description := a_task_description a;
     a_inception_ts := a_inception_ts a;
     a_last_active_ts := ts |}.

(** [SET program = ?, model = ?, task_description = ?, last_active_ts = ?]. *)
Definition set_profile (program model task ts : string) (a : Agent)
  : Agent :=
  {| a_id := a_id a; a_project_id := a_project_id a;
     a_name := a_name a; a_program := program; a_model := model;
     a_task_description := task;
     a_inception_ts := a_inception_ts a;
     a_last_active_ts := ts |}.

(** [UPDATE agents SET last_active_ts = datetime('now') WHERE id = ?]. *)
Definition touch (now : Z) (agent : Agent) (s : Store) : Store :=
  set_agents s
    (update_where (fun a => a_id a =? a_id agent)
       (set_last_active (Clock.sqlite_datetime now))
       (agents s)).

Definition getAgent (now : Z) (projectSlug agentName : string) : M Agent :=
  project <- getProject projectSlug ;;
  fun s =>
    match find (agent_named (p_id project) agentName) (agents s) with
    | None =>
        let allAgents :=
          filter (fun a => a_project_id a =? p_id project) (agents s) in
        let suggestions :=
          map a_name
            (firstn 3
               (filter (fun a => Js.includes (Js.toLowerCase (a_name a))
                                             (Js.toLowerCase agentName))
                       allAgents)) in
        (mkErr "AGENT_NOT_FOUND" ("Agent not found: " ++ agentName) true
               (suggestions_data suggestions), s)
    | Some agent => (Ok agent, touch now agent s)
    end.

(** [registerAgent] once the name is resolved. *)
Definition registerAgent_named (now : Z) (input : RegisterAgentInput)
    (project : Project) (name : string) : M Agent := fun s =>
  match find (agent_named (p_id project) name) (agents s) with
  | Some existing =>
      let s' :=
        set_agents s
          (update_where (fun a => a_id a =? a_id existing)
             (set_profile (reg_program input) (reg_model input)
                (or_default (reg_taskDescription input) "")
                (Clock.sqlite_datetime now))
             (agents s)) in
      (* [updated!]: the row updated just above *)
      (Ok (or_default
             (find (fun a => a_id a =? a_id existing) (agents s'))
             existing), s')
  | None =>
      if existsb (agent_named (p_id project) name) (agents s) then
        (mkErr "AGENT_CREATE_FAILED"
               "UNIQUE constraint failed: agents.project_id, agents.name"
               false None, s)
      else
        let s' :=
          set_agents s
            (agents s ++
             [{| a_id := next_rowid (map a_id (agents s));
                 a_project_id := p_id project;
                 a_name := name;
                 a_program := reg_program input;
                 a_model := reg_model input;
                 a_task_description :=
                   or_default (reg_taskDescription input) "";
                 a_inception_ts := Clock.sqlite_datetime now;
                 a_last_active_ts := Clock.sqlite_datetime now |}])%list in
        match find (agent_named (p_id project) name) (agents s') with
        | Some created => (Ok created, s')
        | None =>
            (mkErr "AGENT_CREATE_FAILED" "Failed to create agent" true None,
             s')
        end
  end.

(** The name [registerAgent] settles on; [None] when the fallback loop
    of [generateUniqueName] did not end within [fuel] iterations. *)
Definition resolve_name (fuel : nat) (rnd : Names.Rng)
    (input : RegisterAgentInput) (project : Project) (s : Store)
  : option string :=
  let existingNames :=
    map a_name
      (filter (fun a => a_project_id a =? p_id project) (agents s)) in
  match reg_name input with
  | Some n =>
      if Js.truthy n then
        if Names.isValidName n then Some n
        else Names.generateUniqueName fuel rnd existingNames (Some n)
      else Names.generateUniqueName fuel rnd existingNames None
  | None => Names.generateUniqueName fuel rnd existingNames None
  end.

Definition registerAgent (fuel : nat) (rnd : Names.Rng) (now : Z)
    (input : RegisterAgentInput) (s : Store)
  : option (Result Agent * Store) :=
  match getProject (reg_projectSlug input) s with
  | (Err e, s') => Some (Err e, s')
  | (Ok project, s') =>
      match resolve_name fuel rnd input project s' with
      | None => None
      | Some name => Some (registerAgent_named now input project name s')
      end
  end.

(** ** Reservation engine (src/handlers/reservation.ts) *)

Record CreateReservationInput := {
  cr_projectSlug : string;
  cr_agentName : string;
  cr_pathPattern : string;
  cr_ttlSeconds : option Z;
  cr_exclusive : option bool;
  cr_reason : option string }.

(** [p.replace(/\*\*\//g, "")]. *)
Fixpoint strip_globstar_slash (p : string) : string :=
  match p with
  | String "*" (String "*" (String "/" r)) => strip_globstar_slash r
  | String c r => String c (strip_globstar_slash r)
  | EmptyString => EmptyString
  end.

(** [p.replace(/\*/g, "")]. *)
Fixpoint strip_star (p : string) : string :=
  match p with
  | String "*" r => strip_star r
  | String c r => String c (strip_star r)
  | EmptyString => EmptyString
  end.

Definition normalize (pattern : string) : string :=
  strip_star (strip_globstar_slash pattern).

(** [p.split("/").slice(0, -1).join("/")]. *)
Definition dir_of (p : string) : string :=
  Js.join "/" (Js.slice_0_m1 (Js.split "/" p)).

Definition patternsOverlap (pattern1 pattern2 : string) : bool :=
  let p1 := normalize pattern1 in
  let p2 := normalize pattern2 in
  if Js.startsWith p1 p2 || Js.startsWith p2 p1 then true
  else
    let dir1 := dir_of p1 in
    let dir2 := dir_of p2 in
    if Js.truthy dir1 && Js.truthy dir2
       && (Js.startsWith dir1 dir2 || Js.startsWith dir2 dir1) then true
    else String.eqb pattern1 pattern2.

(** [released_ts IS NULL AND expires_ts > datetime('now')]. *)
Definition is_active (now : Z) (fr : FileReservation) : bool :=
  match fr_released_ts fr with
  | None => Clock.text_gt (fr_expires_ts fr) (Clock.sqlite_datetime now)
  | Some _ => false
  end.

(** [FROM file_reservations fr JOIN agents a ON fr.agent_id = a.id]. *)
Definition join_agents (ags : list Agent) (rows : list FileReservation)
  : list ReservationWithAgent :=
  flat_map
    (fun fr =>
       map (fun a => {| rwa_row := fr; rwa_agent_name := a_name a |})
           (filter (fun a => fr_agent_id fr =? a_id a) ags))
    rows.

Definition to_conflict (res : ReservationWithAgent) : ReservationConflict :=
  {| rc_id := fr_id (rwa_row res);
     rc_agent_name := rwa_agent_name res;
     rc_path_pattern := fr_path_pattern (rwa_row res);
     rc_expires_ts := fr_expires_ts (rwa_row res);
     rc_reason := fr_reason (rwa_row res) |}.

(** The conflict scan of [createReservation].  The query has no ORDER
    BY; the conflicts are in table order here, and what is stated of them
    is membership. *)
Definition find_conflicts (now : Z) (project : Project) (agent : Agent)
    (pathPattern : string) (s : Store) : list ReservationConflict :=
  let activeReservations :=
    join_agents (agents s)
      (filter (fun fr => (fr_project_id fr =? p_id project)
                         && is_active now fr
                         && (fr_exclusive fr =? 1)
                         && negb (fr_agent_id fr =? a_id agent))
              (file_reservations s)) in
  map to_conflict
    (filter (fun res => negb (fr_agent_id (rwa_row res) =? a_id agent)
                        && patternsOverlap pathPattern
                             (fr_path_pattern (rwa_row res)))
            activeReservations).

(** [createReservation] once project and agent are resolved. *)
Definition createReservation_for (now : Z) (input : CreateReservationInput)
    (project : Project) (agent : Agent) : M ReservationResult :=
  fun s =>
    let ttlSeconds := or_default (cr_ttlSeconds input) 3600 in
    let exclusive := or_default (cr_exclusive input) true in
    let conflicts := find_conflicts now project agent
                       (cr_pathPattern input) s in
    match Clock.toISOString (now + ttlSeconds * 1000) with
    | None =>
        (mkErr "RESERVATION_CREATE_FAILED" "Invalid Date" false None, s)
    | Some expiresTs =>
        let reservationId := next_rowid (map fr_id (file_reservations s)) in
        let row :=
          {| fr_id := reservationId;
             fr_project_id := p_id project;
             fr_agent_id := a_id agent;
             fr_path_pattern := cr_pathPattern input;
             fr_exclusive := if exclusive then 1 else 0;
             fr_reason := or_default (cr_reason input) "";
             fr_created_ts := Clock.sqlite_datetime now;
             fr_expires_ts := expiresTs;
             fr_released_ts := None |} in
        let s' := set_file_reservations s
                    (file_reservations s ++ [row])%list in
        (* [reservation!]: the row inserted just above *)
        let reservation :=
          or_default
            (find (fun fr => fr_id fr =? reservationId)
                  (file_reservations s'))
            row in
        (Ok {| granted := [reservation]; conflicts := conflicts |}, s')
    end.

Definition createReservation (now : Z) (input : CreateReservationInput)
  : M ReservationResult :=
  project <- getProject (cr_projectSlug input) ;;
  agent <- getAgent now (cr_projectSlug input) (cr_agentName input) ;;
  createReservation_for now input project agent.

Record ReleaseReservationInput := {
  rl_projectSlug : string;
  rl_agentName : string;
  rl_pattern : option string;
  rl_all : option bool }.

Record ReleaseResult := {
  released : Z;
  releasedAt : string }.

Definition set_released (ts : string) (fr : FileReservation)
  : FileReservation :=
  {| fr_id := fr_id fr; fr_project_id := fr_project_id fr;
     fr_agent_id := fr_agent_id fr; fr_path_pattern := fr_path_pattern fr;
     fr_exclusive := fr_exclusive fr; fr_reason := fr_reason fr;
     fr_created_ts := fr_created_ts fr; fr_expires_ts := fr_expires_ts fr;
     fr_released_ts := Some ts |}.

Definition is_null {A} (o : option A) : bool :=
  match o with None => true | Some _ => false end.

(** The WHERE clause of the [all] branch. *)
Definition release_all_where (project : Project) (agent : Agent)
    (fr : FileReservation) : bool :=
  (fr_project_id fr =? p_id project) && (fr_agent_id fr =? a_id agent)
  && is_null (fr_released_ts fr).

(** The WHERE clause of the [pattern] branch. *)
Definition release_pattern_where (project : Project) (agent : Agent)
    (pattern : string) (fr : FileReservation) : bool :=
  (fr_project_id fr =? p_id project) && (fr_agent_id fr =? a_id agent)
  && String.eqb (fr_path_pattern fr) pattern
  && is_null (fr_released_ts fr).

(** [releaseReservations] once project and agent are resolved. *)
Definition releaseReservations_for (now : Z)
    (input : ReleaseReservationInput) (project : Project) (agent : Agent)
  : M ReleaseResult :=
  fun s =>
    let now_iso := Clock.iso_format now in
    let run (w : FileReservation -> bool) :=
      (Ok {| released := changes w (file_reservations s);
             releasedAt := now_iso |},
       set_file_reservations s
         (update_where w (set_released now_iso) (file_reservations s))) in
    if or_default (rl_all input) false then
      run (release_all_where project agent)
    else
      match rl_pattern input with
      | Some pattern =>
          if Js.truthy pattern then
            run (release_pattern_where project agent pattern)
          else
            (mkErr "INVALID_INPUT" "Must specify pattern or all=true" true
                   None, s)
      | None =>
          (mkErr "INVALID_INPUT" "Must specify pattern or all=true" true
                 None, s)
      end.

Definition releaseReservations (now : Z) (input : ReleaseReservationInput)
  : M ReleaseResult :=
  project <- getProject (rl_projectSlug input) ;;
  agent <- getAgent now (rl_projectSlug input) (rl_agentName input) ;;
  releaseReservations_for now input project agent.

Record ListReservationsQuery := {
  lq_projectSlug : string;
  lq_active : option bool }.

Definition listReservations (now : Z) (query : ListReservationsQuery)
  : M (list ReservationWithAgent) :=
  project <- getProject (lq_projectSlug query) ;;
  fun s =>
    let wanted fr :=
      (fr_project_id fr =? p_id project)
      && (if or_default (lq_active query) false then is_active now fr
          else true) in
    (Ok (order_by_desc (fun r => fr_created_ts (rwa_row r))
           (join_agents (agents s)
              (filter wanted (file_reservations s)))), s).

(** ** Message engine (src/handlers/message.ts) *)

Record SendMessageInput := {
  sm_projectSlug : string;
  sm_sender : string;
  sm_to : list string;
  sm_cc : option (list string);
  sm_subject : string;
  sm_bodyMd : string;
  sm_threadId : option string;
  sm_importance : option Importance;
  sm_ackRequired : option bool }.

(** An element of [recipientAgents]. *)
Record Recipient := {
  rcp_id : Z;
  rcp_name : string;
  rcp_kind : Kind }.

Definition recipient_of (kind : Kind) (a : Agent) : Recipient :=
  {| rcp_id := a_id a; rcp_name := a_name a; rcp_kind := kind |}.

(** [SELECT id, name FROM agents WHERE project_id = ? AND id != ?].  The
    query has no ORDER BY: which order the rows come in is the engine's
    choice; the list is in table order here, and what is stated of these
    rows is stated up to their order. *)
Definition other_agents (project : Project) (sender : Agent) (s : Store)
  : list Agent :=
  filter (fun a => (a_project_id a =? p_id project)
                   && negb (a_id a =? a_id sender))
         (agents s).

(** The loop over [input.to]. *)
Fixpoint resolve_to (now : Z) (projectSlug : string) (project : Project)
    (sender : Agent) (to : list string) (acc : list Recipient)
  : M (list Recipient) :=
  match to with
  | [] => ret acc
  | recipientName :: rest =>
      if String.eqb (Js.toLowerCase recipientName) "all" then
        fun s =>
          resolve_to now projectSlug project sender rest
            (acc ++ map (recipient_of KTo) (other_agents project sender s))
            s
      else
        recipient <- getAgent now projectSlug recipientName ;;
        resolve_to now projectSlug project sender rest
          (acc ++ [recipient_of KTo recipient])
  end.

(** The loop over [input.cc ?? []]. *)
Fixpoint resolve_cc (now : Z) (projectSlug : string) (cc : list string)
    (acc : list Recipient) : M (list Recipient) :=
  match cc with
  | [] => ret acc
  | ccName :: rest =>
      recipient <- getAgent now projectSlug ccName ;;
      resolve_cc now projectSlug rest (acc ++ [recipient_of KCc recipient])
  end.

(** The row [(message_id, agent_id, kind)] of a recipient; [read_ts] and
    [ack_ts] start NULL. *)
Definition recipient_record (messageId : Z) (r : Recipient)
  : MessageRecipient :=
  {| mr_message_id := messageId; mr_agent_id := rcp_id r;
     mr_kind := rcp_kind r; mr_read_ts := None; mr_ack_ts := None |}.

(** [INSERT INTO message_recipients]: refused when the primary key
    [(message_id, agent_id)] is taken. *)
Definition insert_recipient (messageId : Z) (r : Recipient) (s : Store)
  : option Store :=
  if existsb (fun mr => (mr_message_id mr =? messageId)
                        && (mr_agent_id mr =? rcp_id r))
             (message_recipients s) then None
  else
    Some (set_message_recipients s
            (message_recipients s ++ [recipient_record messageId r])%list).

(** The loop that creates the recipient records; on a refused insert the
    exception leaves the loop with the rows written so far in place (each
    statement commits on its own). *)
Fixpoint insert_recipients (messageId : Z) (rs : list Recipient) (s : Store)
  : bool * Store :=
  match rs with
  | [] => (true, s)
  | r :: rest =>
      match insert_recipient messageId r s with
      | None => (false, s)
      | Some s' => insert_recipients messageId rest s'
      end
  end.

Definition names_of_kind (kind : Kind) (rs : list Recipient) : string :=
  Js.join "," (map rcp_name (filter (fun r => Kind_eqb (rcp_kind r) kind) rs)).

(** The [try] block of [sendMessage]. *)
Definition create_message (now : Z) (input : SendMessageInput)
    (project : Project) (sender : Agent) (recipientAgents : list Recipient)
  : M Message := fun s =>
  let toAgents := names_of_kind KTo recipientAgents in
  let ccAgents := names_of_kind KCc recipientAgents in
  let messageId := next_rowid (map m_id (messages s)) in
  let row :=
    {| m_id := messageId;
       m_project_id := p_id project;
       m_sender_id := a_id sender;
       m_thread_id := sm_threadId input;
       m_subject := sm_subject input;
       m_body_md := sm_bodyMd input;
       m_to_agents := toAgents;
       m_cc_agents := ccAgents;
       m_importance := or_default (sm_importance input) Normal;
       m_ack_required := if or_default (sm_ackRequired input) false
                         then 1 else 0;
       m_created_ts := Clock.sqlite_datetime now |} in
  let s1 := set_messages s (messages s ++ [row])%list in
  match insert_recipients messageId recipientAgents s1 with
  | (true, s2) =>
      (* [message!]: the row inserted just above *)
      (Ok (or_default (find (fun m => m_id m =? messageId) (messages s2))
                      row), s2)
  | (false, s2) =>
      (mkErr "MESSAGE_SEND_FAILED"
         "UNIQUE constraint failed: message_recipients.message_id, message_recipients.agent_id"
         false None, s2)
  end.

(** [sendMessage] once project and sender are resolved. *)
Definition sendMessage_for (now : Z) (input : SendMessageInput)
    (project : Project) (sender : Agent) : M Message :=
  rs <- resolve_to now (sm_projectSlug input) project sender
          (sm_to input) [] ;;
  recipientAgents <- resolve_cc now (sm_projectSlug input)
                       (or_default (sm_cc input) []) rs ;;
  match recipientAgents with
  | [] => fail {| err_type := "NO_RECIPIENTS";
                  err_message := "No recipients specified or found";
                  err_recoverable := true; err_data := None |}
  | _ => create_message now input project sender recipientAgents
  end.

Definition sendMessage (now : Z) (input : SendMessageInput) : M Message :=
  project <- getProject (sm_projectSlug input) ;;
  sender <- getAgent now (sm_projectSlug input) (sm_sender input) ;;
  sendMessage_for now input project sender.

Record ReadResult := {
  read : bool;
  readAt : string }.

Record AckResult := {
  acknowledged : bool;
  ackAt : option string;
  ack_readAt : option string }.

Definition recipient_row (messageId agentId : Z) (mr : MessageRecipient)
  : bool :=
  (mr_message_id mr =? messageId) && (mr_agent_id mr =? agentId).

Definition not_recipient {T} : Result T :=
  mkErr "NOT_RECIPIENT" "Agent is not a recipient of this message" true None.

(** [SET read_ts = ?]. *)
Definition set_read (ts : string) (mr : MessageRecipient)
  : MessageRecipient :=
  {| mr_message_id := mr_message_id mr; mr_agent_id := mr_agent_id mr;
     mr_kind := mr_kind mr; mr_read_ts := Some ts;
     mr_ack_ts := mr_ack_ts mr |}.

(** SQL [COALESCE(x, y)]. *)
Definition coalesce {A} (x : option A) (y : A) : option A :=
  match x with Some _ => x | None => Some y end.

(** [SET ack_ts = ?, read_ts = COALESCE(read_ts, ?)]. *)
Definition set_ack (ts : string) (mr : MessageRecipient)
  : MessageRecipient :=
  {| mr_message_id := mr_message_id mr; mr_agent_id := mr_agent_id mr;
     mr_kind := mr_kind mr; mr_read_ts := coalesce (mr_read_ts mr) ts;
     mr_ack_ts := Some ts |}.

(** [markRead] once the agent is resolved. *)
Definition markRead_for (now : Z) (agent : Agent) (messageId : Z)
  : M ReadResult :=
  fun s =>
    match find (recipient_row messageId (a_id agent))
               (message_recipients s) with
    | None => (not_recipient, s)
    | Some recipient =>
        match (if Js.truthy_opt (mr_read_ts recipient)
               then mr_read_ts recipient else None) with
        | Some read_ts => (Ok {| read := true; readAt := read_ts |}, s)
        | None =>
            let now_iso := Clock.iso_format now in
            (Ok {| read := true; readAt := now_iso |},
             set_message_recipients s
               (update_where (recipient_row messageId (a_id agent))
                  (set_read now_iso) (message_recipients s)))
        end
    end.

Definition markRead (now : Z) (projectSlug agentName : string)
    (messageId : Z) : M ReadResult :=
  agent <- getAgent now projectSlug agentName ;;
  markRead_for now agent messageId.

(** [acknowledge] once the agent is resolved. *)
Definition acknowledge_for (now : Z) (agent : Agent) (messageId : Z)
  : M AckResult :=
  fun s =>
    match find (recipient_row messageId (a_id agent))
               (message_recipients s) with
    | None => (not_recipient, s)
    | Some recipient =>
        let now_iso := Clock.iso_format now in
        let s' :=
          set_message_recipients s
            (update_where (recipient_row messageId (a_id agent))
               (set_ack now_iso) (message_recipients s)) in
        let updated :=
          find (recipient_row messageId (a_id agent))
               (message_recipients s') in
        (Ok {| acknowledged := true;
               ackAt := match updated with
                        | Some u => mr_ack_ts u
                        | None => None
                        end;
               ack_readAt := match updated with
                             | Some u => mr_read_ts u
                             | None => None
                             end |}, s')
    end.

Definition acknowledge (now : Z) (projectSlug agentName : string)
    (messageId : Z) : M AckResult :=
  agent <- getAgent now projectSlug agentName ;;
  acknowledge_for now agent messageId.

(** ** Retention sweep (src/db.ts) *)

Record RetentionResult := {
  rr_messages : Z;
  rr_reservations : Z }.

(** [datetime('now', '-N days')]: NULL ([None]) when the modifier does
    not parse, which is the case of a negative [retentionDays]
    (the text would read [--N days]), and when the horizon carries the
    instant out of the dates SQLite represents. *)
Definition cutoff_datetime (now retentionDays : Z) : option string :=
  if retentionDays <? 0 then None
  else
    let cutoff := now - retentionDays * Clock.ms_per_day in
    if Clock.valid_julian cutoff then Some (Clock.sqlite_datetime cutoff)
    else None.

(** [col < cutoff] in a WHERE clause: not satisfied when [cutoff] is NULL. *)
Definition before_cutoff (col : string) (cutoff : option string) : bool :=
  match cutoff with
  | Some c => Clock.text_lt col c
  | None => false
  end.

Definition runRetention (now retentionDays : Z) (s : Store)
  : RetentionResult * Store :=
  let cutoff := cutoff_datetime now retentionDays in
  let now_txt := Clock.sqlite_datetime now in
  let expired fr :=
    is_null (fr_released_ts fr) && Clock.text_lt (fr_expires_ts fr) now_txt in
  let s1 :=
    set_file_reservations s
      (update_where expired (fun fr => set_released (fr_expires_ts fr) fr)
         (file_reservations s)) in
  let old_message m := before_cutoff (m_created_ts m) cutoff in
  let deleted := filter old_message (messages s1) in
  (* ON DELETE CASCADE of message_recipients.message_id *)
  let s2 :=
    set_message_recipients
      (set_messages s1 (filter (fun m => negb (old_message m)) (messages s1)))
      (filter (fun mr =>
                 negb (existsb (fun m => m_id m =? mr_message_id mr) deleted))
              (message_recipients s1)) in
  let old_reservation fr :=
    (negb (is_null (fr_released_ts fr))
     || Clock.text_lt (fr_expires_ts fr) now_txt)
    && before_cutoff (fr_created_ts fr) cutoff in
  ({| rr_messages := changes old_message (messages s1);
      rr_reservations := changes old_reservation (file_reservations s2) |},
   set_file_reservations s2
     (filter (fun fr => negb (old_reservation fr)) (file_reservations s2))).

(** ** Runs of the server

    One step is one routed request (or one run of the retention timer),
    with any clock value, any input and, for registration, any random
    source. *)

Inductive step : Store -> Store -> Prop :=
  | step_ensureProject now humanKey s r s' :
      ensureProject now humanKey s = (r, s') -> step s s'
  | step_registerAgent fuel rnd now input s r s' :
      registerAgent fuel rnd now input s = Some (r, s') -> step s s'
  | step_getAgent now projectSlug agentName s r s' :
      getAgent now projectSlug agentName s = (r, s') -> step s s'
  | step_sendMessage now input s r s' :
      sendMessage now input s = (r, s') -> step s s'
  | step_markRead now projectSlug agentName messageId s r s' :
      markRead now projectSlug agentName messageId s = (r, s') -> step s s'
  | step_acknowledge now projectSlug agentName messageId s r s' :
      acknowledge now projectSlug agentName messageId s = (r, s') ->
      step s s'
  | step_createReservation now input s r s' :
      createReservation now input s = (r, s') -> step s s'
  | step_releaseReservations now input s r s' :
      releaseReservations now input s = (r, s') -> step s s'
  | step_runRetention now retentionDays s r s' :
      runRetention now retentionDays s = (r, s') -> step s s'.

Inductive reachable : Store -> Prop :=
  | reachable_empty : reachable empty_store
  | reachable_step s s' : reachable s -> step s s' -> reachable s'.

(** What every reachable store satisfies: the keys of the schema, the
    slug derived from the key, and the two directions of the link between
    messages and their recipient rows. *)
Record Inv (s : Store) : Prop := {
  inv_project_slugs : NoDup (map p_slug (projects s));
  inv_project_slug_of_key :
    forall p, In p (projects s) ->
              p_slug p = Slug.projectSlug (p_human_key p);
  inv_agent_ids : NoDup (map a_id (agents s));
  inv_message_ids : NoDup (map m_id (messages s));
  inv_recipient_message :
    forall mr, In mr (message_recipients s) ->
               exists m, In m (messages s) /\ m_id m = mr_message_id mr;
  inv_message_recipient :
    forall m, In m (messages s) ->
              exists mr, In mr (message_recipients s)
                         /\ mr_message_id mr = m_id m }.

(** ** A concrete run: the scenario of the specification

    Project [/repo]; AmberFox and JadeWolf register; AmberFox reserves
    [src/auth/**] for 60 seconds at 2026-11-02 05:00:00 UTC. *)

Module Scenario.

Definition t0 : Z := 1793595600000.

Definition rnd0 : Names.Rng := fun _ => 0%nat.

Definition reg (name : string) : RegisterAgentInput :=
  {| reg_projectSlug := "/repo"; reg_name := Some name;
     reg_program := "cli"; reg_model := "m1";
     reg_taskDescription := None |}.

Definition register (input : RegisterAgentInput) (s : Store) : Store :=
  match registerAgent 0 rnd0 t0 input s with
  | Some (_, s') => s'
  | None => s
  end.

Definition s_project : Store :=
  Eval vm_compute in snd (ensureProject t0 "/repo" empty_store).

Definition s_amber : Store :=
  Eval vm_compute in register (reg "AmberFox") s_project.

Definition s_agents : Store :=
  Eval vm_compute in register (reg "JadeWolf") s_amber.

(** The rows of the project and of the two agents in [s_agents]. *)
Definition repo : Project :=
  {| p_id := 1; p_slug := "repo-2cbac21"; p_human_key := "/repo";
     p_created_at := "2026-11-02 05:00:00" |}.

Definition amber : Agent :=
  {| a_id := 1; a_project_id := 1; a_name := "AmberFox";
     a_program := "cli"; a_model := "m1"; a_task_description := "";
     a_inception_ts := "2026-11-02 05:00:00";
     a_last_active_ts := "2026-11-02 05:00:00" |}.

Definition jade : Agent :=
  {| a_id := 2; a_project_id := 1; a_name := "JadeWolf";
     a_program := "cli"; a_model := "m1"; a_task_description := "";
     a_inception_ts := "2026-11-02 05:00:00";
     a_last_active_ts := "2026-11-02 05:00:00" |}.

Definition amber_auth : CreateReservationInput :=
  {| cr_projectSlug := "/repo"; cr_agentName := "AmberFox";
     cr_pathPattern := "src/auth/**"; cr_ttlSeconds := Some 60;
     cr_exclusive := Some true; cr_reason := None |}.

Definition jade_login : CreateReservationInput :=
  {| cr_projectSlug := "/repo"; cr_agentName := "JadeWolf";
     cr_pathPattern := "src/auth/login.go"; cr_ttlSeconds := None;
     cr_exclusive := None; cr_reason := None |}.

Definition s_reserved : Store :=
  Eval vm_compute in snd (createReservation t0 amber_auth s_agents).

(** AmberFox's reservation, as stored in [s_reserved]. *)
Definition amber_row : FileReservation :=
  {| fr_id := 1; fr_project_id := 1; fr_agent_id := 1;
     fr_path_pattern := "src/auth/**"; fr_exclusive := 1;
     fr_reason := ""; fr_created_ts := "2026-11-02 05:00:00";
     fr_expires_ts := "2026-11-02T05:01:00.000Z";
     fr_released_ts := None |}.

(** AmberFox writes to JadeWolf and asks for an acknowledgement. *)
Definition hello : SendMessageInput :=
  {| sm_projectSlug := "/repo"; sm_sender := "AmberFox";
     sm_to := ["JadeWolf"]; sm_cc := None;
     sm_subject := "hello"; sm_bodyMd := "see src/auth";
     sm_threadId := None; sm_importance := None;
     sm_ackRequired := Some true |}.

Definition s_sent : Store :=
  Eval vm_compute in snd (sendMessage t0 hello s_agents).

(** JadeWolf's recipient row in [s_sent]. *)
Definition jade_recipient : MessageRecipient :=
  {| mr_message_id := 1; mr_agent_id := 2; mr_kind := KTo;
     mr_read_ts := None; mr_ack_ts := None |}.

(** AmberFox writes to everybody else. *)
Definition broadcast : SendMessageInput :=
  {| sm_projectSlug := "/repo"; sm_sender := "AmberFox";
     sm_to := ["All"]; sm_cc := None;
     sm_subject := "heads up"; sm_bodyMd := "rebasing main";
     sm_threadId := None; sm_importance := Some High;
     sm_ackRequired := None |}.

(** AmberFox writes to JadeWolf and to a name nobody registered. *)
Definition hello_ghost : SendMessageInput :=
  {| sm_projectSlug := "/repo"; sm_sender := "AmberFox";
     sm_to := ["JadeWolf"; "GhostOwl"]; sm_cc := None;
     sm_subject := "hello"; sm_bodyMd := "see src/auth";
     sm_threadId := None; sm_importance := None;
     sm_ackRequired := None |}.

(** Two registrations without a name under a random source that keeps
    drawing the first adjective and the first noun: the first agent is
    AmberArrow, the second, after a hundred collisions, AmberArrow1. *)
Definition reg_anonymous : RegisterAgentInput :=
  {| reg_projectSlug := "/repo"; reg_name := None;
     reg_program := "cli"; reg_model := "m1";
     reg_taskDescription := None |}.

Definition s_arrow : Store :=
  Eval vm_compute in register reg_anonymous s_project.

Definition s_arrows : Store :=
  Eval vm_compute in register reg_anonymous s_arrow.

End Scenario.

(** ** Statements about pairs of reservation requests *)



(** ** Statements about [releaseReservations]

    [released_by now sel s s'] says that [s'] holds the reservations of
    [s], in the same order, where exactly the rows selected by [sel] had
    [released_ts] set to the ISO text of [now]. *)
Definition released_by (now : Z) (sel : FileReservation -> bool)
    (s s' : Store) : Prop :=
  Forall2 (fun old new =>
             if sel old then new = set_released (Clock.iso_format now) old
             else new = old)
          (file_reservations s) (file_reservations s').



(** ** Statements about [acknowledge] *)

(** Repeated acknowledgment as the specification words it: the second
    call returns the [ackAt] of the first. *)
Definition ack_is_write_once (now1 now2 : Z) (projectSlug agentName : string)
    (messageId : Z) (s : Store) : Prop :=
  forall r1 s1 r2 s2,
    acknowledge now1 projectSlug agentName messageId s = (Ok r1, s1) ->
    acknowledge now2 projectSlug agentName messageId s1 = (Ok r2, s2) ->
    ackAt r2 = ackAt r1.

(** ** Stores that differ by liveness stamps only *)

Definition erase_last_active (a : Agent) : Agent := set_last_active "" a.

(** [s'] is [s] up to the [last_active_ts] of its agents. *)
Definition only_touched (s s' : Store) : Prop :=
  projects s' = projects s
  /\ map erase_last_active (agents s') = map erase_last_active (agents s)
  /\ messages s' = messages s
  /\ message_recipients s' = message_recipients s
  /\ file_reservations s' = file_reservations s.

(** ** Statements about [sendMessage] *)

(** The name is that of an agent of the project. *)
Definition resolves_in (p : Project) (s : Store) (name : string) : bool :=
  match find (agent_named (p_id p) name) (agents s) with
  | Some _ => true
  | None => false
  end.

(** Some entry of [to] other than the broadcast alias, or some entry of
    [cc], names no agent of the project. *)
Definition has_unresolved (p : Project) (input : SendMessageInput)
    (s : Store) : bool :=
  existsb (fun name => negb (String.eqb (Js.toLowerCase name) "all")
                       && negb (resolves_in p s name))
          (sm_to input)
  || existsb (fun name => negb (resolves_in p s name))
             (or_default (sm_cc input) []).

(** The abort as the specification words it: the store after the call is
    the store before it. *)
Definition abort_leaves_store_unchanged (now : Z) (input : SendMessageInput)
    (s : Store) : Prop :=
  forall p sender,
    fst (getProject (sm_projectSlug input) s) = Ok p ->
    fst (getAgent now (sm_projectSlug input) (sm_sender input) s)
    = Ok sender ->
    has_unresolved p input s = true ->
    snd (sendMessage now input s) = s.

(** Every message has at least one recipient row. *)
Definition no_message_without_recipient (s : Store) : Prop :=
  forall m, In m (messages s) ->
            exists mr, In mr (message_recipients s)
                       /\ mr_message_id mr = m_id m.

(** ** Statements about [ensureProject] *)

(** The rows a call for [humanKey] looks up: those with that key or with
    the slug derived from it. *)
Definition project_matches (humanKey : string) (p : Project) : bool :=
  String.eqb (p_human_key p) humanKey
  || String.eqb (p_slug p) (Slug.projectSlug humanKey).

(** The lost race as the specification words it: the call whose insert
    comes second returns the row of the call that won. *)
Definition raced_call_returns_winner (now nowW : Z) (humanKey : string)
    (s : Store) : Prop :=
  forall w s_w r s',
    ensureProject nowW humanKey s = (Ok w, s_w) ->
    ensureProject_raced now humanKey s s_w = Some (r, s') ->
    r = Ok w.

(** ** Statements about [registerAgent] *)

(** Registration under a name already taken, as the specification words
    it: the call succeeds and the number of agents does not change. *)
Definition taken_name_adds_no_row (fuel : nat) (rnd : Names.Rng) (now : Z)
    (input : RegisterAgentInput) (s : Store) : Prop :=
  forall p b name,
    fst (getProject (reg_projectSlug input) s) = Ok p ->
    reg_name input = Some name ->
    find (agent_named (p_id p) name) (agents s) = Some b ->
    exists r s',
      registerAgent fuel rnd now input s = Some (r, s')
      /\ List.length (agents s') = List.length (agents s).

(** ** The remaining queries of the handlers *)


(** [listProjects] and [getProjectById] (src/handlers/project.ts). *)
Definition listProjects (s : Store) : list Project :=
  order_by_desc p_created_at (projects s).

Definition getProjectById (id : Z) (s : Store) : option Project :=
  find (fun p => p_id p =? id) (projects s).

(** [listAgents] and [getAgentById] (src/handlers/agent.ts). *)
Definition listAgents (projectSlug : string) : M (list Agent) :=
  project <- getProject projectSlug ;;
  fun s =>
    (Ok (order_by_desc a_last_active_ts
           (filter (fun a => a_project_id a =? p_id project) (agents s))),
     s).

Definition getAgentById (id : Z) (s : Store) : option Agent :=
  find (fun a => a_id a =? id) (agents s).

(** [LIMIT n]: a negative [n] is no limit. *)
Definition sql_limit {A} (n : Z) (rows : list A) : list A :=
  if n <? 0 then rows else firstn (Z.to_nat n) rows.

(** Truthiness of an optional number: absent and [0] are falsy. *)
Definition truthy_num (o : option Z) : bool :=
  match o with Some n => negb (n =? 0) | None => false end.

(** [if (query.limit) { sql += " LIMIT ?" }]. *)
Definition apply_limit {A} (limit : option Z) (rows : list A) : list A :=
  if truthy_num limit then sql_limit (or_default limit 0) rows else rows.

Record MessageWithSender := {
  mws_message : Message;
  mws_sender_name : string }.

Record InboxMessage := {
  im_message : Message;
  im_sender_name : string;
  im_read_ts : option string;
  im_ack_ts : option string }.

Record InboxQuery := {
  iq_projectSlug : string;
  iq_agentName : string;
  iq_limit : option Z;
  iq_urgent : option bool;
  iq_unread : option bool;
  iq_since : option string }.

Definition is_urgent (i : Importance) : bool :=
  match i with High | Urgent => true | _ => false end.

(** [FROM messages m JOIN message_recipients mr ON m.id = mr.message_id
    JOIN agents s ON m.sender_id = s.id], restricted by [keep]. *)
Definition inbox_rows (keep : Message -> MessageRecipient -> bool)
    (s : Store) : list InboxMessage :=
  flat_map
    (fun m =>
       flat_map
         (fun mr =>
            if (m_id m =? mr_message_id mr) && keep m mr then
              map (fun sender =>
                     {| im_message := m; im_sender_name := a_name sender;
                        im_read_ts := mr_read_ts mr;
                        im_ack_ts := mr_ack_ts mr |})
                  (filter (fun a => m_sender_id m =? a_id a) (agents s))
            else [])
         (message_recipients s))
    (messages s).

(** The WHERE clause [fetchInbox] builds. *)
Definition inbox_where (query : InboxQuery) (project : Project)
    (agent : Agent) (m : Message) (mr : MessageRecipient) : bool :=
  (mr_agent_id mr =? a_id agent) && (m_project_id m =? p_id project)
  && (if or_default (iq_urgent query) false
      then is_urgent (m_importance m) else true)
  && (if or_default (iq_unread query) false
      then is_null (mr_read_ts mr) else true)
  && (match iq_since query with
      | Some since =>
          if Js.truthy since then Clock.text_gt (m_created_ts m) since
          else true
      | None => true
      end).

Definition fetchInbox (now : Z) (query : InboxQuery)
  : M (list InboxMessage) :=
  project <- getProject (iq_projectSlug query) ;;
  agent <- getAgent now (iq_projectSlug query) (iq_agentName query) ;;
  fun s =>
    (Ok (apply_limit (iq_limit query)
           (order_by_desc (fun r => m_created_ts (im_message r))
              (inbox_rows (inbox_where query project agent) s))), s).

Record OutboxQuery := {
  oq_projectSlug : string;
  oq_agentName : string;
  oq_limit : option Z }.

(** [FROM messages m JOIN agents a ON m.sender_id = a.id], restricted by
    [keep]. *)
Definition with_sender (keep : Message -> bool) (s : Store)
  : list MessageWithSender :=
  flat_map
    (fun m =>
       if keep m then
         map (fun a => {| mws_message := m; mws_sender_name := a_name a |})
             (filter (fun a => m_sender_id m =? a_id a) (agents s))
       else [])
    (messages s).

Definition fetchOutbox (now : Z) (query : OutboxQuery)
  : M (list MessageWithSender) :=
  project <- getProject (oq_projectSlug query) ;;
  agent <- getAgent now (oq_projectSlug query) (oq_agentName query) ;;
  fun s =>
    (Ok (apply_limit (oq_limit query)
           (order_by_desc (fun r => m_created_ts (mws_message r))
              (with_sender (fun m => (m_sender_id m =? a_id agent)
                                     && (m_project_id m =? p_id project))
                           s))), s).

Definition getMessage (messageId : Z) : M MessageWithSender := fun s =>
  match with_sender (fun m => m_id m =? messageId) s with
  | message :: _ => (Ok message, s)
  | [] =>
      (mkErr "MESSAGE_NOT_FOUND"
             ("Message not found: " ++ Names.show messageId) true None, s)
  end.

(** [getStats] (src/db.ts). *)
Record Stats := {
  st_projects : Z;
  st_agents : Z;
  st_messages : Z;
  st_reservations_active : Z }.

Definition getStats (now : Z) (s : Store) : Stats :=
  {| st_projects := Z.of_nat (List.length (projects s));
     st_agents := Z.of_nat (List.length (agents s));
     st_messages := Z.of_nat (List.length (messages s));
     st_reservations_active :=
       changes (is_active now) (file_reservations s) |}.

(** ** The boundary (server.ts) and the output helpers *)

(** The HTTP status [resultResponse] gives a handler result. *)
Definition resultResponse_status {T} (result : Result T) : Z :=
  match result with
  | Ok _ => 200
  | Err error =>
      if Js.includes (err_type error) "NOT_FOUND" then 404 else 400
  end.

(** [str.slice(0, e)] for an integer [e]: a negative [e] counts from the
    end. *)
Definition slice_0 (str : string) (e : Z) : string :=
  let len := Z.of_nat (String.length str) in
  let stop := if e <? 0 then Z.max (len + e) 0 else Z.min e len in
  String.substring 0 (Z.to_nat stop) str.

(** [truncate] (output helpers). *)
Definition truncate (str : string) (maxLen : Z) : string :=
  if Z.of_nat (String.length str) <=? maxLen then str
  else slice_0 str (maxLen - 3) ++ "...".

(** ** Search (src/handlers/search.ts) *)

Record SearchQuery := {
  sq_projectSlug : string;
  sq_query : string;
  sq_limit : option Z }.

(** The single and the double quote character. *)
Definition is_quote (c : ascii) : bool :=
  let n := Z.of_N (N_of_ascii c) in (n =? 39) || (n =? 34).

(** The replace of [searchMessages]: every quote character is removed. *)
Fixpoint strip_quotes (s : string) : string :=
  match s with
  | EmptyString => EmptyString
  | String c r =>
      if is_quote c then strip_quotes r else String c (strip_quotes r)
  end.

(** White space among the ASCII characters: tab, line feed, vertical
    tab, form feed, carriage return and space. *)
Definition is_space (c : ascii) : bool :=
  let n := Z.of_N (N_of_ascii c) in
  ((9 <=? n) && (n <=? 13)) || (n =? 32).

Fixpoint trim_start (s : string) : string :=
  match s with
  | String c r => if is_space c then trim_start r else s
  | EmptyString => EmptyString
  end.

(** [s.trim()]. *)
Definition trim (s : string) : string :=
  Slug.rev_string (trim_start (Slug.rev_string (trim_start s) "")) "".

(** SQLite's [LIKE]: [%] is any run of characters, [_] any one
    character, letters match without regard to case. *)
Fixpoint like (pat : string) : string -> bool :=
  match pat with
  | EmptyString => fun s => negb (Js.truthy s)
  | String "%" p =>
      let rest := like p in
      fix star (s : string) : bool :=
        rest s || match s with
                  | EmptyString => false
                  | String _ s' => star s'
                  end
  | String "_" p =>
      fun s => match s with
               | EmptyString => false
               | String _ s' => like p s'
               end
  | String c p =>
      fun s => match s with
               | EmptyString => false
               | String d s' =>
                   Ascii.eqb (Js.lower_char c) (Js.lower_char d)
                   && like p s'
               end
  end.

Section Search.

(** The full-text statement of [searchMessages] (FTS5 [MATCH] ranked by
    [bm25], for a term, a project id and a limit): its rows, or [None]
    when the statement throws.  The index is SQLite's, not the
    repository's. *)
Variable fts_match : string -> Z -> Z -> Store -> option (list MessageWithSender).

Definition searchMessages (query : SearchQuery)
  : M (list MessageWithSender) :=
  project <- getProject (sq_projectSlug query) ;;
  fun s =>
    let limit := or_default (sq_limit query) 20 in
    let searchTerm := trim (strip_quotes (sq_query query)) in
    if negb (Js.truthy searchTerm) then (Ok [], s)
    else
      match fts_match searchTerm (p_id project) limit s with
      | Some messages => (Ok messages, s)
      | None =>
          let likePattern := "%" ++ searchTerm ++ "%" in
          (Ok (sql_limit limit
                 (order_by_desc (fun r => m_created_ts (mws_message r))
                    (with_sender
                       (fun m => (m_project_id m =? p_id project)
                                 && (like likePattern (m_subject m)
                                     || like likePattern (m_body_md m)))
                       s))), s)
      end.

End Search.

(** ** Character classes of slugs *)

Fixpoint all_chars (p : ascii -> bool) (s : string) : bool :=
  match s with
  | EmptyString => true
  | String c r => p c && all_chars p r
  end.

(** The characters of a slug: [a-z], [0-9] and the hyphen. *)
Definition slug_char (c : ascii) : bool :=
  Slug.is_alnum c || Ascii.eqb c "-".

(** ** The keys of the schema (src/db.ts)

    [PRIMARY KEY] and [UNIQUE] constraints besides those of [Inv]. *)

(** [UNIQUE(project_id, name)] of agents. *)
Definition agent_key (a : Agent) : Z * string :=
  (a_project_id a, a_name a).

(** [PRIMARY KEY (message_id, agent_id)] of message_recipients. *)
Definition recipient_key (mr : MessageRecipient) : Z * Z :=
  (mr_message_id mr, mr_agent_id mr).

Record SchemaKeys (s : Store) : Prop := {
  key_project_id : NoDup (map p_id (projects s));
  key_project_human_key : NoDup (map p_human_key (projects s));
  key_agent_name : NoDup (map agent_key (agents s));
  key_recipient : NoDup (map recipient_key (message_recipients s));
  key_reservation_id : NoDup (map fr_id (file_reservations s)) }.

(** ** The scenario, continued

    A minute after the first message AmberFox sends the broadcast:
    JadeWolf then has two messages. *)
Module Later.

Definition t1 : Z := Scenario.t0 + 60000.

Definition s_two : Store :=
  Eval vm_compute in snd (sendMessage t1 Scenario.broadcast Scenario.s_sent).

(** JadeWolf's inbox, unread messages only. *)
Definition jade_unread : InboxQuery :=
  {| iq_projectSlug := "/repo"; iq_agentName := "JadeWolf";
     iq_limit := None; iq_urgent := None; iq_unread := Some true;
     iq_since := None |}.



End Later.

(** ** The calendar, by parts

    The steps of [Clock.civil_from_days] under their names, and the rank
    of a date: dates follow each other as their ranks do. *)
Module Calendar.






End Calendar.

(** ** The overlap heuristic as the specification words it

    "Strip glob wildcard markers, then declare overlap if either
    normalized pattern is a prefix of the other, or if their parent
    directories are in a prefix relationship, or if the raw patterns are
    textually identical."  Written from these words, for comparison with
    [patternsOverlap]. *)
Module Documented.










End Documented.

(** ** Two files at the top of the tree

    AmberFox reserves [a.ts], JadeWolf then asks for [b.ts]. *)
Module TopLevel.



End TopLevel.

(** * Properties *)

(** ** Lists, lookups and updates *)

Lemma find_map_stable {A} (p : A -> bool) (f : A -> A) (l : list A) :
  (forall a, p (f a) = p a) ->
  find p (map f l) = option_map f (find p l).
Proof.
  intros Hp. induction l as [|a l IH]; simpl; [reflexivity|].
  rewrite Hp. destruct (p a); [reflexivity|exact IH].
Qed.

Lemma find_update_where {A} (p w : A -> bool) (f : A -> A) (l : list A) :
  (forall a, p (f a) = p a) ->
  find p (update_where w f l)
  = option_map (fun a => if w a then f a else a) (find p l).
Proof.
  intros Hp. unfold update_where. apply find_map_stable.
  intros a. destruct (w a); [apply Hp|reflexivity].
Qed.

Lemma find_app_none {A} (p : A -> bool) (l1 l2 : list A) :
  find p l1 = None -> find p (l1 ++ l2)%list = find p l2.
Proof.
  induction l1 as [|a l1 IH]; simpl; [reflexivity|].
  destruct (p a); [discriminate|exact IH].
Qed.

Lemma find_app_some {A} (p : A -> bool) (l1 l2 : list A) (x : A) :
  find p l1 = Some x -> find p (l1 ++ l2)%list = Some x.
Proof.
  induction l1 as [|a l1 IH]; simpl; [discriminate|].
  destruct (p a); [trivial|exact IH].
Qed.

Lemma find_none_iff {A} (p : A -> bool) (l : list A) :
  find p l = None <-> forall a, In a l -> p a = false.
Proof.
  split.
  - intros H a Ha. exact (find_none p l H a Ha).
  - induction l as [|a l IH]; simpl; intros H; [reflexivity|].
    rewrite (H a (or_introl eq_refl)). apply IH. intros b Hb.
    apply H. right. exact Hb.
Qed.

Lemma existsb_false_find {A} (p : A -> bool) (l : list A) :
  find p l = None -> existsb p l = false.
Proof.
  induction l as [|a l IH]; simpl; [reflexivity|].
  destruct (p a); [discriminate|exact IH].
Qed.

Lemma max_ids_bound (ids : list Z) (x : Z) :
  In x ids -> x <= fold_right Z.max 0 ids.
Proof.
  induction ids as [|y ids IH]; simpl; [contradiction|].
  intros [->|H]; [lia|]. specialize (IH H). lia.
Qed.

Lemma next_rowid_fresh (ids : list Z) : ~ In (next_rowid ids) ids.
Proof.
  intros H. apply max_ids_bound in H. unfold next_rowid in H. lia.
Qed.

Lemma NoDup_snoc {A} (l : list A) (x : A) :
  NoDup l -> ~ In x l -> NoDup (l ++ [x])%list.
Proof.
  intros Hl Hx. induction Hl as [|y l Hy Hl IH]; simpl.
  - constructor; [intros []|constructor].
  - constructor.
    + rewrite in_app_iff. intros [H|[H|[]]]; [contradiction|].
      subst. apply Hx. left. reflexivity.
    + apply IH. intros H. apply Hx. right. exact H.
Qed.

Lemma map_update_where_key {A B} (key : A -> B) (w : A -> bool)
    (f : A -> A) (l : list A) :
  (forall a, key (f a) = key a) ->
  map key (update_where w f l) = map key l.
Proof.
  intros Hk. unfold update_where. rewrite map_map. apply map_ext.
  intros a. destruct (w a); [apply Hk|reflexivity].
Qed.

(** ** Resolution of projects and agents *)

Lemma getProject_store k s : snd (getProject k s) = s.
Proof.
  unfold getProject. destruct (find _ (projects s)); reflexivity.
Qed.

Lemma getProject_eq k s p :
  fst (getProject k s) = Ok p -> getProject k s = (Ok p, s).
Proof.
  intros H. rewrite (surjective_pairing (getProject k s)).
  rewrite H, getProject_store. reflexivity.
Qed.

Lemma getProject_in k s p :
  fst (getProject k s) = Ok p -> In p (projects s).
Proof.
  unfold getProject.
  destruct (find _ (projects s)) as [q|] eqn:E; simpl; intros H.
  - injection H as <-. exact (proj1 (find_some _ _ E)).
  - discriminate.
Qed.

(** [getProject] reads the projects table only. *)
Lemma getProject_same_projects k s1 s2 :
  projects s1 = projects s2 ->
  fst (getProject k s1) = fst (getProject k s2).
Proof.
  intros H. unfold getProject. rewrite H.
  destruct (find _ (projects s2)); reflexivity.
Qed.

Lemma getAgent_eq now k n s p a :
  fst (getProject k s) = Ok p ->
  find (agent_named (p_id p) n) (agents s) = Some a ->
  getAgent now k n s = (Ok a, touch now a s).
Proof.
  intros Hp Ha. unfold getAgent, bind.
  rewrite (getProject_eq _ _ _ Hp), Ha. reflexivity.
Qed.

Lemma getAgent_ok now k n s a :
  fst (getAgent now k n s) = Ok a ->
  exists p, fst (getProject k s) = Ok p
            /\ find (agent_named (p_id p) n) (agents s) = Some a
            /\ getAgent now k n s = (Ok a, touch now a s).
Proof.
  unfold getAgent, bind.
  destruct (getProject k s) as [[p|e] s0] eqn:Ep; simpl; [|discriminate].
  assert (s0 = s) by (rewrite <- (getProject_store k s), Ep; reflexivity).
  subst s0.
  destruct (find _ (agents s)) as [b|] eqn:Ea; simpl; [|discriminate].
  intros H. injection H as <-. exists p. auto.
Qed.

Lemma getAgent_err now k n s e :
  fst (getAgent now k n s) = Err e -> snd (getAgent now k n s) = s.
Proof.
  unfold getAgent, bind.
  destruct (getProject k s) as [[p|e'] s0] eqn:Ep; simpl.
  - assert (s0 = s) by (rewrite <- (getProject_store k s), Ep; reflexivity).
    subst s0. destruct (find _ (agents s)); simpl; [discriminate|trivial].
  - intros _. rewrite <- (getProject_store k s), Ep. reflexivity.
Qed.

Lemma agent_named_set_last_active pid n ts a :
  agent_named pid n (set_last_active ts a) = agent_named pid n a.
Proof. reflexivity. Qed.

Lemma projects_touch now a s : projects (touch now a s) = projects s.
Proof. reflexivity. Qed.

Lemma messages_touch now a s : messages (touch now a s) = messages s.
Proof. reflexivity. Qed.

Lemma recipients_touch now a s :
  message_recipients (touch now a s) = message_recipients s.
Proof. reflexivity. Qed.

Lemma reservations_touch now a s :
  file_reservations (touch now a s) = file_reservations s.
Proof. reflexivity. Qed.

(** A touch changes no identifier, project or name. *)
Lemma agent_ids_touch now a s :
  map a_id (agents (touch now a s)) = map a_id (agents s).
Proof.
  unfold touch; simpl. apply map_update_where_key. reflexivity.
Qed.

Lemma find_agent_touch now b s pid n :
  find (agent_named pid n) (agents (touch now b s))
  = option_map (fun a => if a_id a =? a_id b
                         then set_last_active (Clock.sqlite_datetime now) a
                         else a)
               (find (agent_named pid n) (agents s)).
Proof.
  unfold touch; simpl. apply find_update_where. reflexivity.
Qed.

Lemma getProject_touch now b k s :
  fst (getProject k (touch now b s)) = fst (getProject k s).
Proof. apply getProject_same_projects. reflexivity. Qed.

(** An agent that resolves before a touch resolves after it, to a row
    with the same identifier and name. *)
Lemma getAgent_after_touch now now' b k n s a :
  fst (getAgent now' k n s) = Ok a ->
  exists a', fst (getAgent now' k n (touch now b s)) = Ok a'
             /\ a_id a' = a_id a /\ a_name a' = a_name a
             /\ a_project_id a' = a_project_id a.
Proof.
  intros H. destruct (getAgent_ok _ _ _ _ _ H) as (p & Hp & Ha & _).
  pose proof (find_agent_touch now b s (p_id p) n) as Hf.
  rewrite Ha in Hf. simpl in Hf.
  rewrite <- (getProject_touch now b) in Hp.
  rewrite (getAgent_eq now' k n _ p _ Hp Hf). simpl.
  eexists. split; [reflexivity|].
  destruct (a_id a =? a_id b); auto.
Qed.

Lemma in_agents_touch now b s a :
  In a (agents s) ->
  exists a', In a' (agents (touch now b s))
             /\ a_id a' = a_id a /\ a_name a' = a_name a
             /\ a_project_id a' = a_project_id a.
Proof.
  intros H. unfold touch; simpl. unfold update_where.
  exists (if a_id a =? a_id b
          then set_last_active (Clock.sqlite_datetime now) a else a).
  split.
  - apply (in_map (fun r => if a_id r =? a_id b
                            then set_last_active (Clock.sqlite_datetime now) r
                            else r)) in H. exact H.
  - destruct (a_id a =? a_id b); auto.
Qed.

(** ** Reservation engine *)

Lemma createReservation_unfold now input s p a :
  fst (getProject (cr_projectSlug input) s) = Ok p ->
  fst (getAgent now (cr_projectSlug input) (cr_agentName input) s) = Ok a ->
  createReservation now input s
  = createReservation_for now input p a (touch now a s).
Proof.
  intros Hp Ha. unfold createReservation, bind.
  rewrite (getProject_eq _ _ _ Hp).
  destruct (getAgent_ok _ _ _ _ _ Ha) as (p' & _ & _ & ->).
  reflexivity.
Qed.

Lemma find_inserted_reservation (l : list FileReservation) row :
  fr_id row = next_rowid (map fr_id l) ->
  find (fun fr => fr_id fr =? next_rowid (map fr_id l)) (l ++ [row])%list
  = Some row.
Proof.
  intros Hid. rewrite find_app_none.
  - simpl. rewrite Hid, Z.eqb_refl. reflexivity.
  - apply find_none_iff. intros fr Hfr. apply Z.eqb_neq. intros E.
    apply (next_rowid_fresh (map fr_id l)). rewrite <- E.
    apply in_map. exact Hfr.
Qed.

Lemma createReservation_for_ok now input p a s :
  Clock.valid_time (now + or_default (cr_ttlSeconds input) 3600 * 1000)
  = true ->
  let row :=
    {| fr_id := next_rowid (map fr_id (file_reservations s));
       fr_project_id := p_id p;
       fr_agent_id := a_id a;
       fr_path_pattern := cr_pathPattern input;
       fr_exclusive := if or_default (cr_exclusive input) true
                       then 1 else 0;
       fr_reason := or_default (cr_reason input) "";
       fr_created_ts := Clock.sqlite_datetime now;
       fr_expires_ts :=
         Clock.iso_format
           (now + or_default (cr_ttlSeconds input) 3600 * 1000);
       fr_released_ts := None |} in
  createReservation_for now input p a s
  = (Ok {| granted := [row];
           conflicts := find_conflicts now p a (cr_pathPattern input) s |},
     set_file_reservations s (file_reservations s ++ [row])%list).
Proof.
  intros Hv row. unfold createReservation_for, Clock.toISOString.
  rewrite Hv. cbv zeta. simpl file_reservations.
  rewrite find_inserted_reservation by reflexivity. reflexivity.
Qed.

(** C1. [createReservation] never fails because of conflicts: when the
    project and the agent resolve (and the expiry is a time a Date can
    hold), the call returns success with one granted row, appended to the
    table under a fresh id, whose [expires_ts] is the ISO text of
    [now + ttlSeconds] (3600 seconds when [ttlSeconds] is absent), and the
    conflict scan is carried as data of that success; the outcome is a
    success whatever the reservations table holds. *)
Theorem createReservation_never_fails_on_conflicts :
  forall now input s p a,
    fst (getProject (cr_projectSlug input) s) = Ok p ->
    fst (getAgent now (cr_projectSlug input) (cr_agentName input) s)
    = Ok a ->
    Clock.valid_time (now + or_default (cr_ttlSeconds input) 3600 * 1000)
    = true ->
    (exists row s',
        createReservation now input s
        = (Ok {| granted := [row];
                 conflicts := find_conflicts now p a (cr_pathPattern input)
                                (touch now a s) |}, s')
        /\ file_reservations s' = (file_reservations s ++ [row])%list
        /\ ~ In (fr_id row) (map fr_id (file_reservations s))
        /\ fr_project_id row = p_id p
        /\ fr_agent_id row = a_id a
        /\ fr_path_pattern row = cr_pathPattern input
        /\ fr_released_ts row = None
        /\ fr_expires_ts row
           = Clock.iso_format
               (now + match cr_ttlSeconds input with
                      | Some ttl => ttl
                      | None => 3600
                      end * 1000))
    /\ (forall rows,
           is_ok (fst (createReservation now input
                         (set_file_reservations s rows))) = true).
Proof.
  intros now input s p a Hp Ha Hv. split.
  - rewrite (createReservation_unfold _ _ _ _ _ Hp Ha).
    rewrite (createReservation_for_ok _ _ _ _ _ Hv).
    eexists. eexists. split; [reflexivity|]. simpl.
    repeat split; try reflexivity. apply next_rowid_fresh.
  - intros rows.
    assert (Hp' : fst (getProject (cr_projectSlug input)
                         (set_file_reservations s rows)) = Ok p).
    { rewrite <- Hp. apply getProject_same_projects. reflexivity. }
    destruct (getAgent_ok _ _ _ _ _ Ha) as (p0 & Hp0 & Hf & _).
    assert (Ha' : fst (getAgent now (cr_projectSlug input)
                         (cr_agentName input)
                         (set_file_reservations s rows)) = Ok a).
    { assert (p0 = p) by congruence. subst p0.
      rewrite (getAgent_eq now _ _ _ p a Hp'); [reflexivity|exact Hf]. }
    rewrite (createReservation_unfold _ _ _ _ _ Hp' Ha').
    rewrite (createReservation_for_ok _ _ _ _ _ Hv). reflexivity.
Qed.

(** The scenario of the specification: JadeWolf's request on
    [src/auth/login.go], one second after AmberFox reserved
    [src/auth/**], succeeds and names AmberFox's reservation. *)
Lemma createReservation_never_fails_on_conflicts_witness :
  exists row s',
    createReservation (Scenario.t0 + 1000) Scenario.jade_login
      Scenario.s_reserved
    = (Ok {| granted := [row];
             conflicts :=
               [{| rc_id := 1; rc_agent_name := "AmberFox";
                   rc_path_pattern := "src/auth/**";
                   rc_expires_ts := "2026-11-02T05:01:00.000Z";
                   rc_reason := "" |}] |}, s')
    /\ fr_expires_ts row = "2026-11-02T06:00:01.000Z".
Proof.
  assert (Hp : fst (getProject (cr_projectSlug Scenario.jade_login)
                      Scenario.s_reserved) = Ok Scenario.repo)
    by (vm_compute; reflexivity).
  assert (Ha : fst (getAgent (Scenario.t0 + 1000)
                      (cr_projectSlug Scenario.jade_login)
                      (cr_agentName Scenario.jade_login)
                      Scenario.s_reserved) = Ok Scenario.jade)
    by (vm_compute; reflexivity).
  assert (Hv : Clock.valid_time
                 (Scenario.t0 + 1000
                  + or_default (cr_ttlSeconds Scenario.jade_login) 3600
                    * 1000) = true)
    by (vm_compute; reflexivity).
  destruct (createReservation_never_fails_on_conflicts
              (Scenario.t0 + 1000) Scenario.jade_login Scenario.s_reserved
              Scenario.repo Scenario.jade Hp Ha Hv)
    as [(row & s' & Hc & _ & _ & _ & _ & _ & _ & He) _].
  exists row, s'. split.
  - rewrite Hc. vm_compute. reflexivity.
  - rewrite He. vm_compute. reflexivity.
Defined.

Lemma getAgent_same_tables now now' k n s1 s2 :
  projects s1 = projects s2 -> agents s1 = agents s2 ->
  fst (getAgent now k n s1) = fst (getAgent now' k n s2).
Proof.
  intros Hp Ha. unfold getAgent, bind.
  pose proof (getProject_same_projects k s1 s2 Hp) as H.
  pose proof (getProject_store k s1) as H1.
  pose proof (getProject_store k s2) as H2.
  destruct (getProject k s1) as [r1 t1], (getProject k s2) as [r2 t2].
  simpl in *. subst. destruct r2 as [p|e]; [|reflexivity].
  rewrite Ha. destruct (find _ (agents s2)); reflexivity.
Qed.

Lemma patternsOverlap_sym (a b : string) :
  patternsOverlap a b = patternsOverlap b a.
Proof.
  unfold patternsOverlap.
  rewrite (orb_comm (Js.startsWith (normalize a) (normalize b))).
  destruct (Js.startsWith (normalize b) (normalize a)
            || Js.startsWith (normalize a) (normalize b)); [reflexivity|].
  rewrite (andb_comm (Js.truthy (dir_of (normalize a)))).
  rewrite (orb_comm (Js.startsWith (dir_of (normalize a))
                                   (dir_of (normalize b)))).
  destruct (Js.truthy (dir_of (normalize b))
            && Js.truthy (dir_of (normalize a))
            && (Js.startsWith (dir_of (normalize b)) (dir_of (normalize a))
                || Js.startsWith (dir_of (normalize a))
                                 (dir_of (normalize b)))); [reflexivity|].
  apply String.eqb_sym.
Qed.



(** C2, at the input of the specification's scenario.  AmberFox's
    reservation was created at 05:00:00 with a TTL of 60 seconds and never
    released; 61 seconds later the clock reads 05:01:01, past the expiry
    05:01:00, and the active listing still returns the reservation: the
    expiry is stored as [2026-11-02T05:01:00.000Z], [datetime('now')] is
    [2026-11-02 05:01:01], and the text comparison is settled by ['T']
    against the space. *)
Theorem expired_reservation_still_listed :
  snd (createReservation Scenario.t0 Scenario.amber_auth Scenario.s_agents)
  = Scenario.s_reserved
  /\ Clock.sqlite_datetime (Scenario.t0 + 61000) = "2026-11-02 05:01:01"
  /\ fst (listReservations (Scenario.t0 + 61000)
            {| lq_projectSlug := "/repo"; lq_active := Some true |}
            Scenario.s_reserved)
     = Ok [{| rwa_row := Scenario.amber_row; rwa_agent_name := "AmberFox" |}].
Proof. repeat split; vm_compute; reflexivity. Qed.

(** The listing drops the reservation only once the UTC date has moved
    past the date of the expiry. *)
Example expired_reservation_listed_until_midnight :
  fst (listReservations (Scenario.t0 + 68399000)
         {| lq_projectSlug := "/repo"; lq_active := Some true |}
         Scenario.s_reserved)
  = Ok [{| rwa_row := Scenario.amber_row; rwa_agent_name := "AmberFox" |}]
  /\ fst (listReservations (Scenario.t0 + 68400000)
            {| lq_projectSlug := "/repo"; lq_active := Some true |}
            Scenario.s_reserved)
     = Ok [].
Proof. split; vm_compute; reflexivity. Qed.

Lemma releaseReservations_unfold now input s p a :
  fst (getProject (rl_projectSlug input) s) = Ok p ->
  fst (getAgent now (rl_projectSlug input) (rl_agentName input) s) = Ok a ->
  releaseReservations now input s
  = releaseReservations_for now input p a (touch now a s).
Proof.
  intros Hp Ha. unfold releaseReservations, bind.
  rewrite (getProject_eq _ _ _ Hp).
  destruct (getAgent_ok _ _ _ _ _ Ha) as (p' & _ & _ & ->).
  reflexivity.
Qed.

Lemma update_where_Forall2 {A} (w : A -> bool) (f : A -> A) (l : list A) :
  Forall2 (fun old new => if w old then new = f old else new = old)
          l (update_where w f l).
Proof.
  induction l as [|x l IH]; simpl; constructor; [|exact IH].
  destruct (w x); reflexivity.
Qed.

Lemma update_where_none {A} (w : A -> bool) (f : A -> A) (l : list A) :
  (forall x, In x l -> w x = false) -> update_where w f l = l.
Proof.
  intros H. induction l as [|x l IH]; simpl; [reflexivity|].
  rewrite (H x (or_introl eq_refl)). f_equal. apply IH.
  intros y Hy. apply H. right. exact Hy.
Qed.

Lemma filter_none {A} (w : A -> bool) (l : list A) :
  (forall x, In x l -> w x = false) -> filter w l = [].
Proof.
  intros H. induction l as [|x l IH]; simpl; [reflexivity|].
  rewrite (H x (or_introl eq_refl)). apply IH.
  intros y Hy. apply H. right. exact Hy.
Qed.






(** ** Message engine: read and acknowledge *)

Lemma truthy_iso_format ms : Js.truthy (Clock.iso_format ms) = true.
Proof.
  unfold Clock.iso_format.
  destruct (Clock.civil_from_days (ms / Clock.ms_per_day)) as [[y m] d].
  destruct (Clock.iso_year y); reflexivity.
Qed.

Lemma markRead_unfold now k n mid s a :
  fst (getAgent now k n s) = Ok a ->
  markRead now k n mid s = markRead_for now a mid (touch now a s).
Proof.
  intros Ha. unfold markRead, bind.
  destruct (getAgent_ok _ _ _ _ _ Ha) as (p & _ & _ & ->). reflexivity.
Qed.

Lemma acknowledge_unfold now k n mid s a :
  fst (getAgent now k n s) = Ok a ->
  acknowledge now k n mid s = acknowledge_for now a mid (touch now a s).
Proof.
  intros Ha. unfold acknowledge, bind.
  destruct (getAgent_ok _ _ _ _ _ Ha) as (p & _ & _ & ->). reflexivity.
Qed.

(** A row whose [read_ts] is set: [markRead] returns it and writes
    nothing. *)
Lemma markRead_for_already_read now a mid s mr ts :
  find (recipient_row mid (a_id a)) (message_recipients s) = Some mr ->
  mr_read_ts mr = Some ts -> Js.truthy ts = true ->
  markRead_for now a mid s = (Ok {| read := true; readAt := ts |}, s).
Proof.
  intros Hf Hr Ht. unfold markRead_for. rewrite Hf, Hr. simpl.
  rewrite Ht. reflexivity.
Qed.

Lemma find_recipient_updated mid aid f l mr :
  (forall r, recipient_row mid aid (f r) = recipient_row mid aid r) ->
  find (recipient_row mid aid) l = Some mr ->
  find (recipient_row mid aid) (update_where (recipient_row mid aid) f l)
  = Some (f mr).
Proof.
  intros Hk Hf. rewrite (find_update_where _ _ _ _ Hk), Hf. simpl.
  rewrite (proj2 (find_some _ _ Hf)). reflexivity.
Qed.

(** C7. For a (message, agent) pair that has a recipient row, [markRead]
    called twice, at any two clock values, returns [read = true] with the
    same [readAt] both times; that value is the [read_ts] the row already
    had, or else the time of the first call; it is what the row holds
    after the first call, and the second call writes nothing. *)
Theorem markRead_write_once :
  forall now1 now2 k n mid s a mr,
    fst (getAgent now1 k n s) = Ok a ->
    find (recipient_row mid (a_id a)) (message_recipients s) = Some mr ->
    exists ts s1 s2,
      markRead now1 k n mid s = (Ok {| read := true; readAt := ts |}, s1)
      /\ markRead now2 k n mid s1
         = (Ok {| read := true; readAt := ts |}, s2)
      /\ message_recipients s2 = message_recipients s1
      /\ option_map mr_read_ts
           (find (recipient_row mid (a_id a)) (message_recipients s1))
         = Some (Some ts)
      /\ ts = (if Js.truthy_opt (mr_read_ts mr)
               then or_default (mr_read_ts mr) ""
               else Clock.iso_format now1).
Proof.
  intros now1 now2 k n mid s a mr Ha Hf.
  destruct (getAgent_after_touch now1 now2 a k n s a) as (a' & Ha' & Hid & _).
  { rewrite <- Ha. apply getAgent_same_tables; reflexivity. }
  destruct (Js.truthy_opt (mr_read_ts mr)) eqn:Ht.
  - destruct (mr_read_ts mr) as [ts|] eqn:Hr; [|discriminate].
    simpl in Ht.
    exists ts, (touch now1 a s), (touch now2 a' (touch now1 a s)).
    split; [|split; [|split; [|split]]].
    + rewrite (markRead_unfold now1 k n mid s a Ha).
      apply (markRead_for_already_read now1 a mid _ mr ts); assumption.
    + rewrite (markRead_unfold now2 k n mid _ a' Ha').
      apply (markRead_for_already_read now2 a' mid _ mr ts);
        [rewrite Hid; exact Hf|exact Hr|exact Ht].
    + reflexivity.
    + simpl. rewrite Hf. simpl. rewrite Hr. reflexivity.
    + reflexivity.
  - set (s1 := set_message_recipients (touch now1 a s)
                 (update_where (recipient_row mid (a_id a))
                    (set_read (Clock.iso_format now1))
                    (message_recipients s))).
    assert (Hf1 : find (recipient_row mid (a_id a)) (message_recipients s1)
                  = Some (set_read (Clock.iso_format now1) mr)).
    { apply find_recipient_updated; [reflexivity|exact Hf]. }
    assert (Ha1 : fst (getAgent now2 k n s1) = Ok a').
    { rewrite <- Ha'. apply getAgent_same_tables; reflexivity. }
    exists (Clock.iso_format now1), s1, (touch now2 a' s1).
    split; [|split; [|split; [|split]]].
    + rewrite (markRead_unfold now1 k n mid s a Ha).
      unfold markRead_for. simpl message_recipients. rewrite Hf, Ht.
      reflexivity.
    + rewrite (markRead_unfold now2 k n mid s1 a' Ha1).
      apply (markRead_for_already_read now2 a' mid _
               (set_read (Clock.iso_format now1) mr) (Clock.iso_format now1));
        [rewrite Hid; exact Hf1|reflexivity|apply truthy_iso_format].
    + reflexivity.
    + rewrite Hf1. reflexivity.
    + reflexivity.
Qed.

Lemma markRead_write_once_witness :
  exists s1 s2,
    markRead (Scenario.t0 + 5000) "/repo" "JadeWolf" 1 Scenario.s_sent
    = (Ok {| read := true; readAt := "2026-11-02T05:00:05.000Z" |}, s1)
    /\ markRead (Scenario.t0 + 9000) "/repo" "JadeWolf" 1 s1
       = (Ok {| read := true; readAt := "2026-11-02T05:00:05.000Z" |}, s2)
    /\ message_recipients s2 = message_recipients s1.
Proof.
  assert (Ha : fst (getAgent (Scenario.t0 + 5000) "/repo" "JadeWolf"
                      Scenario.s_sent) = Ok Scenario.jade)
    by (vm_compute; reflexivity).
  assert (Hf : find (recipient_row 1 (a_id Scenario.jade))
                 (message_recipients Scenario.s_sent)
               = Some Scenario.jade_recipient)
    by (vm_compute; reflexivity).
  destruct (markRead_write_once (Scenario.t0 + 5000) (Scenario.t0 + 9000)
              "/repo" "JadeWolf" 1 Scenario.s_sent
              Scenario.jade Scenario.jade_recipient Ha Hf)
    as (ts & s1 & s2 & H1 & H2 & H3 & _ & Hts).
  assert (Hts' : ts = "2026-11-02T05:00:05.000Z")
    by (rewrite Hts; vm_compute; reflexivity).
  rewrite Hts' in H1, H2. exists s1, s2. auto.
Defined.

Lemma acknowledge_for_eq now a mid s mr :
  find (recipient_row mid (a_id a)) (message_recipients s) = Some mr ->
  acknowledge_for now a mid s
  = (Ok {| acknowledged := true;
           ackAt := Some (Clock.iso_format now);
           ack_readAt := coalesce (mr_read_ts mr) (Clock.iso_format now) |},
     set_message_recipients s
       (update_where (recipient_row mid (a_id a))
          (set_ack (Clock.iso_format now)) (message_recipients s))).
Proof.
  intros Hf. unfold acknowledge_for. rewrite Hf. simpl message_recipients.
  rewrite (find_recipient_updated mid (a_id a)
             (set_ack (Clock.iso_format now)) _ mr (fun _ => eq_refl) Hf).
  reflexivity.
Qed.

(** C8, as the code has it.  [acknowledge] sets [read_ts] to the time of
    the acknowledgment when it was NULL and leaves a [read_ts] already set
    as it is, so a second call returns the [readAt] of the first; [ack_ts]
    is written on every call, so each call returns its own time as
    [ackAt]. *)
Theorem acknowledge_keeps_read_overwrites_ack :
  forall now1 now2 k n mid s a mr,
    fst (getAgent now1 k n s) = Ok a ->
    find (recipient_row mid (a_id a)) (message_recipients s) = Some mr ->
    exists s1 s2,
      acknowledge now1 k n mid s
      = (Ok {| acknowledged := true;
               ackAt := Some (Clock.iso_format now1);
               ack_readAt := match mr_read_ts mr with
                             | Some ts => Some ts
                             | None => Some (Clock.iso_format now1)
                             end |}, s1)
      /\ acknowledge now2 k n mid s1
         = (Ok {| acknowledged := true;
                  ackAt := Some (Clock.iso_format now2);
                  ack_readAt := match mr_read_ts mr with
                                | Some ts => Some ts
                                | None => Some (Clock.iso_format now1)
                                end |}, s2)
      /\ option_map mr_read_ts
           (find (recipient_row mid (a_id a)) (message_recipients s2))
         = Some (match mr_read_ts mr with
                 | Some ts => Some ts
                 | None => Some (Clock.iso_format now1)
                 end)
      /\ option_map mr_ack_ts
           (find (recipient_row mid (a_id a)) (message_recipients s2))
         = Some (Some (Clock.iso_format now2)).
Proof.
  intros now1 now2 k n mid s a mr Ha Hf.
  set (s1 := set_message_recipients (touch now1 a s)
               (update_where (recipient_row mid (a_id a))
                  (set_ack (Clock.iso_format now1)) (message_recipients s))).
  destruct (getAgent_after_touch now1 now2 a k n s a) as (a' & Ha' & Hid & _).
  { rewrite <- Ha. apply getAgent_same_tables; reflexivity. }
  assert (Ha1 : fst (getAgent now2 k n s1) = Ok a').
  { rewrite <- Ha'. apply getAgent_same_tables; reflexivity. }
  assert (Hf1 : find (recipient_row mid (a_id a')) (message_recipients s1)
                = Some (set_ack (Clock.iso_format now1) mr)).
  { rewrite Hid. apply find_recipient_updated; [reflexivity|exact Hf]. }
  set (s2 := set_message_recipients (touch now2 a' s1)
               (update_where (recipient_row mid (a_id a'))
                  (set_ack (Clock.iso_format now2)) (message_recipients s1))).
  assert (Hf2 : find (recipient_row mid (a_id a)) (message_recipients s2)
                = Some (set_ack (Clock.iso_format now2)
                          (set_ack (Clock.iso_format now1) mr))).
  { rewrite <- Hid.
    apply find_recipient_updated; [reflexivity|exact Hf1]. }
  exists s1, s2. split; [|split; [|split]].
  - rewrite (acknowledge_unfold now1 k n mid s a Ha).
    rewrite (acknowledge_for_eq now1 a mid (touch now1 a s) mr Hf).
    unfold coalesce. destruct (mr_read_ts mr); reflexivity.
  - rewrite (acknowledge_unfold now2 k n mid s1 a' Ha1).
    rewrite (acknowledge_for_eq now2 a' mid (touch now2 a' s1) _ Hf1).
    simpl. unfold coalesce. destruct (mr_read_ts mr); reflexivity.
  - rewrite Hf2. simpl. unfold coalesce.
    destruct (mr_read_ts mr); reflexivity.
  - rewrite Hf2. reflexivity.
Qed.

Lemma acknowledge_keeps_read_overwrites_ack_witness :
  exists s1 s2,
    acknowledge (Scenario.t0 + 5000) "/repo" "JadeWolf" 1 Scenario.s_sent
    = (Ok {| acknowledged := true;
             ackAt := Some "2026-11-02T05:00:05.000Z";
             ack_readAt := Some "2026-11-02T05:00:05.000Z" |}, s1)
    /\ acknowledge (Scenario.t0 + 9000) "/repo" "JadeWolf" 1 s1
       = (Ok {| acknowledged := true;
                ackAt := Some "2026-11-02T05:00:09.000Z";
                ack_readAt := Some "2026-11-02T05:00:05.000Z" |}, s2).
Proof.
  assert (Ha : fst (getAgent (Scenario.t0 + 5000) "/repo" "JadeWolf"
                      Scenario.s_sent) = Ok Scenario.jade)
    by (vm_compute; reflexivity).
  assert (Hf : find (recipient_row 1 (a_id Scenario.jade))
                 (message_recipients Scenario.s_sent)
               = Some Scenario.jade_recipient)
    by (vm_compute; reflexivity).
  destruct (acknowledge_keeps_read_overwrites_ack
              (Scenario.t0 + 5000) (Scenario.t0 + 9000)
              "/repo" "JadeWolf" 1 Scenario.s_sent
              Scenario.jade Scenario.jade_recipient Ha Hf)
    as (s1 & s2 & H1 & H2 & _).
  exists s1, s2. split.
  - rewrite H1. vm_compute. reflexivity.
  - rewrite H2. vm_compute. reflexivity.
Defined.

(** Repeated acknowledgment does not return the first [ackAt]: four
    seconds later JadeWolf's second acknowledgment returns 05:00:09 where
    the first returned 05:00:05. *)
Lemma acknowledge_twice_changes_ackAt :
  ~ ack_is_write_once (Scenario.t0 + 5000) (Scenario.t0 + 9000)
      "/repo" "JadeWolf" 1 Scenario.s_sent.
Proof.
  intros H.
  set (c1 := acknowledge (Scenario.t0 + 5000) "/repo" "JadeWolf" 1
               Scenario.s_sent).
  assert (E1 : c1 = (fst c1, snd c1)) by apply surjective_pairing.
  set (c2 := acknowledge (Scenario.t0 + 9000) "/repo" "JadeWolf" 1 (snd c1)).
  assert (E2 : c2 = (fst c2, snd c2)) by apply surjective_pairing.
  assert (R1 : fst c1 = Ok {| acknowledged := true;
                              ackAt := Some "2026-11-02T05:00:05.000Z";
                              ack_readAt := Some "2026-11-02T05:00:05.000Z" |})
    by (vm_compute; reflexivity).
  assert (R2 : fst c2 = Ok {| acknowledged := true;
                              ackAt := Some "2026-11-02T05:00:09.000Z";
                              ack_readAt := Some "2026-11-02T05:00:05.000Z" |})
    by (vm_compute; reflexivity).
  rewrite R1 in E1. rewrite R2 in E2.
  specialize (H _ _ _ _ E1 E2). discriminate H.
Qed.

(** ** The invariant of reachable stores *)

Lemma only_touched_refl s : only_touched s s.
Proof. repeat split. Qed.

Lemma only_touched_trans s1 s2 s3 :
  only_touched s1 s2 -> only_touched s2 s3 -> only_touched s1 s3.
Proof.
  intros (A1 & A2 & A3 & A4 & A5) (B1 & B2 & B3 & B4 & B5).
  repeat split; congruence.
Qed.

Lemma only_touched_touch now a s : only_touched s (touch now a s).
Proof.
  repeat split. unfold touch; simpl.
  apply map_update_where_key. reflexivity.
Qed.

Lemma only_touched_agent_ids s s' :
  only_touched s s' -> map a_id (agents s') = map a_id (agents s).
Proof.
  intros (_ & H & _).
  apply (f_equal (map a_id)) in H. rewrite !map_map in H. exact H.
Qed.

Lemma getProject_only_touched k s : only_touched s (snd (getProject k s)).
Proof. rewrite getProject_store. apply only_touched_refl. Qed.

Lemma getAgent_only_touched now k n s :
  only_touched s (snd (getAgent now k n s)).
Proof.
  destruct (fst (getAgent now k n s)) as [a|e] eqn:E.
  - destruct (getAgent_ok _ _ _ _ _ E) as (p & _ & _ & ->).
    apply only_touched_touch.
  - rewrite (getAgent_err _ _ _ _ _ E). apply only_touched_refl.
Qed.

Lemma Inv_transfer s s' :
  projects s' = projects s ->
  map a_id (agents s') = map a_id (agents s) ->
  messages s' = messages s ->
  map mr_message_id (message_recipients s')
  = map mr_message_id (message_recipients s) ->
  Inv s -> Inv s'.
Proof.
  intros Hp Ha Hm Hr [I1 I2 I3 I4 I5 I6].
  constructor; rewrite ?Hp, ?Ha, ?Hm; auto.
  - intros mr Hmr.
    assert (In (mr_message_id mr) (map mr_message_id (message_recipients s)))
      as Hin by (rewrite <- Hr; apply in_map; exact Hmr).
    apply in_map_iff in Hin. destruct Hin as (mr0 & Heq & Hmr0).
    destruct (I5 mr0 Hmr0) as (m & Hin & Hid). exists m. split; congruence.
  - intros m Hin. destruct (I6 m Hin) as (mr & Hmr & Hid).
    assert (In (m_id m) (map mr_message_id (message_recipients s')))
      as Hin' by (rewrite Hr, <- Hid; apply in_map; exact Hmr).
    apply in_map_iff in Hin'. destruct Hin' as (mr' & Heq & Hmr').
    exists mr'. auto.
Qed.

Lemma Inv_only_touched s s' : only_touched s s' -> Inv s -> Inv s'.
Proof.
  intros H. pose proof (only_touched_agent_ids _ _ H) as Hids.
  destruct H as (H1 & _ & H3 & H4 & _).
  apply Inv_transfer; auto. rewrite H4. reflexivity.
Qed.

Lemma Inv_empty : Inv empty_store.
Proof.
  constructor; simpl; try constructor; intros ? [].
Qed.

Lemma Inv_set_file_reservations s rows :
  Inv s -> Inv (set_file_reservations s rows).
Proof. apply Inv_transfer; reflexivity. Qed.

Lemma existsb_false_forall {A} (p : A -> bool) (l : list A) :
  existsb p l = false -> forall x, In x l -> p x = false.
Proof.
  intros H x Hx. destruct (p x) eqn:E; [|reflexivity].
  assert (existsb p l = true) by (apply existsb_exists; eauto). congruence.
Qed.

Lemma Inv_ensureProject now k s : Inv s -> Inv (snd (ensureProject now k s)).
Proof.
  intros I. unfold ensureProject.
  destruct (find _ (projects s)); [exact I|].
  unfold ensureProject_create, insert_project.
  destruct (existsb (fun p => String.eqb (p_slug p) (Slug.projectSlug k))
              (projects s)) eqn:E1; [exact I|].
  destruct (existsb (fun p => String.eqb (p_human_key p) k) (projects s));
    [exact I|].
  set (s' := set_projects s _).
  assert (Inv s') as I'.
  { destruct I as [I1 I2 I3 I4 I5 I6]. constructor; auto; simpl.
    - rewrite map_app. simpl. apply NoDup_snoc; [exact I1|].
      intros Hin. apply in_map_iff in Hin. destruct Hin as (q & Hq & Hin).
      pose proof (existsb_false_forall _ _ E1 q Hin) as Hne. simpl in Hne.
      apply String.eqb_neq in Hne. contradiction.
    - intros p Hin. apply in_app_or in Hin. destruct Hin as [Hin|[<-|[]]].
      + apply I2. exact Hin.
      + reflexivity. }
  destruct (find _ (projects s')); exact I'.
Qed.

Lemma Inv_registerAgent_named now input p name s :
  Inv s -> Inv (snd (registerAgent_named now input p name s)).
Proof.
  intros I. unfold registerAgent_named.
  destruct (find (agent_named (p_id p) name) (agents s)) as [b|]; simpl.
  - apply (Inv_transfer s); auto. simpl.
    apply map_update_where_key. reflexivity.
  - destruct (existsb _ (agents s)); [exact I|].
    set (s1 := set_agents s _).
    assert (Inv s1) as I1.
    { destruct I as [I1 I2 I3 I4 I5 I6]. constructor; auto. simpl.
      rewrite map_app. simpl. apply NoDup_snoc; [exact I3|].
      apply next_rowid_fresh. }
    match goal with
    | |- Inv (snd match ?x with _ => _ end) => destruct x
    end; exact I1.
Qed.

Lemma Inv_registerAgent fuel rnd now input s r s' :
  registerAgent fuel rnd now input s = Some (r, s') -> Inv s -> Inv s'.
Proof.
  unfold registerAgent. intros H I.
  pose proof (getProject_store (reg_projectSlug input) s) as Hs.
  destruct (getProject (reg_projectSlug input) s) as [[p|e] s0];
    simpl in Hs; subst s0.
  - destruct (resolve_name _ _ _ _ _) as [name|]; [|discriminate].
    injection H as H. apply (f_equal snd) in H. simpl in H. subst s'.
    apply Inv_registerAgent_named. exact I.
  - injection H as _ <-. exact I.
Qed.

Lemma resolve_to_only_touched now k p sender to :
  forall acc s, only_touched s (snd (resolve_to now k p sender to acc s)).
Proof.
  induction to as [|name rest IH]; intros acc s; simpl.
  - apply only_touched_refl.
  - destruct (String.eqb (Js.toLowerCase name) "all"); [apply IH|].
    unfold bind.
    pose proof (getAgent_only_touched now k name s) as Ht.
    destruct (getAgent now k name s) as [[a|e] s0]; simpl in *.
    + eapply only_touched_trans; [exact Ht|apply IH].
    + exact Ht.
Qed.

Lemma resolve_cc_only_touched now k cc :
  forall acc s, only_touched s (snd (resolve_cc now k cc acc s)).
Proof.
  induction cc as [|name rest IH]; intros acc s; simpl.
  - apply only_touched_refl.
  - unfold bind.
    pose proof (getAgent_only_touched now k name s) as Ht.
    destruct (getAgent now k name s) as [[a|e] s0]; simpl in *.
    + eapply only_touched_trans; [exact Ht|apply IH].
    + exact Ht.
Qed.

(** The rows the recipient loop wrote: those of a prefix [done] of the
    recipients, all of them when the loop ends normally, and at least one
    when no row of the table carries the message id yet. *)
Lemma insert_recipients_shape mid rs :
  forall s,
  exists done rest,
    rs = (done ++ rest)%list
    /\ snd (insert_recipients mid rs s)
       = set_message_recipients s
           (message_recipients s ++ map (recipient_record mid) done)%list
    /\ (fst (insert_recipients mid rs s) = true -> rest = [])
    /\ (rs <> [] ->
        (forall mr, In mr (message_recipients s) -> mr_message_id mr <> mid) ->
        done <> []).
Proof.
  induction rs as [|r rs IH]; intros s; simpl.
  - exists [], []. repeat split; auto.
    + destruct s; simpl. rewrite app_nil_r. reflexivity.
  - unfold insert_recipient.
    destruct (existsb _ (message_recipients s)) eqn:E.
    + exists [], (r :: rs). repeat split; simpl; auto.
      * destruct s; simpl. rewrite app_nil_r. reflexivity.
      * discriminate.
      * intros _ Hfresh. apply existsb_exists in E.
        destruct E as (mr & Hin & Hk). apply andb_prop in Hk.
        destruct Hk as [Hk _]. apply Z.eqb_eq in Hk.
        exfalso. exact (Hfresh mr Hin Hk).
    + destruct (IH (set_message_recipients s
                      (message_recipients s ++ [recipient_record mid r])%list))
        as (done & rest & Hrs & Hsnd & Hfst & _).
      exists (r :: done), rest. repeat split.
      * simpl. f_equal. exact Hrs.
      * rewrite Hsnd. simpl. rewrite <- app_assoc. reflexivity.
      * exact Hfst.
      * discriminate.
Qed.

Lemma Inv_create_message now input p sender rs s :
  rs <> [] -> Inv s -> Inv (snd (create_message now input p sender rs s)).
Proof.
  intros Hne [I1 I2 I3 I4 I5 I6]. unfold create_message.
  set (mid := next_rowid (map m_id (messages s))).
  set (row := {| m_id := mid; m_project_id := _ |}).
  set (s1 := set_messages s (messages s ++ [row])%list).
  destruct (insert_recipients_shape mid rs s1)
    as (done & rest & Hrs & Hsnd & _ & Hdone).
  assert (Hfresh : forall mr, In mr (message_recipients s1) ->
                              mr_message_id mr <> mid).
  { intros mr Hin Heq. destruct (I5 mr Hin) as (m & Hm & Hid).
    apply (next_rowid_fresh (map m_id (messages s))).
    fold mid. rewrite <- Heq, <- Hid. apply in_map. exact Hm. }
  specialize (Hdone Hne Hfresh).
  assert (Inv (snd (insert_recipients mid rs s1))) as I.
  { rewrite Hsnd. constructor; simpl; auto.
    - rewrite map_app. simpl. apply NoDup_snoc; [exact I4|].
      apply next_rowid_fresh.
    - intros mr Hin. apply in_app_or in Hin. destruct Hin as [Hin|Hin].
      + destruct (I5 mr Hin) as (m & Hm & Hid). exists m. split; [|exact Hid].
        apply in_or_app. left. exact Hm.
      + apply in_map_iff in Hin. destruct Hin as (r & <- & _).
        exists row. split; [|reflexivity].
        apply in_or_app. right. left. reflexivity.
    - intros m Hin. apply in_app_or in Hin. destruct Hin as [Hin|[<-|[]]].
      + destruct (I6 m Hin) as (mr & Hmr & Hid). exists mr. split; [|exact Hid].
        apply in_or_app. left. exact Hmr.
      + destruct done as [|r done]; [contradiction|].
        exists (recipient_record mid r). split; [|reflexivity].
        apply in_or_app. right. left. reflexivity. }
  destruct (insert_recipients mid rs s1) as [[|] s2]; exact I.
Qed.

Lemma Inv_sendMessage now input s : Inv s -> Inv (snd (sendMessage now input s)).
Proof.
  intros I. unfold sendMessage, bind.
  pose proof (getProject_only_touched (sm_projectSlug input) s) as H1.
  destruct (getProject (sm_projectSlug input) s) as [[p|e] s1]; simpl in *;
    [|exact (Inv_only_touched _ _ H1 I)].
  apply (Inv_only_touched _ _ H1) in I. clear H1.
  pose proof (getAgent_only_touched now (sm_projectSlug input)
                (sm_sender input) s1) as H2.
  destruct (getAgent now (sm_projectSlug input) (sm_sender input) s1)
    as [[sender|e] s2]; simpl in *; [|exact (Inv_only_touched _ _ H2 I)].
  apply (Inv_only_touched _ _ H2) in I. clear H2.
  unfold sendMessage_for, bind.
  pose proof (resolve_to_only_touched now (sm_projectSlug input) p sender
                (sm_to input) [] s2) as H3.
  destruct (resolve_to now (sm_projectSlug input) p sender (sm_to input) [] s2)
    as [[rs|e] s3]; simpl in *; [|exact (Inv_only_touched _ _ H3 I)].
  apply (Inv_only_touched _ _ H3) in I. clear H3.
  pose proof (resolve_cc_only_touched now (sm_projectSlug input)
                (or_default (sm_cc input) []) rs s3) as H4.
  destruct (resolve_cc now (sm_projectSlug input)
              (or_default (sm_cc input) []) rs s3)
    as [[rcps|e] s4]; simpl in *; [|exact (Inv_only_touched _ _ H4 I)].
  apply (Inv_only_touched _ _ H4) in I. clear H4.
  destruct rcps as [|r rcps]; [exact I|].
  apply Inv_create_message; [discriminate|exact I].
Qed.

Lemma Inv_markRead now k n mid s : Inv s -> Inv (snd (markRead now k n mid s)).
Proof.
  intros I. unfold markRead, bind.
  pose proof (getAgent_only_touched now k n s) as H.
  destruct (getAgent now k n s) as [[a|e] s1]; simpl in *;
    [|exact (Inv_only_touched _ _ H I)].
  apply (Inv_only_touched _ _ H) in I. unfold markRead_for.
  destruct (find _ (message_recipients s1)) as [mr|]; [|exact I].
  destruct (if Js.truthy_opt (mr_read_ts mr) then mr_read_ts mr else None);
    [exact I|].
  simpl. apply (Inv_transfer s1); auto. simpl.
  apply map_update_where_key. reflexivity.
Qed.

Lemma Inv_acknowledge now k n mid s :
  Inv s -> Inv (snd (acknowledge now k n mid s)).
Proof.
  intros I. unfold acknowledge, bind.
  pose proof (getAgent_only_touched now k n s) as H.
  destruct (getAgent now k n s) as [[a|e] s1]; simpl in *;
    [|exact (Inv_only_touched _ _ H I)].
  apply (Inv_only_touched _ _ H) in I. unfold acknowledge_for.
  destruct (find _ (message_recipients s1)) as [mr|]; [|exact I].
  simpl. apply (Inv_transfer s1); auto. simpl.
  apply map_update_where_key. reflexivity.
Qed.

Lemma Inv_createReservation now input s :
  Inv s -> Inv (snd (createReservation now input s)).
Proof.
  intros I. unfold createReservation, bind.
  pose proof (getProject_only_touched (cr_projectSlug input) s) as H1.
  destruct (getProject (cr_projectSlug input) s) as [[p|e] s1]; simpl in *;
    [|exact (Inv_only_touched _ _ H1 I)].
  apply (Inv_only_touched _ _ H1) in I. clear H1.
  pose proof (getAgent_only_touched now (cr_projectSlug input)
                (cr_agentName input) s1) as H2.
  destruct (getAgent now (cr_projectSlug input) (cr_agentName input) s1)
    as [[a|e] s2]; simpl in *; [|exact (Inv_only_touched _ _ H2 I)].
  apply (Inv_only_touched _ _ H2) in I. clear H2.
  unfold createReservation_for.
  destruct (Clock.toISOString _); [|exact I].
  simpl. apply Inv_set_file_reservations. exact I.
Qed.

Lemma Inv_releaseReservations now input s :
  Inv s -> Inv (snd (releaseReservations now input s)).
Proof.
  intros I. unfold releaseReservations, bind.
  pose proof (getProject_only_touched (rl_projectSlug input) s) as H1.
  destruct (getProject (rl_projectSlug input) s) as [[p|e] s1]; simpl in *;
    [|exact (Inv_only_touched _ _ H1 I)].
  apply (Inv_only_touched _ _ H1) in I. clear H1.
  pose proof (getAgent_only_touched now (rl_projectSlug input)
                (rl_agentName input) s1) as H2.
  destruct (getAgent now (rl_projectSlug input) (rl_agentName input) s1)
    as [[a|e] s2]; simpl in *; [|exact (Inv_only_touched _ _ H2 I)].
  apply (Inv_only_touched _ _ H2) in I. clear H2.
  unfold releaseReservations_for.
  destruct (or_default (rl_all input) false).
  - simpl. apply Inv_set_file_reservations. exact I.
  - destruct (rl_pattern input) as [pat|]; [|exact I].
    destruct (Js.truthy pat); [|exact I].
    simpl. apply Inv_set_file_reservations. exact I.
Qed.

(** A DELETE keeps a key column free of duplicates. *)
Lemma NoDup_map_filter {A B} (key : A -> B) (keep : A -> bool)
    (rows : list A) :
  NoDup (map key rows) -> NoDup (map key (filter keep rows)).
Proof.
  intros Hnd. induction rows as [|x rows IH]; simpl; [constructor|].
  simpl in Hnd. inversion Hnd as [|? ? Hx Hrest]; subst.
  destruct (keep x); simpl; [|apply IH; exact Hrest].
  constructor; [|apply IH; exact Hrest].
  intros Hin. apply Hx. apply in_map_iff in Hin.
  destruct Hin as (y & Hy & Hin). apply in_map_iff. exists y.
  split; [exact Hy|]. apply filter_In in Hin. tauto.
Qed.

Lemma NoDup_map_inj_in {A B} (f : A -> B) (l : list A) (x y : A) :
  NoDup (map f l) -> In x l -> In y l -> f x = f y -> x = y.
Proof.
  induction l as [|z l IH]; simpl; intros H Hx Hy E; [contradiction|].
  inversion H as [|? ? Hz Hl]; subst.
  destruct Hx as [->|Hx], Hy as [->|Hy]; auto.
  - exfalso. apply Hz. rewrite E. apply in_map. exact Hy.
  - exfalso. apply Hz. rewrite <- E. apply in_map. exact Hx.
Qed.

Lemma Inv_runRetention now days s : Inv s -> Inv (snd (runRetention now days s)).
Proof.
  intros [I1 I2 I3 I4 I5 I6]. unfold runRetention. simpl.
  set (old := fun m => before_cutoff (m_created_ts m)
                         (cutoff_datetime now days)).
  constructor; simpl; auto.
  - apply NoDup_map_filter. exact I4.
  - intros mr Hin. apply filter_In in Hin. destruct Hin as [Hin Hkeep].
    destruct (I5 mr Hin) as (m & Hm & Hid). exists m. split; [|exact Hid].
    apply filter_In. split; [exact Hm|].
    destruct (old m) eqn:E; [|unfold old in E; rewrite E; reflexivity].
    exfalso.
    apply negb_true_iff in Hkeep.
    pose proof (existsb_false_forall _ _ Hkeep m) as Hf. simpl in Hf.
    rewrite Hid, Z.eqb_refl in Hf.
    assert (true = false); [|discriminate]. apply Hf.
    apply filter_In. split; [exact Hm|exact E].
  - intros m Hin. apply filter_In in Hin. destruct Hin as [Hm Hkeep].
    destruct (I6 m Hm) as (mr & Hmr & Hid). exists mr. split; [|exact Hid].
    apply filter_In. split; [exact Hmr|].
    apply negb_true_iff.
    destruct (existsb _ (filter old (messages s))) eqn:E; [|reflexivity].
    exfalso. apply existsb_exists in E. destruct E as (m' & Hin' & Heq).
    apply filter_In in Hin'. destruct Hin' as [Hm' Hold].
    apply Z.eqb_eq in Heq.
    assert (m' = m).
    { apply (NoDup_map_inj_in m_id (messages s)); auto. congruence. }
    subst m'. fold (old m) in Hkeep. rewrite Hold in Hkeep. discriminate.
Qed.

Lemma step_Inv s s' : step s s' -> Inv s -> Inv s'.
Proof.
  intros H I. destruct H as
    [now k s r s' E | fuel rnd now input s r s' E | now k n s r s' E
    | now input s r s' E | now k n mid s r s' E | now k n mid s r s' E
    | now input s r s' E | now input s r s' E | now days s r s' E].
  - replace s' with (snd (ensureProject now k s)) by (rewrite E; reflexivity).
    apply Inv_ensureProject. exact I.
  - exact (Inv_registerAgent _ _ _ _ _ _ _ E I).
  - replace s' with (snd (getAgent now k n s)) by (rewrite E; reflexivity).
    exact (Inv_only_touched _ _ (getAgent_only_touched now k n s) I).
  - replace s' with (snd (sendMessage now input s))
      by (rewrite E; reflexivity).
    apply Inv_sendMessage. exact I.
  - replace s' with (snd (markRead now k n mid s))
      by (rewrite E; reflexivity).
    apply Inv_markRead. exact I.
  - replace s' with (snd (acknowledge now k n mid s))
      by (rewrite E; reflexivity).
    apply Inv_acknowledge. exact I.
  - replace s' with (snd (createReservation now input s))
      by (rewrite E; reflexivity).
    apply Inv_createReservation. exact I.
  - replace s' with (snd (releaseReservations now input s))
      by (rewrite E; reflexivity).
    apply Inv_releaseReservations. exact I.
  - replace s' with (snd (runRetention now days s))
      by (rewrite E; reflexivity).
    apply Inv_runRetention. exact I.
Qed.

(** Every reachable store satisfies the invariant. *)
Lemma reachable_Inv s : reachable s -> Inv s.
Proof.
  induction 1 as [|s s' _ IH Hstep]; [exact Inv_empty|].
  exact (step_Inv _ _ Hstep IH).
Qed.


(** ** Message engine: sending *)

Lemma existsb_map_stable {A} (p : A -> bool) (f : A -> A) (l : list A) :
  (forall a, p (f a) = p a) -> existsb p (map f l) = existsb p l.
Proof.
  intros H. induction l as [|a l IH]; simpl; [reflexivity|].
  rewrite H, IH. reflexivity.
Qed.

Lemma existsb_ext_eq {A} (p q : A -> bool) (l : list A) :
  (forall a, p a = q a) -> existsb p l = existsb q l.
Proof.
  intros H. induction l as [|a l IH]; simpl; [reflexivity|].
  rewrite H, IH. reflexivity.
Qed.

Lemma find_none_existsb {A} (p : A -> bool) (l : list A) :
  find p l = None <-> existsb p l = false.
Proof.
  induction l as [|a l IH]; simpl; [tauto|].
  destruct (p a); simpl; [split; discriminate|exact IH].
Qed.

Lemma resolves_in_only_touched p s s' name :
  only_touched s s' -> resolves_in p s' name = resolves_in p s name.
Proof.
  intros (_ & H & _). unfold resolves_in.
  assert (E : existsb (agent_named (p_id p) name) (agents s')
              = existsb (agent_named (p_id p) name) (agents s)).
  { rewrite <- (existsb_map_stable _ erase_last_active (agents s'))
      by reflexivity.
    rewrite <- (existsb_map_stable _ erase_last_active (agents s))
      by reflexivity.
    rewrite H. reflexivity. }
  destruct (find _ (agents s')) eqn:E1, (find _ (agents s)) eqn:E2;
    try reflexivity.
  - apply find_none_existsb in E2. rewrite <- E, <- find_none_existsb in E2.
    congruence.
  - apply find_none_existsb in E1. rewrite E, <- find_none_existsb in E1.
    congruence.
Qed.

Lemma getProject_only_touched_eq k s s' :
  only_touched s s' -> fst (getProject k s') = fst (getProject k s).
Proof. intros (H & _). apply getProject_same_projects. exact H. Qed.

Lemma getAgent_outcome now k n s p :
  fst (getProject k s) = Ok p ->
  (resolves_in p s n = true /\ exists a, fst (getAgent now k n s) = Ok a)
  \/ (resolves_in p s n = false
      /\ exists e, getAgent now k n s = (Err e, s)
                   /\ err_type e = "AGENT_NOT_FOUND").
Proof.
  intros Hp. unfold getAgent, bind, resolves_in.
  rewrite (getProject_eq _ _ _ Hp).
  destruct (find _ (agents s)) as [a|].
  - left. split; [reflexivity|]. exists a. reflexivity.
  - right. split; [reflexivity|]. eexists. split; reflexivity.
Qed.

(** The loops over [to] and [cc] end with a list of recipients or with
    AGENT_NOT_FOUND, and an entry that names no agent forces the latter. *)
Lemma resolve_to_outcome now k p sender to :
  forall acc s,
    fst (getProject k s) = Ok p ->
    (exists rs, fst (resolve_to now k p sender to acc s) = Ok rs
                /\ existsb (fun name =>
                              negb (String.eqb (Js.toLowerCase name) "all")
                              && negb (resolves_in p s name)) to = false)
    \/ (exists e, fst (resolve_to now k p sender to acc s) = Err e
                  /\ err_type e = "AGENT_NOT_FOUND").
Proof.
  induction to as [|name rest IH]; intros acc s Hp; simpl.
  - left. exists acc. split; reflexivity.
  - destruct (String.eqb (Js.toLowerCase name) "all"); simpl.
    + apply IH. exact Hp.
    + unfold bind.
      destruct (getAgent_outcome now k name s p Hp)
        as [(Hr & a & Ha)|(Hr & e & He & Ht)].
      * destruct (getAgent_ok _ _ _ _ _ Ha) as (_ & _ & _ & ->).
        rewrite Hr. simpl.
        assert (Hp' : fst (getProject k (touch now a s)) = Ok p)
          by (rewrite getProject_touch; exact Hp).
        destruct (IH (acc ++ [recipient_of KTo a])%list _ Hp')
          as [(rs & Hrs & Hex)|H]; [|right; exact H].
        left. exists rs. split; [exact Hrs|].
        etransitivity; [|exact Hex]. apply existsb_ext_eq. intros x.
        rewrite (resolves_in_only_touched p s (touch now a s) x
                   (only_touched_touch now a s)).
        reflexivity.
      * rewrite He. right. exists e. split; [reflexivity|exact Ht].
Qed.

Lemma resolve_cc_outcome now k p cc :
  forall acc s,
    fst (getProject k s) = Ok p ->
    (exists rs, fst (resolve_cc now k cc acc s) = Ok rs
                /\ existsb (fun name => negb (resolves_in p s name)) cc
                   = false)
    \/ (exists e, fst (resolve_cc now k cc acc s) = Err e
                  /\ err_type e = "AGENT_NOT_FOUND").
Proof.
  induction cc as [|name rest IH]; intros acc s Hp; simpl.
  - left. exists acc. split; reflexivity.
  - unfold bind.
    destruct (getAgent_outcome now k name s p Hp)
      as [(Hr & a & Ha)|(Hr & e & He & Ht)].
    + destruct (getAgent_ok _ _ _ _ _ Ha) as (_ & _ & _ & ->).
      rewrite Hr. simpl.
      assert (Hp' : fst (getProject k (touch now a s)) = Ok p)
        by (rewrite getProject_touch; exact Hp).
      destruct (IH (acc ++ [recipient_of KCc a])%list _ Hp')
        as [(rs & Hrs & Hex)|H]; [|right; exact H].
      left. exists rs. split; [exact Hrs|].
      etransitivity; [|exact Hex]. apply existsb_ext_eq. intros x.
      rewrite (resolves_in_only_touched p s (touch now a s) x
                 (only_touched_touch now a s)).
      reflexivity.
    + rewrite He. right. exists e. split; [reflexivity|exact Ht].
Qed.

Lemma has_unresolved_only_touched p input s s' :
  only_touched s s' -> has_unresolved p input s' = has_unresolved p input s.
Proof.
  intros H. unfold has_unresolved. f_equal.
  - apply existsb_ext_eq. intros x.
    rewrite (resolves_in_only_touched p s s' x H). reflexivity.
  - apply existsb_ext_eq. intros x.
    rewrite (resolves_in_only_touched p s s' x H). reflexivity.
Qed.

Lemma sendMessage_for_unresolved now input p sender s :
  fst (getProject (sm_projectSlug input) s) = Ok p ->
  has_unresolved p input s = true ->
  exists e,
    fst (sendMessage_for now input p sender s) = Err e
    /\ err_type e = "AGENT_NOT_FOUND"
    /\ only_touched s (snd (sendMessage_for now input p sender s)).
Proof.
  intros Hp Hun. unfold sendMessage_for, bind.
  pose proof (resolve_to_only_touched now (sm_projectSlug input) p sender
                (sm_to input) [] s) as T1.
  destruct (resolve_to_outcome now (sm_projectSlug input) p sender
              (sm_to input) [] s Hp) as [(rs & Hrs & Hto)|(e & He & Ht)].
  - destruct (resolve_to now (sm_projectSlug input) p sender (sm_to input)
                [] s) as [r1 s1]. simpl in Hrs, T1. subst r1.
    assert (Hp1 : fst (getProject (sm_projectSlug input) s1) = Ok p)
      by (rewrite (getProject_only_touched_eq _ _ _ T1); exact Hp).
    pose proof (resolve_cc_only_touched now (sm_projectSlug input)
                  (or_default (sm_cc input) []) rs s1) as T2.
    destruct (resolve_cc_outcome now (sm_projectSlug input) p
                (or_default (sm_cc input) []) rs s1 Hp1)
      as [(rs' & _ & Hcc)|(e & He & Ht)].
    + exfalso. unfold has_unresolved in Hun. rewrite Hto in Hun.
      simpl in Hun.
      rewrite (existsb_ext_eq _
                 (fun name => negb (resolves_in p s1 name))) in Hun.
      * congruence.
      * intros x. rewrite (resolves_in_only_touched p s s1 x T1).
        reflexivity.
    + destruct (resolve_cc now (sm_projectSlug input)
                  (or_default (sm_cc input) []) rs s1) as [r2 s2].
      simpl in He, T2. subst r2. exists e. simpl.
      split; [reflexivity|]. split; [exact Ht|].
      exact (only_touched_trans _ _ _ T1 T2).
  - destruct (resolve_to now (sm_projectSlug input) p sender (sm_to input)
                [] s) as [r1 s1]. simpl in He, T1. subst r1.
    exists e. simpl. auto.
Qed.

(** C3, as the code has it.  From a reachable store: whatever the call
    returns, no message of the resulting store is without a recipient
    row; and when some entry of [to] (other than the broadcast alias) or
    of [cc] names no agent of the project, the call returns
    AGENT_NOT_FOUND and the resulting store differs from the initial one
    by [last_active_ts] stamps of agents only: no message row and no
    recipient row was created. *)
Theorem sendMessage_aborts_without_rows :
  forall now input s,
    reachable s ->
    no_message_without_recipient (snd (sendMessage now input s))
    /\ (forall p sender,
           fst (getProject (sm_projectSlug input) s) = Ok p ->
           fst (getAgent now (sm_projectSlug input) (sm_sender input) s)
           = Ok sender ->
           has_unresolved p input s = true ->
           exists e,
             fst (sendMessage now input s) = Err e
             /\ err_type e = "AGENT_NOT_FOUND"
             /\ only_touched s (snd (sendMessage now input s))
             /\ messages (snd (sendMessage now input s)) = messages s
             /\ message_recipients (snd (sendMessage now input s))
                = message_recipients s).
Proof.
  intros now input s Hreach. split.
  - exact (inv_message_recipient _
             (Inv_sendMessage now input s (reachable_Inv s Hreach))).
  - intros p sender Hp Hs Hun.
    unfold sendMessage, bind. rewrite (getProject_eq _ _ _ Hp).
    destruct (getAgent_ok _ _ _ _ _ Hs) as (p0 & _ & _ & ->).
    pose proof (only_touched_touch now sender s) as T0.
    assert (Hp' : fst (getProject (sm_projectSlug input)
                         (touch now sender s)) = Ok p)
      by (rewrite getProject_touch; exact Hp).
    assert (Hun' : has_unresolved p input (touch now sender s) = true)
      by (rewrite (has_unresolved_only_touched p input _ _ T0); exact Hun).
    destruct (sendMessage_for_unresolved now input p sender _ Hp' Hun')
      as (e & He & Ht & T1).
    exists e. split; [exact He|]. split; [exact Ht|].
    pose proof (only_touched_trans _ _ _ T0 T1) as T.
    split; [exact T|]. destruct T as (_ & _ & Hm & Hr & _). auto.
Qed.

Lemma step_of_ensureProject now k s s' :
  snd (ensureProject now k s) = s' -> step s s'.
Proof.
  intros <-. apply (step_ensureProject now k s (fst (ensureProject now k s))).
  apply surjective_pairing.
Qed.

Lemma step_of_registerAgent fuel rnd now input s s' :
  option_map snd (registerAgent fuel rnd now input s) = Some s' -> step s s'.
Proof.
  intros H. destruct (registerAgent fuel rnd now input s) as [[r s1]|] eqn:E;
    [|discriminate].
  injection H as <-. exact (step_registerAgent _ _ _ _ _ _ _ E).
Qed.

Lemma step_of_sendMessage now input s s' :
  snd (sendMessage now input s) = s' -> step s s'.
Proof.
  intros <-. apply (step_sendMessage now input s (fst (sendMessage now input s))).
  apply surjective_pairing.
Qed.

Lemma step_of_createReservation now input s s' :
  snd (createReservation now input s) = s' -> step s s'.
Proof.
  intros <-.
  apply (step_createReservation now input s
           (fst (createReservation now input s))).
  apply surjective_pairing.
Qed.

(** The stores of the scenario are reachable. *)
Lemma reachable_s_agents : reachable Scenario.s_agents.
Proof.
  apply (reachable_step Scenario.s_amber).
  - apply (reachable_step Scenario.s_project).
    + apply (reachable_step empty_store); [constructor|].
      apply (step_of_ensureProject Scenario.t0 "/repo").
      vm_compute. reflexivity.
    + apply (step_of_registerAgent 0 Scenario.rnd0 Scenario.t0
               (Scenario.reg "AmberFox")).
      vm_compute. reflexivity.
  - apply (step_of_registerAgent 0 Scenario.rnd0 Scenario.t0
             (Scenario.reg "JadeWolf")).
    vm_compute. reflexivity.
Qed.

Lemma reachable_s_sent : reachable Scenario.s_sent.
Proof.
  apply (reachable_step Scenario.s_agents); [exact reachable_s_agents|].
  apply (step_of_sendMessage Scenario.t0 Scenario.hello).
  vm_compute. reflexivity.
Qed.

Lemma reachable_s_reserved : reachable Scenario.s_reserved.
Proof.
  apply (reachable_step Scenario.s_agents); [exact reachable_s_agents|].
  apply (step_of_createReservation Scenario.t0 Scenario.amber_auth).
  vm_compute. reflexivity.
Qed.

Lemma sendMessage_aborts_without_rows_witness :
  no_message_without_recipient
    (snd (sendMessage (Scenario.t0 + 1000) Scenario.hello_ghost
            Scenario.s_agents))
  /\ exists e,
       fst (sendMessage (Scenario.t0 + 1000) Scenario.hello_ghost
              Scenario.s_agents) = Err e
       /\ err_type e = "AGENT_NOT_FOUND"
       /\ messages (snd (sendMessage (Scenario.t0 + 1000)
                           Scenario.hello_ghost Scenario.s_agents)) = []
       /\ message_recipients
            (snd (sendMessage (Scenario.t0 + 1000)
                    Scenario.hello_ghost Scenario.s_agents)) = [].
Proof.
  destruct (sendMessage_aborts_without_rows (Scenario.t0 + 1000)
              Scenario.hello_ghost Scenario.s_agents reachable_s_agents)
    as [H1 H2].
  split; [exact H1|].
  assert (Hp : fst (getProject (sm_projectSlug Scenario.hello_ghost)
                      Scenario.s_agents) = Ok Scenario.repo)
    by (vm_compute; reflexivity).
  assert (Hs : fst (getAgent (Scenario.t0 + 1000)
                      (sm_projectSlug Scenario.hello_ghost)
                      (sm_sender Scenario.hello_ghost) Scenario.s_agents)
               = Ok Scenario.amber)
    by (vm_compute; reflexivity).
  assert (Hun : has_unresolved Scenario.repo Scenario.hello_ghost
                  Scenario.s_agents = true)
    by (vm_compute; reflexivity).
  destruct (H2 Scenario.repo Scenario.amber Hp Hs Hun)
    as (e & He & Ht & _ & Hm & Hr).
  exists e. split; [exact He|]. split; [exact Ht|].
  split; [rewrite Hm|rewrite Hr]; reflexivity.
Defined.

(** The abort does not leave the store as it was: AmberFox was looked up
    as sender (and JadeWolf as first recipient) before GhostOwl failed to
    resolve, and each lookup stamped [last_active_ts]. *)
Lemma sendMessage_abort_touches_agents :
  ~ abort_leaves_store_unchanged (Scenario.t0 + 1000) Scenario.hello_ghost
      Scenario.s_agents.
Proof.
  intros H.
  assert (Hp : fst (getProject (sm_projectSlug Scenario.hello_ghost)
                      Scenario.s_agents) = Ok Scenario.repo)
    by (vm_compute; reflexivity).
  assert (Hs : fst (getAgent (Scenario.t0 + 1000)
                      (sm_projectSlug Scenario.hello_ghost)
                      (sm_sender Scenario.hello_ghost) Scenario.s_agents)
               = Ok Scenario.amber)
    by (vm_compute; reflexivity).
  assert (Hun : has_unresolved Scenario.repo Scenario.hello_ghost
                  Scenario.s_agents = true)
    by (vm_compute; reflexivity).
  specialize (H Scenario.repo Scenario.amber Hp Hs Hun).
  apply (f_equal (fun st => map a_last_active_ts (agents st))) in H.
  vm_compute in H. discriminate H.
Qed.

(** ** Broadcast *)

(** The sender's own lookup does not change who the other agents are. *)
Lemma other_agents_touch now p sender s :
  other_agents p sender (touch now sender s) = other_agents p sender s.
Proof.
  unfold other_agents, touch; simpl. unfold update_where.
  induction (agents s) as [|a l IH]; simpl; [reflexivity|].
  destruct (a_id a =? a_id sender) eqn:E; simpl.
  - rewrite E. rewrite !andb_false_r. exact IH.
  - rewrite E. destruct (a_project_id a =? p_id p); simpl;
      [f_equal|]; exact IH.
Qed.

Lemma insert_recipients_all mid rs :
  forall s,
    NoDup (map rcp_id rs) ->
    (forall mr, In mr (message_recipients s) -> mr_message_id mr = mid ->
                ~ In (mr_agent_id mr) (map rcp_id rs)) ->
    insert_recipients mid rs s
    = (true,
       set_message_recipients s
         (message_recipients s ++ map (recipient_record mid) rs)%list).
Proof.
  induction rs as [|r rs IH]; intros s Hnd Hfree; simpl.
  - destruct s; simpl. rewrite app_nil_r. reflexivity.
  - inversion Hnd as [|? ? Hr Hnd']; subst.
    unfold insert_recipient.
    destruct (existsb _ (message_recipients s)) eqn:E.
    + exfalso. apply existsb_exists in E. destruct E as (mr & Hin & Hk).
      apply andb_prop in Hk. destruct Hk as [Hk1 Hk2].
      apply Z.eqb_eq in Hk1, Hk2.
      apply (Hfree mr Hin Hk1). left. symmetry. exact Hk2.
    + rewrite IH.
      * simpl. rewrite <- app_assoc. reflexivity.
      * exact Hnd'.
      * simpl. intros mr Hin Hmid Habs.
        apply in_app_or in Hin. destruct Hin as [Hin|[<-|[]]].
        -- apply (Hfree mr Hin Hmid). right. exact Habs.
        -- simpl in Habs. contradiction.
Qed.

(** The rows of a broadcast, in the terms of the query that expands the
    alias. *)
Lemma broadcast_rows :
  forall now input s p sender alias N,
    reachable s ->
    fst (getProject (sm_projectSlug input) s) = Ok p ->
    fst (getAgent now (sm_projectSlug input) (sm_sender input) s)
    = Ok sender ->
    sm_to input = [alias] ->
    Js.toLowerCase alias = "all" ->
    or_default (sm_cc input) [] = [] ->
    List.length (other_agents p sender s) = N ->
    let s' := snd (sendMessage now input s) in
    let created :=
      map (fun a =>
             {| mr_message_id := next_rowid (map m_id (messages s));
                mr_agent_id := a_id a; mr_kind := KTo;
                mr_read_ts := None; mr_ack_ts := None |})
          (other_agents p sender s) in
    message_recipients s' = (message_recipients s ++ created)%list
    /\ List.length created = N
    /\ NoDup (map mr_agent_id created)
    /\ ~ In (a_id sender) (map mr_agent_id created)
    /\ (N <> 0%nat -> is_ok (fst (sendMessage now input s)) = true)
    /\ (N = 0%nat ->
        exists e, fst (sendMessage now input s) = Err e
                  /\ err_type e = "NO_RECIPIENTS"
                  /\ messages s' = messages s).
Proof.
  intros now input s p sender alias N Hreach Hp Hs Hto Halias Hcc HN s' created.
  pose proof (reachable_Inv s Hreach) as I.
  assert (Hids : map mr_agent_id created
                 = map a_id (other_agents p sender s)).
  { unfold created. rewrite map_map. reflexivity. }
  assert (Hsend : sendMessage now input s
                  = sendMessage_for now input p sender (touch now sender s)).
  { unfold sendMessage, bind. rewrite (getProject_eq _ _ _ Hp).
    destruct (getAgent_ok _ _ _ _ _ Hs) as (p0 & _ & _ & ->). reflexivity. }
  assert (Hfor : sendMessage_for now input p sender (touch now sender s)
                 = match map (recipient_of KTo) (other_agents p sender s) with
                   | [] => fail {| err_type := "NO_RECIPIENTS";
                                   err_message :=
                                     "No recipients specified or found";
                                   err_recoverable := true;
                                   err_data := None |}
                                (touch now sender s)
                   | rs => create_message now input p sender rs
                             (touch now sender s)
                   end).
  { unfold sendMessage_for, bind. rewrite Hto, Hcc. simpl.
    rewrite Halias. simpl. rewrite other_agents_touch.
    destruct (map (recipient_of KTo) (other_agents p sender s));
      reflexivity. }
  assert (Hnd : NoDup (map a_id (other_agents p sender s))).
  { unfold other_agents. apply NoDup_map_filter. exact (inv_agent_ids _ I). }
  split; [|split; [|split; [|split; [|split]]]].
  - unfold s'. rewrite Hsend, Hfor.
    destruct (other_agents p sender s) as [|a others] eqn:Eo.
    + simpl. unfold created. simpl. rewrite app_nil_r. reflexivity.
    + set (rs := map (recipient_of KTo) (a :: others)).
      change (map (recipient_of KTo) (a :: others)) with rs.
      assert (Hrs : rs = recipient_of KTo a :: map (recipient_of KTo) others)
        by reflexivity.
      rewrite Hrs at 1. rewrite <- Hrs.
      unfold create_message.
      rewrite insert_recipients_all.
      * simpl. unfold created, rs. rewrite map_map. reflexivity.
      * unfold rs. rewrite map_map. exact Hnd.
      * simpl. intros mr Hin Hmid _.
        destruct (inv_recipient_message _ I mr Hin) as (m & Hm & Hid).
        apply (next_rowid_fresh (map m_id (messages s))).
        rewrite <- Hmid, <- Hid. apply in_map. exact Hm.
  - unfold created. rewrite length_map. exact HN.
  - rewrite Hids. exact Hnd.
  - rewrite Hids. intros Hin. apply in_map_iff in Hin.
    destruct Hin as (a & Hid & Hin). unfold other_agents in Hin.
    apply filter_In in Hin. destruct Hin as [_ Hc].
    apply andb_prop in Hc. destruct Hc as [_ Hc].
    rewrite Hid, Z.eqb_refl in Hc. discriminate.
  - intros HN0. rewrite Hsend, Hfor.
    destruct (other_agents p sender s) as [|a others] eqn:Eo;
      [simpl in HN; congruence|].
    set (rs := map (recipient_of KTo) (a :: others)).
    assert (Hrs : rs = recipient_of KTo a :: map (recipient_of KTo) others)
      by reflexivity.
    rewrite Hrs at 1. rewrite <- Hrs.
    unfold create_message.
    rewrite insert_recipients_all.
    * reflexivity.
    * unfold rs. rewrite map_map. exact Hnd.
    * simpl. intros mr Hin Hmid _.
      destruct (inv_recipient_message _ I mr Hin) as (m & Hm & Hid).
      apply (next_rowid_fresh (map m_id (messages s))).
      rewrite <- Hmid, <- Hid. apply in_map. exact Hm.
  - intros HN0. unfold s'. rewrite Hsend, Hfor.
    destruct (other_agents p sender s) as [|a others] eqn:Eo;
      [|simpl in HN; congruence].
    simpl. eexists. split; [reflexivity|]. split; reflexivity.
Qed.

(** C6. In a reachable store, let [N] be the number of agents whose
    [project_id] is that of the project and whose id is not the
    sender's.  A send whose [to] is the broadcast alias alone (in any
    letter case) and whose [cc] is empty appends exactly [N] recipient
    rows and nothing else: up to their order, one row of kind [to] under
    the id of the new message for each of these agents, so that a row is
    created for an agent if and only if the agent belongs to the project
    and is not the sender; no agent gets two rows; the call succeeds when
    [N] is not zero, and returns NO_RECIPIENTS, creating no row, when it
    is. *)
Theorem broadcast_creates_one_row_per_other_agent :
  forall now input s p sender alias N,
    reachable s ->
    fst (getProject (sm_projectSlug input) s) = Ok p ->
    fst (getAgent now (sm_projectSlug input) (sm_sender input) s)
    = Ok sender ->
    sm_to input = [alias] ->
    Js.toLowerCase alias = "all" ->
    or_default (sm_cc input) [] = [] ->
    List.length
      (filter (fun a => (a_project_id a =? p_id p)
                        && negb (a_id a =? a_id sender)) (agents s)) = N ->
    exists created,
      message_recipients (snd (sendMessage now input s))
      = (message_recipients s ++ created)%list
      /\ List.length created = N
      /\ Permutation created
           (map (fun a =>
                   {| mr_message_id := next_rowid (map m_id (messages s));
                      mr_agent_id := a_id a; mr_kind := KTo;
                      mr_read_ts := None; mr_ack_ts := None |})
                (filter (fun a => (a_project_id a =? p_id p)
                                  && negb (a_id a =? a_id sender))
                        (agents s)))
      /\ (forall mr,
            In mr created <->
            exists a, In a (agents s)
                      /\ a_project_id a = p_id p
                      /\ a_id a <> a_id sender
                      /\ mr = {| mr_message_id :=
                                   next_rowid (map m_id (messages s));
                                 mr_agent_id := a_id a; mr_kind := KTo;
                                 mr_read_ts := None; mr_ack_ts := None |})
      /\ NoDup (map mr_agent_id created)
      /\ (N <> 0%nat -> is_ok (fst (sendMessage now input s)) = true)
      /\ (N = 0%nat ->
          exists e, fst (sendMessage now input s) = Err e
                    /\ err_type e = "NO_RECIPIENTS"
                    /\ messages (snd (sendMessage now input s))
                       = messages s).
Proof.
  intros now input s p sender alias N Hreach Hp Hs Hto Halias Hcc HN.
  pose proof (broadcast_rows now input s p sender alias N
                Hreach Hp Hs Hto Halias Hcc HN) as H.
  cbv zeta in H. destruct H as (H1 & H2 & H3 & _ & H5 & H6).
  eexists. split; [exact H1|]. split; [exact H2|].
  split; [apply Permutation_refl|]. split; [|split; [exact H3|split]].
  - intros mr. unfold other_agents. rewrite in_map_iff. split.
    + intros (a & <- & Hin). apply filter_In in Hin.
      destruct Hin as [Hin Hc]. apply andb_prop in Hc.
      destruct Hc as [Hc1 Hc2]. apply Z.eqb_eq in Hc1.
      apply negb_true_iff in Hc2. apply Z.eqb_neq in Hc2.
      exists a. repeat split; assumption.
    + intros (a & Hin & Hc1 & Hc2 & ->). exists a. split; [reflexivity|].
      apply filter_In. split; [exact Hin|].
      apply Z.eqb_eq in Hc1. apply Z.eqb_neq in Hc2.
      rewrite Hc1, Hc2. reflexivity.
  - exact H5.
  - exact H6.
Qed.

Lemma broadcast_creates_one_row_per_other_agent_witness :
  message_recipients
    (snd (sendMessage (Scenario.t0 + 1000) Scenario.broadcast
            Scenario.s_agents))
  = [{| mr_message_id := 1; mr_agent_id := 2; mr_kind := KTo;
        mr_read_ts := None; mr_ack_ts := None |}]
  /\ is_ok (fst (sendMessage (Scenario.t0 + 1000) Scenario.broadcast
                   Scenario.s_agents)) = true.
Proof.
  assert (Hp : fst (getProject (sm_projectSlug Scenario.broadcast)
                      Scenario.s_agents) = Ok Scenario.repo)
    by (vm_compute; reflexivity).
  assert (Hs : fst (getAgent (Scenario.t0 + 1000)
                      (sm_projectSlug Scenario.broadcast)
                      (sm_sender Scenario.broadcast) Scenario.s_agents)
               = Ok Scenario.amber)
    by (vm_compute; reflexivity).
  assert (Hl : Js.toLowerCase "All" = "all") by (vm_compute; reflexivity).
  assert (Hn : List.length
                 (filter (fun a => (a_project_id a =? p_id Scenario.repo)
                                   && negb (a_id a =? a_id Scenario.amber))
                         (agents Scenario.s_agents)) = 1%nat)
    by (vm_compute; reflexivity).
  destruct (broadcast_creates_one_row_per_other_agent
              (Scenario.t0 + 1000) Scenario.broadcast Scenario.s_agents
              Scenario.repo Scenario.amber "All" 1%nat
              reachable_s_agents Hp Hs eq_refl Hl eq_refl Hn)
    as (created & _ & _ & _ & _ & _ & H5 & _).
  split.
  - vm_compute. reflexivity.
  - apply H5. discriminate.
Defined.

(** ** Project registry *)

Lemma filter_unique_length {A B} (f : A -> B) (g : A -> bool) (l : list A)
    (x : A) :
  NoDup (map f l) ->
  (forall y, In y l -> g y = true -> f y = f x) ->
  In x l -> g x = true ->
  List.length (filter g l) = 1%nat.
Proof.
  induction l as [|y l IH]; simpl; intros Hnd Hg Hin Hx; [contradiction|].
  inversion Hnd as [|? ? Hy Hnd']; subst.
  destruct Hin as [->|Hin].
  - rewrite Hx. simpl. f_equal.
    rewrite filter_none; [reflexivity|].
    intros z Hz. destruct (g z) eqn:E; [|reflexivity].
    exfalso. apply Hy. rewrite <- (Hg z (or_intror Hz) E).
    apply in_map. exact Hz.
  - destruct (g y) eqn:E.
    + exfalso. apply Hy. rewrite (Hg y (or_introl eq_refl) E).
      apply in_map. exact Hin.
    + apply IH; auto.
Qed.

Lemma ensureProject_create_fresh now k s :
  find (project_matches k) (projects s) = None ->
  let row := {| p_id := next_rowid (map p_id (projects s));
                p_slug := Slug.projectSlug k; p_human_key := k;
                p_created_at := Clock.sqlite_datetime now |} in
  ensureProject_create now k s
  = (Ok row, set_projects s (projects s ++ [row])%list).
Proof.
  intros Hnone row.
  pose proof (proj1 (find_none_iff _ _) Hnone) as Hall.
  assert (Hslug : existsb (fun p => String.eqb (p_slug p)
                                      (Slug.projectSlug k)) (projects s)
                  = false).
  { apply find_none_existsb, find_none_iff. intros q Hq.
    specialize (Hall q Hq). apply orb_false_elim in Hall. tauto. }
  assert (Hkey : existsb (fun p => String.eqb (p_human_key p) k) (projects s)
                 = false).
  { apply find_none_existsb, find_none_iff. intros q Hq.
    specialize (Hall q Hq). apply orb_false_elim in Hall. tauto. }
  unfold ensureProject_create, insert_project. rewrite Hslug, Hkey.
  simpl projects. rewrite find_app_none.
  - simpl. rewrite String.eqb_refl. reflexivity.
  - apply find_none_existsb. exact Hslug.
Qed.

(** C9, as the code has it.  From a reachable store, two calls with the
    same key return the same row, the second call changes nothing, and
    the table then holds exactly one row for that key or its slug.  A call
    whose lookup found nothing and whose insert comes after the insert of
    another call for the same key does not re-read: it returns
    PROJECT_CREATE_FAILED, not recoverable, and leaves the winner's row
    as the only one. *)
Theorem ensureProject_idempotent_in_sequence :
  forall now1 now2 k s,
    reachable s ->
    exists p s1,
      ensureProject now1 k s = (Ok p, s1)
      /\ ensureProject now2 k s1 = (Ok p, s1)
      /\ List.length (filter (project_matches k) (projects s1)) = 1%nat
      /\ (find (project_matches k) (projects s) = None ->
          forall now3, exists e,
            ensureProject_raced now3 k s s1 = Some (Err e, s1)
            /\ err_type e = "PROJECT_CREATE_FAILED"
            /\ err_recoverable e = false).
Proof.
  intros now1 now2 k s Hreach.
  pose proof (reachable_Inv s Hreach) as I.
  destruct (find (project_matches k) (projects s)) as [e|] eqn:Ef.
  - exists e, s. unfold ensureProject. fold (project_matches k).
    rewrite Ef. split; [reflexivity|]. split; [reflexivity|].
    split; [|discriminate].
    destruct (find_some _ _ Ef) as [Hin Hm].
    assert (Hslug : forall q, In q (projects s) ->
                              project_matches k q = true ->
                              p_slug q = Slug.projectSlug k).
    { intros q Hq Hmq. unfold project_matches in Hmq.
      apply orb_prop in Hmq. destruct Hmq as [Hk|Hs].
      - apply String.eqb_eq in Hk.
        rewrite (inv_project_slug_of_key _ I q Hq), Hk. reflexivity.
      - apply String.eqb_eq in Hs. exact Hs. }
    apply (filter_unique_length p_slug _ _ e (inv_project_slugs _ I));
      auto.
    intros q Hq Hmq. rewrite (Hslug q Hq Hmq), (Hslug e Hin Hm). reflexivity.
  - pose proof (ensureProject_create_fresh now1 k s Ef) as Hc.
    cbv zeta in Hc.
    set (row := {| p_id := next_rowid _; p_slug := _ |}) in Hc.
    set (s1 := set_projects s _) in Hc.
    assert (Hrow : project_matches k row = true).
    { unfold project_matches. simpl. rewrite String.eqb_refl. reflexivity. }
    assert (Ef1 : find (project_matches k) (projects s1) = Some row).
    { simpl. rewrite find_app_none by exact Ef. simpl. rewrite Hrow.
      reflexivity. }
    exists row, s1. split; [|split; [|split]].
    + unfold ensureProject. fold (project_matches k). rewrite Ef. exact Hc.
    + unfold ensureProject. fold (project_matches k). rewrite Ef1.
      reflexivity.
    + simpl. rewrite filter_app. simpl. rewrite Hrow.
      rewrite filter_none; [reflexivity|].
      exact (proj1 (find_none_iff _ _) Ef).
    + intros _ now3. unfold ensureProject_raced.
      fold (project_matches k). rewrite Ef.
      unfold ensureProject_create, insert_project.
      assert (Hex : existsb (fun p => String.eqb (p_slug p)
                                        (Slug.projectSlug k)) (projects s1)
                    = true).
      { apply existsb_exists. exists row. split.
        - simpl. apply in_or_app. right. left. reflexivity.
        - simpl. apply String.eqb_refl. }
      rewrite Hex. eexists. split; [reflexivity|]. split; reflexivity.
Qed.

Lemma ensureProject_idempotent_in_sequence_witness :
  exists p s1,
    ensureProject Scenario.t0 "/repo" empty_store = (Ok p, s1)
    /\ ensureProject (Scenario.t0 + 1000) "/repo" s1 = (Ok p, s1)
    /\ List.length (projects s1) = 1%nat.
Proof.
  destruct (ensureProject_idempotent_in_sequence Scenario.t0
              (Scenario.t0 + 1000) "/repo" empty_store reachable_empty)
    as (p & s1 & H1 & H2 & H3 & _).
  exists p, s1. split; [exact H1|]. split; [exact H2|].
  assert (E : s1 = snd (ensureProject Scenario.t0 "/repo" empty_store))
    by (rewrite H1; reflexivity).
  rewrite E. vm_compute. reflexivity.
Defined.

(** The call that loses the race returns an error where the
    specification has it return the winner's row. *)
Lemma ensureProject_lost_race_fails :
  ~ raced_call_returns_winner (Scenario.t0 + 1) Scenario.t0 "/repo"
      empty_store.
Proof.
  intros H.
  set (c := ensureProject Scenario.t0 "/repo" empty_store).
  assert (Ec : c = (Ok Scenario.repo, Scenario.s_project))
    by (vm_compute; reflexivity).
  assert (Er : ensureProject_raced (Scenario.t0 + 1) "/repo" empty_store
                 Scenario.s_project
               = Some (mkErr "PROJECT_CREATE_FAILED"
                         "UNIQUE constraint failed: projects.slug" false
                         None, Scenario.s_project))
    by (vm_compute; reflexivity).
  specialize (H _ _ _ _ Ec Er). discriminate H.
Qed.

(** ** Agent directory *)

Lemma find_by_id_unique (l : list Agent) (b : Agent) :
  NoDup (map a_id l) -> In b l ->
  find (fun a => a_id a =? a_id b) l = Some b.
Proof.
  induction l as [|x l IH]; simpl; intros Hnd Hin; [contradiction|].
  inversion Hnd as [|? ? Hx Hnd']; subst.
  destruct Hin as [->|Hin].
  - rewrite Z.eqb_refl. reflexivity.
  - destruct (a_id x =? a_id b) eqn:E.
    + apply Z.eqb_eq in E. exfalso. apply Hx. rewrite E.
      apply in_map. exact Hin.
    + apply IH; assumption.
Qed.

Lemma isValidName_truthy name :
  Names.isValidName name = true -> Js.truthy name = true.
Proof. destruct name; [discriminate|reflexivity]. Qed.

(** C10, as the code has it.  In a reachable store, registering with the
    exact name of an agent B of the project, when that name follows the
    adjective+noun convention, creates no row: B's program, model, task
    description and [last_active_ts] are overwritten, every other row is
    left as it is, and B's updated row is returned. *)
Theorem registerAgent_taken_valid_name_updates :
  forall fuel rnd now input s p b name,
    reachable s ->
    fst (getProject (reg_projectSlug input) s) = Ok p ->
    reg_name input = Some name ->
    find (agent_named (p_id p) name) (agents s) = Some b ->
    Names.isValidName name = true ->
    let b' := {| a_id := a_id b; a_project_id := a_project_id b;
                 a_name := a_name b;
                 a_program := reg_program input;
                 a_model := reg_model input;
                 a_task_description :=
                   match reg_taskDescription input with
                   | Some t => t
                   | None => ""
                   end;
                 a_inception_ts := a_inception_ts b;
                 a_last_active_ts := Clock.sqlite_datetime now |} in
    exists s',
      registerAgent fuel rnd now input s = Some (Ok b', s')
      /\ List.length (agents s') = List.length (agents s)
      /\ Forall2 (fun old new =>
                    if a_id old =? a_id b then old = b /\ new = b'
                    else new = old)
                 (agents s) (agents s').
Proof.
  intros fuel rnd now input s p b name Hreach Hp Hname Hf Hvalid b'.
  pose proof (reachable_Inv s Hreach) as I.
  pose proof (inv_agent_ids _ I) as Hnd.
  destruct (find_some _ _ Hf) as [Hin _].
  set (upd := set_profile (reg_program input) (reg_model input)
                (or_default (reg_taskDescription input) "")
                (Clock.sqlite_datetime now)).
  set (s' := set_agents s
               (update_where (fun a => a_id a =? a_id b) upd (agents s))).
  assert (Hb' : upd b = b') by reflexivity.
  assert (Hfind : find (fun a => a_id a =? a_id b) (agents s') = Some b').
  { simpl. rewrite find_update_where by reflexivity.
    rewrite (find_by_id_unique _ _ Hnd Hin). simpl.
    rewrite Z.eqb_refl. reflexivity. }
  exists s'. split; [|split].
  - unfold registerAgent. rewrite (getProject_eq _ _ _ Hp).
    unfold resolve_name. rewrite Hname, (isValidName_truthy _ Hvalid), Hvalid.
    unfold registerAgent_named. rewrite Hf. fold upd. fold s'.
    rewrite Hfind. reflexivity.
  - simpl. unfold update_where. apply length_map.
  - simpl. unfold update_where.
    assert (Hall : forall x, In x (agents s) ->
                             a_id x = a_id b -> x = b).
    { intros x Hx E. exact (NoDup_map_inj_in a_id _ x b Hnd Hx Hin E). }
    revert Hall. generalize (agents s) as l.
    induction l as [|x l IH]; intros Hall; simpl; constructor.
    + destruct (a_id x =? a_id b) eqn:E; [|reflexivity].
      apply Z.eqb_eq in E.
      rewrite (Hall x (or_introl eq_refl) E). split; [reflexivity|exact Hb'].
    + apply IH. intros y Hy. apply Hall. right. exact Hy.
Qed.

Lemma registerAgent_taken_valid_name_updates_witness :
  exists s',
    registerAgent 0 Scenario.rnd0 (Scenario.t0 + 1000)
      {| reg_projectSlug := "/repo"; reg_name := Some "JadeWolf";
         reg_program := "editor"; reg_model := "m2";
         reg_taskDescription := Some "review" |}
      Scenario.s_agents
    = Some (Ok {| a_id := 2; a_project_id := 1; a_name := "JadeWolf";
                  a_program := "editor"; a_model := "m2";
                  a_task_description := "review";
                  a_inception_ts := "2026-11-02 05:00:00";
                  a_last_active_ts := "2026-11-02 05:00:01" |}, s')
    /\ List.length (agents s') = 2%nat.
Proof.
  assert (Hp : fst (getProject "/repo" Scenario.s_agents) = Ok Scenario.repo)
    by (vm_compute; reflexivity).
  assert (Hf : find (agent_named (p_id Scenario.repo) "JadeWolf")
                 (agents Scenario.s_agents) = Some Scenario.jade)
    by (vm_compute; reflexivity).
  assert (Hv : Names.isValidName "JadeWolf" = true)
    by (vm_compute; reflexivity).
  destruct (registerAgent_taken_valid_name_updates
              0%nat Scenario.rnd0 (Scenario.t0 + 1000)
              {| reg_projectSlug := "/repo"; reg_name := Some "JadeWolf";
                 reg_program := "editor"; reg_model := "m2";
                 reg_taskDescription := Some "review" |}
              Scenario.s_agents Scenario.repo Scenario.jade "JadeWolf"
              reachable_s_agents Hp eq_refl Hf Hv)
    as (s' & H1 & H2 & _).
  exists s'. split.
  - rewrite H1. vm_compute. reflexivity.
  - rewrite H2. reflexivity.
Defined.

Lemma reachable_s_arrows : reachable Scenario.s_arrows.
Proof.
  apply (reachable_step Scenario.s_arrow).
  - apply (reachable_step Scenario.s_project).
    + apply (reachable_step empty_store); [constructor|].
      apply (step_of_ensureProject Scenario.t0 "/repo").
      vm_compute. reflexivity.
    + apply (step_of_registerAgent 0 Scenario.rnd0 Scenario.t0
               Scenario.reg_anonymous).
      vm_compute. reflexivity.
  - apply (step_of_registerAgent 0 Scenario.rnd0 Scenario.t0
             Scenario.reg_anonymous).
    vm_compute. reflexivity.
Qed.

(** A name made by the numeric fallback of [generateUniqueName] does not
    follow the convention; registering with it is taken as a hint, a new
    name is generated and a third row is created. *)
Lemma registerAgent_fallback_name_adds_row :
  map a_name (agents Scenario.s_arrows) = ["AmberArrow"; "AmberArrow1"]
  /\ ~ taken_name_adds_no_row 1 Scenario.rnd0 (Scenario.t0 + 1000)
         (Scenario.reg "AmberArrow1") Scenario.s_arrows.
Proof.
  split; [vm_compute; reflexivity|].
  intros H.
  assert (Hp : fst (getProject "/repo" Scenario.s_arrows) = Ok Scenario.repo)
    by (vm_compute; reflexivity).
  destruct (H Scenario.repo
              {| a_id := 2; a_project_id := 1; a_name := "AmberArrow1";
                 a_program := "cli"; a_model := "m1";
                 a_task_description := "";
                 a_inception_ts := "2026-11-02 05:00:00";
                 a_last_active_ts := "2026-11-02 05:00:00" |}
              "AmberArrow1" Hp eq_refl)
    as (r & s' & Hr & Hlen).
  - vm_compute. reflexivity.
  - assert (E : option_map (fun x => map a_name (agents (snd x)))
                  (registerAgent 1 Scenario.rnd0 (Scenario.t0 + 1000)
                     (Scenario.reg "AmberArrow1") Scenario.s_arrows)
                = Some ["AmberArrow"; "AmberArrow1"; "AmberArrow2"])
      by (vm_compute; reflexivity).
    rewrite Hr in E. simpl in E. injection E as E.
    apply (f_equal (@List.length string)) in E.
    rewrite length_map, Hlen in E. vm_compute in E. discriminate E.
Qed.

(** * Further properties of the code *)

(** ** Timestamps compared as text *)

Lemma ascii_compare_refl (c : ascii) : Ascii.compare c c = Eq.
Proof. unfold Ascii.compare. apply N.compare_refl. Qed.

Lemma string_compare_prefix (p x y : string) :
  String.compare (p ++ x) (p ++ y) = String.compare x y.
Proof.
  induction p as [|c p IH]; simpl; [reflexivity|].
  rewrite ascii_compare_refl. exact IH.
Qed.

Lemma text_lt_prefix (p x y : string) :
  Clock.text_lt (p ++ x) (p ++ y) = Clock.text_lt x y.
Proof.
  unfold Clock.text_lt, String.ltb. rewrite string_compare_prefix.
  reflexivity.
Qed.

(** The text order is asymmetric. *)
Lemma text_lt_asym (a b : string) :
  Clock.text_lt a b = true -> Clock.text_lt b a = false.
Proof.
  unfold Clock.text_lt, String.ltb. rewrite (String.compare_antisym b a).
  destruct (String.compare a b); simpl; congruence.
Qed.

Lemma iso_year_four_digits (y : Z) :
  0 <= y <= 9999 -> Clock.iso_year y = Clock.pad4 y.
Proof.
  intros [H0 H1]. unfold Clock.iso_year.
  rewrite (proj2 (Z.leb_le 0 y) H0), (proj2 (Z.leb_le y 9999) H1).
  reflexivity.
Qed.

Lemma sqlite_year_four_digits (y : Z) :
  0 <= y -> Clock.sqlite_year y = Clock.pad4 y.
Proof.
  intros H. unfold Clock.sqlite_year.
  rewrite (proj2 (Z.ltb_ge y 0) H). reflexivity.
Qed.

(** An expiry written by [toISOString] is above [datetime('now')] for
    the whole of its calendar day. *)
Lemma iso_above_datetime_same_day (expiry now : Z) :
  Clock.civil_from_days (expiry / Clock.ms_per_day)
  = Clock.civil_from_days (now / Clock.ms_per_day) ->
  0 <= fst (fst (Clock.civil_from_days (now / Clock.ms_per_day))) <= 9999 ->
  Clock.text_lt (Clock.sqlite_datetime now) (Clock.iso_format expiry) = true.
Proof.
  intros Hday Hy. unfold Clock.sqlite_datetime, Clock.iso_format.
  rewrite Hday.
  destruct (Clock.civil_from_days (now / Clock.ms_per_day)) as [[y m] d].
  simpl in Hy. rewrite (iso_year_four_digits y Hy).
  rewrite (sqlite_year_four_digits y (proj1 Hy)).
  rewrite !text_lt_prefix. reflexivity.
Qed.

(** X1. A reservation that was never released is active during the whole
    UTC calendar day of its expiry, before and after the expiry itself:
    when the expiry written by [toISOString] and the clock fall on the
    same day (of a year 0..9999), [released_ts IS NULL AND expires_ts >
    datetime('now')] holds at any time of that day. *)
Theorem active_during_whole_expiry_day :
  forall now expiry fr,
    fr_released_ts fr = None ->
    fr_expires_ts fr = Clock.iso_format expiry ->
    Clock.civil_from_days (expiry / Clock.ms_per_day)
    = Clock.civil_from_days (now / Clock.ms_per_day) ->
    0 <= fst (fst (Clock.civil_from_days (now / Clock.ms_per_day)))
      <= 9999 ->
    is_active now fr = true.
Proof.
  intros now expiry fr Hrel Hexp Hday Hy. unfold is_active.
  rewrite Hrel, Hexp. unfold Clock.text_gt.
  apply iso_above_datetime_same_day; assumption.
Qed.

Lemma active_during_whole_expiry_day_witness :
  is_active (Scenario.t0 + 68399000) Scenario.amber_row = true.
Proof.
  apply (active_during_whole_expiry_day (Scenario.t0 + 68399000)
           (Scenario.t0 + 60000) Scenario.amber_row).
  - reflexivity.
  - vm_compute. reflexivity.
  - vm_compute. reflexivity.
  - vm_compute. split; discriminate.
Defined.

(** ** Retention *)

Lemma in_update_where_unchanged {A} (w : A -> bool) (f : A -> A)
    (l : list A) (x : A) :
  In x l -> w x = false -> In x (update_where w f l).
Proof.
  intros Hin Hw. unfold update_where.
  apply in_map_iff. exists x. rewrite Hw. auto.
Qed.

(** X2. The retention sweep never stamps and never deletes a reservation
    that is active at the time of the sweep, whatever its age and
    whatever the retention horizon. *)
Theorem runRetention_keeps_active_reservations :
  forall now retentionDays s fr,
    In fr (file_reservations s) ->
    is_active now fr = true ->
    In fr (file_reservations (snd (runRetention now retentionDays s))).
Proof.
  intros now days s fr Hin Hact. unfold is_active in Hact.
  destruct (fr_released_ts fr) eqn:Hrel; [discriminate|].
  unfold Clock.text_gt in Hact.
  pose proof (text_lt_asym _ _ Hact) as Hnot.
  unfold runRetention. simpl. apply filter_In. split.
  - apply in_update_where_unchanged; [exact Hin|].
    rewrite Hrel. simpl. exact Hnot.
  - rewrite Hrel. simpl. rewrite Hnot. reflexivity.
Qed.

Lemma runRetention_keeps_active_reservations_witness :
  In Scenario.amber_row
     (file_reservations
        (snd (runRetention (Scenario.t0 + 1000) 0 Scenario.s_reserved))).
Proof.
  apply runRetention_keeps_active_reservations.
  - left. reflexivity.
  - vm_compute. reflexivity.
Defined.

Lemma store_ext (s1 s2 : Store) :
  projects s1 = projects s2 -> agents s1 = agents s2 ->
  messages s1 = messages s2 ->
  message_recipients s1 = message_recipients s2 ->
  file_reservations s1 = file_reservations s2 -> s1 = s2.
Proof.
  destruct s1, s2; simpl; intros; subst; reflexivity.
Qed.

Lemma filter_all {A} (p : A -> bool) (l : list A) :
  (forall x, In x l -> p x = true) -> filter p l = l.
Proof.
  intros H. induction l as [|x l IH]; simpl; [reflexivity|].
  rewrite (H x (or_introl eq_refl)). f_equal. apply IH.
  intros y Hy. apply H. right. exact Hy.
Qed.

Lemma filter_idem {A} (p : A -> bool) (l : list A) :
  filter p (filter p l) = filter p l.
Proof.
  apply filter_all. intros x Hx. apply filter_In in Hx. tauto.
Qed.

Lemma filter_negb_after {A} (p : A -> bool) (l : list A) :
  filter p (filter (fun x => negb (p x)) l) = [].
Proof.
  apply filter_none. intros x Hx. apply filter_In in Hx.
  destruct Hx as [_ Hx]. apply negb_true_iff in Hx. exact Hx.
Qed.

Lemma runRetention_eq now days s :
  let cutoff := cutoff_datetime now days in
  let now_txt := Clock.sqlite_datetime now in
  let expired := fun fr => is_null (fr_released_ts fr)
                           && Clock.text_lt (fr_expires_ts fr) now_txt in
  let stamp := fun fr => set_released (fr_expires_ts fr) fr in
  let old := fun m => before_cutoff (m_created_ts m) cutoff in
  let oldr := fun fr => (negb (is_null (fr_released_ts fr))
                         || Clock.text_lt (fr_expires_ts fr) now_txt)
                        && before_cutoff (fr_created_ts fr) cutoff in
  let frs1 := update_where expired stamp (file_reservations s) in
  runRetention now days s
  = ({| rr_messages := changes old (messages s);
        rr_reservations := changes oldr frs1 |},
     {| projects := projects s;
        agents := agents s;
        messages := filter (fun m => negb (old m)) (messages s);
        message_recipients :=
          filter (fun mr =>
                    negb (existsb (fun m => m_id m =? mr_message_id mr)
                            (filter old (messages s))))
                 (message_recipients s);
        file_reservations := filter (fun fr => negb (oldr fr)) frs1 |}).
Proof. reflexivity. Qed.

(** X3. Running the retention sweep twice at one clock value and with one
    horizon: the second run deletes nothing, reports zero messages and
    zero reservations, and leaves the store as the first run left it. *)
Theorem runRetention_twice :
  forall now retentionDays s,
    runRetention now retentionDays (snd (runRetention now retentionDays s))
    = ({| rr_messages := 0; rr_reservations := 0 |},
       snd (runRetention now retentionDays s)).
Proof.
  intros now days s.
  pose proof (runRetention_eq now days s) as E1. cbv zeta in E1.
  remember (snd (runRetention now days s)) as s3 eqn:E3.
  rewrite E1 in E3. simpl in E3.
  pose proof (runRetention_eq now days s3) as E2. cbv zeta in E2.
  rewrite E2. clear E1 E2.
  set (cutoff := cutoff_datetime now days) in *.
  set (now_txt := Clock.sqlite_datetime now) in *.
  set (expired := fun fr => is_null (fr_released_ts fr)
                            && Clock.text_lt (fr_expires_ts fr) now_txt) in *.
  set (stamp := fun fr => set_released (fr_expires_ts fr) fr) in *.
  set (old := fun m => before_cutoff (m_created_ts m) cutoff) in *.
  set (oldr := fun fr => (negb (is_null (fr_released_ts fr))
                          || Clock.text_lt (fr_expires_ts fr) now_txt)
                         && before_cutoff (fr_created_ts fr) cutoff) in *.
  assert (Hm : messages s3 = filter (fun m => negb (old m)) (messages s))
    by (rewrite E3; reflexivity).
  assert (Hf : file_reservations s3
               = filter (fun fr => negb (oldr fr))
                   (update_where expired stamp (file_reservations s)))
    by (rewrite E3; reflexivity).
  clear E3.
  assert (Hexp : forall x, In x (file_reservations s3) -> expired x = false).
  { intros x Hx. rewrite Hf in Hx. apply filter_In in Hx.
    destruct Hx as [Hx _]. unfold update_where in Hx.
    apply in_map_iff in Hx. destruct Hx as (y & <- & _).
    destruct (expired y) eqn:E; [reflexivity|exact E]. }
  assert (Hup : update_where expired stamp (file_reservations s3)
                = file_reservations s3)
    by (apply update_where_none; exact Hexp).
  assert (Hold : filter old (messages s3) = []).
  { rewrite Hm. apply (filter_negb_after old). }
  assert (Holdr : filter oldr (file_reservations s3) = []).
  { rewrite Hf. apply (filter_negb_after oldr). }
  rewrite Hup. unfold changes. rewrite Hold, Holdr. simpl. f_equal.
  apply store_ext; simpl; try reflexivity.
  - rewrite Hm. apply (filter_idem (fun m => negb (old m))).
  - apply filter_all. intros. reflexivity.
  - rewrite Hf. apply (filter_idem (fun fr => negb (oldr fr))).
Qed.

(** ** Releasing by pattern *)

(** X4. With [all] absent or false and a non-empty [pattern], the call
    stamps exactly the caller's unreleased rows whose [path_pattern] is
    that very string: a row under any other pattern, overlapping or not,
    is left as it is, and the count returned is the number of rows
    stamped. *)
Theorem release_by_pattern_is_exact :
  forall now input pattern s p a,
    fst (getProject (rl_projectSlug input) s) = Ok p ->
    fst (getAgent now (rl_projectSlug input) (rl_agentName input) s)
    = Ok a ->
    or_default (rl_all input) false = false ->
    rl_pattern input = Some pattern ->
    pattern <> "" ->
    exists s',
      releaseReservations now input s
      = (Ok {| released :=
                 changes (fun fr => (fr_project_id fr =? p_id p)
                                    && (fr_agent_id fr =? a_id a)
                                    && String.eqb (fr_path_pattern fr) pattern
                                    && is_null (fr_released_ts fr))
                         (file_reservations s);
               releasedAt := Clock.iso_format now |}, s')
      /\ released_by now
           (fun fr => (fr_project_id fr =? p_id p)
                      && (fr_agent_id fr =? a_id a)
                      && String.eqb (fr_path_pattern fr) pattern
                      && is_null (fr_released_ts fr)) s s'
      /\ (forall fr, In fr (file_reservations s) ->
                     fr_path_pattern fr <> pattern ->
                     In fr (file_reservations s')).
Proof.
  intros now input pattern s p a Hp Ha Hall Hpat Hne.
  assert (Ht : Js.truthy pattern = true)
    by (destruct pattern; [congruence|reflexivity]).
  rewrite (releaseReservations_unfold now input s p a Hp Ha).
  unfold releaseReservations_for. rewrite Hall, Hpat, Ht.
  eexists. split; [reflexivity|]. split.
  - unfold released_by. simpl. apply update_where_Forall2.
  - intros fr Hin Hdiff. simpl. apply in_update_where_unchanged;
      [exact Hin|].
    unfold release_pattern_where.
    apply String.eqb_neq in Hdiff. rewrite Hdiff.
    rewrite andb_false_r. reflexivity.
Qed.

Lemma release_by_pattern_is_exact_witness :
  exists s',
    releaseReservations (Scenario.t0 + 1000)
      {| rl_projectSlug := "/repo"; rl_agentName := "AmberFox";
         rl_pattern := Some "src/auth/login.go"; rl_all := None |}
      Scenario.s_reserved
    = (Ok {| released := 0; releasedAt := "2026-11-02T05:00:01.000Z" |}, s')
    /\ In Scenario.amber_row (file_reservations s').
Proof.
  assert (Hp : fst (getProject "/repo" Scenario.s_reserved)
               = Ok Scenario.repo) by (vm_compute; reflexivity).
  assert (Ha : fst (getAgent (Scenario.t0 + 1000) "/repo" "AmberFox"
                      Scenario.s_reserved) = Ok Scenario.amber)
    by (vm_compute; reflexivity).
  destruct (release_by_pattern_is_exact (Scenario.t0 + 1000)
              {| rl_projectSlug := "/repo"; rl_agentName := "AmberFox";
                 rl_pattern := Some "src/auth/login.go"; rl_all := None |}
              "src/auth/login.go" Scenario.s_reserved
              Scenario.repo Scenario.amber Hp Ha eq_refl eq_refl)
    as (s' & H1 & _ & H3).
  - discriminate.
  - exists s'. split.
    + rewrite H1. vm_compute. reflexivity.
    + apply H3; [left; reflexivity|discriminate].
Defined.

(** X5. With [all] absent or false and [pattern] absent or empty, the
    call is refused as INVALID_INPUT (recoverable) and no reservation is
    touched; the lookups that precede the test still stamp the agent's
    [last_active_ts]. *)
Theorem release_requires_pattern_or_all :
  forall now input s p a,
    fst (getProject (rl_projectSlug input) s) = Ok p ->
    fst (getAgent now (rl_projectSlug input) (rl_agentName input) s)
    = Ok a ->
    or_default (rl_all input) false = false ->
    rl_pattern input = None \/ rl_pattern input = Some "" ->
    exists e,
      releaseReservations now input s = (Err e, touch now a s)
      /\ err_type e = "INVALID_INPUT"
      /\ err_recoverable e = true
      /\ file_reservations (touch now a s) = file_reservations s.
Proof.
  intros now input s p a Hp Ha Hall Hpat.
  rewrite (releaseReservations_unfold now input s p a Hp Ha).
  unfold releaseReservations_for. rewrite Hall.
  destruct Hpat as [-> | ->]; simpl;
    eexists; (split; [reflexivity|]); repeat split.
Qed.

Lemma release_requires_pattern_or_all_witness :
  exists e s',
    releaseReservations (Scenario.t0 + 1000)
      {| rl_projectSlug := "/repo"; rl_agentName := "AmberFox";
         rl_pattern := Some ""; rl_all := Some false |}
      Scenario.s_reserved = (Err e, s')
    /\ err_type e = "INVALID_INPUT".
Proof.
  assert (Hp : fst (getProject "/repo" Scenario.s_reserved)
               = Ok Scenario.repo) by (vm_compute; reflexivity).
  assert (Ha : fst (getAgent (Scenario.t0 + 1000) "/repo" "AmberFox"
                      Scenario.s_reserved) = Ok Scenario.amber)
    by (vm_compute; reflexivity).
  destruct (release_requires_pattern_or_all (Scenario.t0 + 1000)
              {| rl_projectSlug := "/repo"; rl_agentName := "AmberFox";
                 rl_pattern := Some ""; rl_all := Some false |}
              Scenario.s_reserved Scenario.repo Scenario.amber Hp Ha
              eq_refl (or_intror eq_refl))
    as (e & H1 & H2 & _).
  exists e, (touch (Scenario.t0 + 1000) Scenario.amber Scenario.s_reserved).
  split; [exact H1|exact H2].
Defined.

Lemma order_by_desc_nil {A} (key : A -> string) :
  order_by_desc key [] = [].
Proof. reflexivity. Qed.



(** ** What the conflict scan reports *)

(** X7. Every conflict a successful [createReservation] reports is a row
    of the reservations table that belongs to the same project and to
    another agent, is exclusive, is active at the time of the call and
    has a pattern that overlaps the requested one; the caller's own
    reservations, shared ones and released ones are never reported. *)
Theorem reported_conflicts_are_foreign_active_exclusive :
  forall now input s p a res s' c,
    fst (getProject (cr_projectSlug input) s) = Ok p ->
    fst (getAgent now (cr_projectSlug input) (cr_agentName input) s)
    = Ok a ->
    createReservation now input s = (Ok res, s') ->
    In c (conflicts res) ->
    exists fr,
      In fr (file_reservations s)
      /\ rc_id c = fr_id fr
      /\ rc_path_pattern c = fr_path_pattern fr
      /\ rc_expires_ts c = fr_expires_ts fr
      /\ fr_project_id fr = p_id p
      /\ fr_agent_id fr <> a_id a
      /\ fr_exclusive fr = 1
      /\ is_active now fr = true
      /\ patternsOverlap (cr_pathPattern input) (fr_path_pattern fr) = true.
Proof.
  intros now input s p a res s' c Hp Ha Hc Hin.
  rewrite (createReservation_unfold _ _ _ _ _ Hp Ha) in Hc.
  unfold createReservation_for in Hc.
  destruct (Clock.toISOString _); [|discriminate].
  injection Hc as <- _. simpl in Hin. unfold find_conflicts in Hin.
  apply in_map_iff in Hin. destruct Hin as (rwa & <- & Hin).
  apply filter_In in Hin. destruct Hin as [Hin Hov].
  unfold join_agents in Hin. apply in_flat_map in Hin.
  destruct Hin as (fr & Hfr & Hrwa).
  apply in_map_iff in Hrwa. destruct Hrwa as (x & <- & _).
  apply filter_In in Hfr. destruct Hfr as [Hfr Hcond]. simpl in *.
  apply andb_prop in Hov. destruct Hov as [_ Hov].
  apply andb_prop in Hcond. destruct Hcond as [Hcond Hna].
  apply andb_prop in Hcond. destruct Hcond as [Hcond Hex].
  apply andb_prop in Hcond. destruct Hcond as [Hpr Hact].
  exists fr. repeat split; auto.
  - apply Z.eqb_eq. exact Hpr.
  - apply negb_true_iff in Hna. apply Z.eqb_neq. exact Hna.
  - apply Z.eqb_eq. exact Hex.
Qed.

Lemma reported_conflicts_are_foreign_active_exclusive_witness :
  exists fr,
    In fr (file_reservations Scenario.s_reserved)
    /\ fr_id fr = 1 /\ fr_agent_id fr <> a_id Scenario.jade.
Proof.
  assert (Hp : fst (getProject (cr_projectSlug Scenario.jade_login)
                      Scenario.s_reserved) = Ok Scenario.repo)
    by (vm_compute; reflexivity).
  assert (Ha : fst (getAgent (Scenario.t0 + 1000)
                      (cr_projectSlug Scenario.jade_login)
                      (cr_agentName Scenario.jade_login)
                      Scenario.s_reserved) = Ok Scenario.jade)
    by (vm_compute; reflexivity).
  set (c := createReservation (Scenario.t0 + 1000) Scenario.jade_login
              Scenario.s_reserved).
  assert (Hc : c = (Ok {| granted := granted
                            (match fst c with Ok r => r
                             | Err _ => {| granted := []; conflicts := [] |}
                             end);
                          conflicts :=
                            [{| rc_id := 1; rc_agent_name := "AmberFox";
                                rc_path_pattern := "src/auth/**";
                                rc_expires_ts := "2026-11-02T05:01:00.000Z";
                                rc_reason := "" |}] |}, snd c))
    by (vm_compute; reflexivity).
  destruct (reported_conflicts_are_foreign_active_exclusive
              (Scenario.t0 + 1000) Scenario.jade_login Scenario.s_reserved
              Scenario.repo Scenario.jade _ _
              {| rc_id := 1; rc_agent_name := "AmberFox";
                 rc_path_pattern := "src/auth/**";
                 rc_expires_ts := "2026-11-02T05:01:00.000Z";
                 rc_reason := "" |} Hp Ha Hc (or_introl eq_refl))
    as (fr & Hin & Hid & _ & _ & _ & Hna & _).
  exists fr. split; [exact Hin|]. split; [symmetry; exact Hid|exact Hna].
Defined.

(** ** The overlap heuristic *)

Lemma prefix_empty (s : string) : String.prefix "" s = true.
Proof. destruct s; reflexivity. Qed.

Lemma prefix_refl (s : string) : String.prefix s s = true.
Proof.
  induction s as [|c s IH]; simpl; [reflexivity|].
  destruct (ascii_dec c c); [exact IH|congruence].
Qed.

(** X8. A pattern made of wildcard markers only (one that the
    normalization empties, such as [*], [**/] or [**/*]) overlaps every
    pattern, in both argument orders: a reservation on it conflicts with
    every other exclusive reservation of the project. *)
Theorem wildcard_only_pattern_overlaps_everything :
  forall p q,
    normalize q = "" ->
    patternsOverlap p q = true /\ patternsOverlap q p = true.
Proof.
  intros p q Hq.
  assert (H : patternsOverlap p q = true).
  { unfold patternsOverlap. rewrite Hq. unfold Js.startsWith.
    rewrite prefix_empty. reflexivity. }
  split; [exact H|]. rewrite patternsOverlap_sym. exact H.
Qed.

Lemma wildcard_only_pattern_overlaps_everything_witness :
  patternsOverlap "docs/readme.md" "**/*" = true
  /\ patternsOverlap "**/*" "docs/readme.md" = true.
Proof.
  apply wildcard_only_pattern_overlaps_everything. reflexivity.
Defined.

(** X9. Two patterns whose normalized forms lie in the same non-empty
    directory overlap, whatever the file names: reservations on two
    different files of one directory are reported as conflicting. *)
Theorem same_directory_patterns_overlap :
  forall p q,
    dir_of (normalize p) = dir_of (normalize q) ->
    dir_of (normalize p) <> "" ->
    patternsOverlap p q = true.
Proof.
  intros p q Hdir Hne. unfold patternsOverlap.
  destruct (Js.startsWith (normalize p) (normalize q)
            || Js.startsWith (normalize q) (normalize p)); [reflexivity|].
  rewrite <- Hdir. unfold Js.startsWith. rewrite prefix_refl.
  destruct (dir_of (normalize p)); [congruence|reflexivity].
Qed.

Lemma same_directory_patterns_overlap_witness :
  patternsOverlap "src/auth/login.go" "src/auth/token.go" = true.
Proof.
  apply same_directory_patterns_overlap.
  - reflexivity.
  - discriminate.
Defined.

(** ** Ordered listings *)

Lemma insert_desc_perm {A} (key : A -> string) (x : A) (l : list A) :
  Permutation (x :: l) (insert_desc key x l).
Proof.
  induction l as [|y l IH]; simpl; [apply Permutation_refl|].
  destruct (Clock.text_lt (key x) (key y)).
  - apply perm_trans with (y :: x :: l); [apply perm_swap|].
    apply perm_skip. exact IH.
  - apply Permutation_refl.
Qed.

Lemma order_by_desc_perm {A} (key : A -> string) (l : list A) :
  Permutation l (order_by_desc key l).
Proof.
  induction l as [|x l IH]; simpl; [apply perm_nil|].
  apply perm_trans with (x :: order_by_desc key l).
  - apply perm_skip. exact IH.
  - apply insert_desc_perm.
Qed.

Lemma order_by_desc_in {A} (key : A -> string) (l : list A) (x : A) :
  In x (order_by_desc key l) <-> In x l.
Proof.
  split; apply Permutation_in.
  - apply Permutation_sym. apply order_by_desc_perm.
  - apply order_by_desc_perm.
Qed.

(** [x] is not older than [y]. *)
Lemma insert_desc_sorted {A} (key : A -> string) (x : A) (l : list A) :
  Sorted (fun a b => Clock.text_lt (key a) (key b) = false) l ->
  Sorted (fun a b => Clock.text_lt (key a) (key b) = false)
         (insert_desc key x l).
Proof.
  induction l as [|y l IH]; simpl; intros Hs.
  - constructor; constructor.
  - destruct (Clock.text_lt (key x) (key y)) eqn:E.
    + inversion Hs as [|? ? Hl Hhd]; subst. constructor.
      * apply IH. exact Hl.
      * destruct l as [|z l]; simpl.
        -- constructor. apply text_lt_asym. exact E.
        -- destruct (Clock.text_lt (key x) (key z)).
           ++ inversion Hhd; subst. constructor. assumption.
           ++ constructor. apply text_lt_asym. exact E.
    + constructor; [exact Hs|]. constructor. exact E.
Qed.

Lemma order_by_desc_sorted {A} (key : A -> string) (l : list A) :
  Sorted (fun a b => Clock.text_lt (key a) (key b) = false)
         (order_by_desc key l).
Proof.
  induction l as [|x l IH]; simpl; [constructor|].
  apply insert_desc_sorted. exact IH.
Qed.

(** X10. [listReservations] changes nothing and returns, newest first
    (no row is older than the row that follows it), exactly the
    reservations of the project joined with the name of their agent,
    restricted to the active ones when [active] is set. *)
Theorem listReservations_newest_first :
  forall now query s p,
    fst (getProject (lq_projectSlug query) s) = Ok p ->
    exists rows,
      listReservations now query s = (Ok rows, s)
      /\ Sorted (fun x y =>
                   Clock.text_lt (fr_created_ts (rwa_row x))
                                 (fr_created_ts (rwa_row y)) = false)
                rows
      /\ (forall fr name,
             In {| rwa_row := fr; rwa_agent_name := name |} rows
             <-> (In fr (file_reservations s)
                  /\ fr_project_id fr = p_id p
                  /\ (or_default (lq_active query) false = true ->
                      is_active now fr = true)
                  /\ exists a, In a (agents s)
                               /\ a_id a = fr_agent_id fr
                               /\ a_name a = name)).
Proof.
  intros now query s p Hp. unfold listReservations, bind.
  rewrite (getProject_eq _ _ _ Hp).
  eexists. split; [reflexivity|]. split; [apply order_by_desc_sorted|].
  intros fr name. rewrite order_by_desc_in. unfold join_agents.
  rewrite in_flat_map. split.
  - intros (fr0 & Hfr0 & Hin). apply in_map_iff in Hin.
    destruct Hin as (a & Heq & Ha). injection Heq as -> <-.
    apply filter_In in Hfr0. destruct Hfr0 as [Hfr Hc].
    apply filter_In in Ha. destruct Ha as [Ha Hid].
    apply andb_prop in Hc. destruct Hc as [Hpr Hact].
    split; [exact Hfr|]. split; [apply Z.eqb_eq; exact Hpr|]. split.
    + intros Hq. rewrite Hq in Hact. exact Hact.
    + exists a. split; [exact Ha|]. split; [|reflexivity].
      symmetry. apply Z.eqb_eq. exact Hid.
  - intros (Hfr & Hpr & Hact & a & Ha & Hid & Hname).
    exists fr. split.
    + apply filter_In. split; [exact Hfr|].
      rewrite Hpr, Z.eqb_refl. simpl.
      destruct (or_default (lq_active query) false);
        [apply Hact|]; reflexivity.
    + apply in_map_iff. exists a. split; [rewrite Hname; reflexivity|].
      apply filter_In. split; [exact Ha|]. rewrite Hid. apply Z.eqb_refl.
Qed.

Lemma listReservations_newest_first_witness :
  exists rows,
    listReservations (Scenario.t0 + 1000)
      {| lq_projectSlug := "/repo"; lq_active := None |}
      Scenario.s_reserved = (Ok rows, Scenario.s_reserved)
    /\ In {| rwa_row := Scenario.amber_row; rwa_agent_name := "AmberFox" |}
          rows.
Proof.
  assert (Hp : fst (getProject "/repo" Scenario.s_reserved)
               = Ok Scenario.repo) by (vm_compute; reflexivity).
  destruct (listReservations_newest_first (Scenario.t0 + 1000)
              {| lq_projectSlug := "/repo"; lq_active := None |}
              Scenario.s_reserved Scenario.repo Hp)
    as (rows & H1 & _ & H3).
  exists rows. split; [exact H1|]. apply H3.
  split; [left; reflexivity|]. split; [reflexivity|].
  split; [discriminate|].
  exists Scenario.amber. split; [left; reflexivity|].
  split; reflexivity.
Defined.

(** ** Generated names *)

Lemma randomElement_in (arr : list string) (r : nat) :
  arr <> [] -> In (Names.randomElement arr r) arr.
Proof.
  intros Hne. unfold Names.randomElement. apply nth_In.
  apply Nat.mod_upper_bound. destruct arr; [congruence|discriminate].
Qed.

Lemma every_adjective_noun_is_valid :
  forallb (fun adj =>
             forallb (fun noun => Names.isValidName (adj ++ noun))
                     Names.NOUNS)
          Names.ADJECTIVES = true.
Proof. vm_compute. reflexivity. Qed.

(** X11. Every name [generateName] can draw passes [isValidName]: the
    pair of any adjective and any noun of the two word lists splits back
    into that adjective and that noun. *)
Theorem generated_names_are_valid :
  forall rnd k, Names.isValidName (fst (Names.generateName rnd k)) = true.
Proof.
  intros rnd k. unfold Names.generateName. simpl.
  pose proof every_adjective_noun_is_valid as H.
  rewrite forallb_forall in H.
  specialize (H (Names.randomElement Names.ADJECTIVES (rnd k))).
  rewrite forallb_forall in H. apply H.
  - apply randomElement_in. discriminate.
  - apply randomElement_in. discriminate.
Qed.

Lemma try_random_fresh n rnd existing :
  forall k name k',
    Names.try_random n rnd k existing = (Some name, k') ->
    Names.has existing name = false.
Proof.
  induction n as [|n IH]; intros k name k' H; simpl in H; [discriminate|].
  destruct (Names.has existing
              (Names.randomElement Names.ADJECTIVES (rnd k)
               ++ Names.randomElement Names.NOUNS (rnd (S k)))) eqn:E;
    simpl in H.
  - exact (IH _ _ _ H).
  - injection H as <- _. exact E.
Qed.

Lemma suffix_loop_fresh fuel rnd existing :
  forall k name suffix result,
    Names.suffix_loop fuel rnd k name suffix existing = Some result ->
    Names.has existing result = false.
Proof.
  induction fuel as [|fuel IH]; intros k name suffix result H; simpl in H.
  - destruct (Names.has existing (name ++ Names.show suffix)) eqn:E;
      [discriminate|]. injection H as <-. exact E.
  - destruct (Names.has existing (name ++ Names.show suffix)) eqn:E.
    + destruct (suffix + 1 >? 100); exact (IH _ _ _ _ H).
    + injection H as <-. exact E.
Qed.

(** X12. The name [generateUniqueName] returns is never one of the
    existing names, on each of its three paths: the valid unused hint, a
    random draw, and the numeric fallback. *)
Theorem generateUniqueName_is_fresh :
  forall fuel rnd existing hint name,
    Names.generateUniqueName fuel rnd existing hint = Some name ->
    Names.has existing name = false.
Proof.
  intros fuel rnd existing hint name H. unfold Names.generateUniqueName in H.
  destruct hint as [h|].
  - destruct (Js.truthy h && Names.isValidName h
              && negb (Names.has existing h)) eqn:E.
    + injection H as <-. apply andb_prop in E. destruct E as [_ E].
      apply negb_true_iff in E. exact E.
    + destruct (Names.try_random 100 rnd 0 existing) as [[n|] k] eqn:Et.
      * injection H as <-. exact (try_random_fresh _ _ _ _ _ _ Et).
      * exact (suffix_loop_fresh _ _ _ _ _ _ _ H).
  - destruct (Names.try_random 100 rnd 0 existing) as [[n|] k] eqn:Et.
    + injection H as <-. exact (try_random_fresh _ _ _ _ _ _ Et).
    + exact (suffix_loop_fresh _ _ _ _ _ _ _ H).
Qed.

Lemma generateUniqueName_is_fresh_witness :
  Names.has ["AmberArrow"; "AmberArrow1"] "AmberArrow2" = false.
Proof.
  apply (generateUniqueName_is_fresh 1 Scenario.rnd0
           ["AmberArrow"; "AmberArrow1"] (Some "AmberArrow1")).
  vm_compute. reflexivity.
Defined.

Lemma has_names_find pid (l : list Agent) name :
  Names.has (map a_name (filter (fun a => a_project_id a =? pid) l)) name
  = false ->
  find (agent_named pid name) l = None.
Proof.
  intros H. apply find_none_iff. intros a Ha. unfold agent_named.
  destruct (a_project_id a =? pid) eqn:Ep; [|reflexivity]. simpl.
  destruct (String.eqb (a_name a) name) eqn:En; [|reflexivity].
  apply String.eqb_eq in En. exfalso.
  assert (Names.has (map a_name (filter (fun a => a_project_id a =? pid) l))
            name = true); [|congruence].
  unfold Names.has. apply existsb_exists. exists (a_name a). split.
  - apply in_map. apply filter_In. split; assumption.
  - rewrite En. apply String.eqb_refl.
Qed.

(** X13. A registration without a name, or with a name that does not
    follow the convention, never updates an agent: when the name
    generation ends, exactly one row is appended, under a fresh id and a
    name no agent of the project had, with the program, model and task of
    the request, and every existing row is left as it is. *)
Theorem registerAgent_without_valid_name_adds_a_row :
  forall fuel rnd now input s p r s',
    fst (getProject (reg_projectSlug input) s) = Ok p ->
    match reg_name input with
    | Some n => Names.isValidName n = false
    | None => True
    end ->
    registerAgent fuel rnd now input s = Some (r, s') ->
    exists row,
      r = Ok row
      /\ agents s' = (agents s ++ [row])%list
      /\ ~ In (a_id row) (map a_id (agents s))
      /\ a_project_id row = p_id p
      /\ find (agent_named (p_id p) (a_name row)) (agents s) = None
      /\ a_program row = reg_program input
      /\ a_model row = reg_model input
      /\ a_task_description row = or_default (reg_taskDescription input) "".
Proof.
  intros fuel rnd now input s p r s' Hp Hname H.
  unfold registerAgent in H. rewrite (getProject_eq _ _ _ Hp) in H.
  destruct (resolve_name fuel rnd input p s) as [name|] eqn:En;
    [|discriminate].
  assert (Hfresh : find (agent_named (p_id p) name) (agents s) = None).
  { apply has_names_find. unfold resolve_name in En.
    destruct (reg_name input) as [n|].
    - rewrite Hname in En. destruct (Js.truthy n);
        exact (generateUniqueName_is_fresh _ _ _ _ _ En).
    - exact (generateUniqueName_is_fresh _ _ _ _ _ En). }
  injection H as H. unfold registerAgent_named in H. rewrite Hfresh in H.
  rewrite (existsb_false_find _ _ Hfresh) in H.
  set (row := {| a_id := next_rowid (map a_id (agents s));
                 a_project_id := p_id p; a_name := name |}) in H.
  assert (Hfind : find (agent_named (p_id p) name)
                    (agents (set_agents s (agents s ++ [row])%list))
                  = Some row).
  { simpl. rewrite (find_app_none _ _ _ Hfresh). simpl.
    unfold agent_named. simpl. rewrite Z.eqb_refl, String.eqb_refl.
    reflexivity. }
  rewrite Hfind in H. injection H as <- <-.
  exists row. repeat split; try reflexivity.
  - apply next_rowid_fresh.
  - exact Hfresh.
Qed.

Lemma registerAgent_without_valid_name_adds_a_row_witness :
  exists row s',
    registerAgent 1 Scenario.rnd0 (Scenario.t0 + 1000)
      (Scenario.reg "AmberArrow1") Scenario.s_arrows
    = Some (Ok row, s')
    /\ agents s' = (agents Scenario.s_arrows ++ [row])%list.
Proof.
  destruct (registerAgent 1 Scenario.rnd0 (Scenario.t0 + 1000)
              (Scenario.reg "AmberArrow1") Scenario.s_arrows)
    as [[r s']|] eqn:E.
  - assert (Hp : fst (getProject
                        (reg_projectSlug (Scenario.reg "AmberArrow1"))
                        Scenario.s_arrows) = Ok Scenario.repo)
      by (vm_compute; reflexivity).
    assert (Hn : match reg_name (Scenario.reg "AmberArrow1") with
                 | Some n => Names.isValidName n = false
                 | None => True
                 end) by (vm_compute; reflexivity).
    destruct (registerAgent_without_valid_name_adds_a_row
                1%nat Scenario.rnd0 (Scenario.t0 + 1000)
                (Scenario.reg "AmberArrow1") Scenario.s_arrows
                Scenario.repo r s' Hp Hn E)
      as (row & Hr & Hag & _).
    exists row, s'. rewrite Hr. split; [reflexivity|exact Hag].
  - exfalso. vm_compute in E. discriminate E.
Defined.

(** ** Failures of [sendMessage] *)

Lemma getProject_err_type k s e :
  fst (getProject k s) = Err e -> err_type e = "PROJECT_NOT_FOUND".
Proof.
  unfold getProject. destruct (find _ (projects s)); simpl; intros H;
    [discriminate|]. injection H as <-. reflexivity.
Qed.

Lemma getAgent_err_type now k n s e :
  fst (getAgent now k n s) = Err e ->
  err_type e = "PROJECT_NOT_FOUND" \/ err_type e = "AGENT_NOT_FOUND".
Proof.
  unfold getAgent, bind.
  destruct (getProject k s) as [[p|e'] s0] eqn:Ep; simpl.
  - destruct (find _ (agents s0)); simpl; intros H; [discriminate|].
    injection H as <-. right. reflexivity.
  - intros H. injection H as <-. left.
    apply (getProject_err_type k s). rewrite Ep. reflexivity.
Qed.

Lemma resolve_to_err_type now k p sender to :
  forall acc s e,
    fst (resolve_to now k p sender to acc s) = Err e ->
    err_type e = "PROJECT_NOT_FOUND" \/ err_type e = "AGENT_NOT_FOUND".
Proof.
  induction to as [|name rest IH]; intros acc s e; simpl; [discriminate|].
  destruct (String.eqb (Js.toLowerCase name) "all"); [apply IH|].
  unfold bind.
  destruct (getAgent now k name s) as [[a|e'] s0] eqn:Ea; simpl.
  - apply IH.
  - intros H. injection H as <-.
    apply (getAgent_err_type now k name s). rewrite Ea. reflexivity.
Qed.

Lemma resolve_cc_err_type now k cc :
  forall acc s e,
    fst (resolve_cc now k cc acc s) = Err e ->
    err_type e = "PROJECT_NOT_FOUND" \/ err_type e = "AGENT_NOT_FOUND".
Proof.
  induction cc as [|name rest IH]; intros acc s e; simpl; [discriminate|].
  unfold bind.
  destruct (getAgent now k name s) as [[a|e'] s0] eqn:Ea; simpl.
  - apply IH.
  - intros H. injection H as <-.
    apply (getAgent_err_type now k name s). rewrite Ea. reflexivity.
Qed.

Lemma create_message_err now input p sender rs s e :
  fst (create_message now input p sender rs s) = Err e ->
  err_type e = "MESSAGE_SEND_FAILED" /\ err_recoverable e = false.
Proof.
  unfold create_message.
  destruct (insert_recipients _ rs _) as [[|] s2]; simpl; intros H;
    [discriminate|]. injection H as <-. split; reflexivity.
Qed.

Lemma status_not_found e :
  err_type e = "PROJECT_NOT_FOUND" \/ err_type e = "AGENT_NOT_FOUND" ->
  @resultResponse_status Message (Err e) = 404.
Proof. simpl. intros [-> | ->]; reflexivity. Qed.

(** X14. [sendMessage] fails in three ways only.  A project, sender or
    recipient that does not resolve gives PROJECT_NOT_FOUND or
    AGENT_NOT_FOUND, answered 404; an empty recipient list gives
    NO_RECIPIENTS, answered 400; in both cases the store differs from the
    initial one by [last_active_ts] stamps only.  A refused recipient
    insert gives MESSAGE_SEND_FAILED, not recoverable, answered 400. *)
Theorem sendMessage_failure_kinds :
  forall now input s e,
    fst (sendMessage now input s) = Err e ->
    ((err_type e = "PROJECT_NOT_FOUND" \/ err_type e = "AGENT_NOT_FOUND")
     /\ resultResponse_status (fst (sendMessage now input s)) = 404
     /\ only_touched s (snd (sendMessage now input s)))
    \/ (err_type e = "NO_RECIPIENTS"
        /\ resultResponse_status (fst (sendMessage now input s)) = 400
        /\ only_touched s (snd (sendMessage now input s)))
    \/ (err_type e = "MESSAGE_SEND_FAILED"
        /\ err_recoverable e = false
        /\ resultResponse_status (fst (sendMessage now input s)) = 400).
Proof.
  intros now input s e. unfold sendMessage, bind.
  pose proof (getProject_only_touched (sm_projectSlug input) s) as T1.
  destruct (getProject (sm_projectSlug input) s) as [[p|e1] s1] eqn:E1;
    simpl in T1.
  2:{ simpl. intros H. injection H as <-. left.
      assert (Ht : err_type e1 = "PROJECT_NOT_FOUND")
        by (apply (getProject_err_type (sm_projectSlug input) s);
            rewrite E1; reflexivity).
      split; [left; exact Ht|]. split; [rewrite Ht; reflexivity|exact T1]. }
  pose proof (getAgent_only_touched now (sm_projectSlug input)
                (sm_sender input) s1) as T2.
  destruct (getAgent now (sm_projectSlug input) (sm_sender input) s1)
    as [[sender|e2] s2] eqn:E2; simpl in T2.
  2:{ simpl. intros H. injection H as <-. left.
      assert (Ht : err_type e2 = "PROJECT_NOT_FOUND"
                   \/ err_type e2 = "AGENT_NOT_FOUND")
        by (apply (getAgent_err_type now (sm_projectSlug input)
                     (sm_sender input) s1); rewrite E2; reflexivity).
      split; [exact Ht|]. split; [exact (status_not_found _ Ht)|].
      exact (only_touched_trans _ _ _ T1 T2). }
  pose proof (only_touched_trans _ _ _ T1 T2) as T12.
  unfold sendMessage_for, bind.
  pose proof (resolve_to_only_touched now (sm_projectSlug input) p sender
                (sm_to input) [] s2) as T3.
  destruct (resolve_to now (sm_projectSlug input) p sender (sm_to input)
              [] s2) as [[rs|e3] s3] eqn:E3; simpl in T3.
  2:{ simpl. intros H. injection H as <-. left.
      assert (Ht : err_type e3 = "PROJECT_NOT_FOUND"
                   \/ err_type e3 = "AGENT_NOT_FOUND")
        by (apply (resolve_to_err_type now (sm_projectSlug input) p sender
                     (sm_to input) [] s2); rewrite E3; reflexivity).
      split; [exact Ht|]. split; [exact (status_not_found _ Ht)|].
      exact (only_touched_trans _ _ _ T12 T3). }
  pose proof (only_touched_trans _ _ _ T12 T3) as T123.
  pose proof (resolve_cc_only_touched now (sm_projectSlug input)
                (or_default (sm_cc input) []) rs s3) as T4.
  destruct (resolve_cc now (sm_projectSlug input)
              (or_default (sm_cc input) []) rs s3)
    as [[rcps|e4] s4] eqn:E4; simpl in T4.
  2:{ simpl. intros H. injection H as <-. left.
      assert (Ht : err_type e4 = "PROJECT_NOT_FOUND"
                   \/ err_type e4 = "AGENT_NOT_FOUND")
        by (apply (resolve_cc_err_type now (sm_projectSlug input)
                     (or_default (sm_cc input) []) rs s3);
            rewrite E4; reflexivity).
      split; [exact Ht|]. split; [exact (status_not_found _ Ht)|].
      exact (only_touched_trans _ _ _ T123 T4). }
  pose proof (only_touched_trans _ _ _ T123 T4) as T1234.
  destruct rcps as [|r rcps].
  - simpl. intros H. injection H as <-. right. left.
    split; [reflexivity|]. split; [reflexivity|exact T1234].
  - intros H. right. right.
    destruct (create_message_err _ _ _ _ _ _ _ H) as [Ht Hr].
    split; [exact Ht|]. split; [exact Hr|].
    rewrite H. simpl. rewrite Ht. reflexivity.
Qed.

Lemma sendMessage_failure_kinds_witness :
  exists e,
    fst (sendMessage (Scenario.t0 + 1000) Scenario.hello_ghost
           Scenario.s_agents) = Err e
    /\ resultResponse_status
         (fst (sendMessage (Scenario.t0 + 1000) Scenario.hello_ghost
                 Scenario.s_agents)) = 404.
Proof.
  set (c := sendMessage (Scenario.t0 + 1000) Scenario.hello_ghost
              Scenario.s_agents).
  assert (Hc : fst c = mkErr "AGENT_NOT_FOUND" "Agent not found: GhostOwl"
                         true None)
    by (vm_compute; reflexivity).
  destruct (sendMessage_failure_kinds (Scenario.t0 + 1000)
              Scenario.hello_ghost Scenario.s_agents _ Hc)
    as [(_ & Hs & _) | [(Ht & _) | (Ht & _)]].
  - eexists. split; [exact Hc|exact Hs].
  - discriminate Ht.
  - discriminate Ht.
Defined.

Lemma getAgent_full now k n s a :
  fst (getAgent now k n s) = Ok a ->
  getAgent now k n s = (Ok a, touch now a s).
Proof.
  intros H. destruct (getAgent_ok _ _ _ _ _ H) as (p & _ & _ & E). exact E.
Qed.

Lemma resolve_to_named now k p sender name rest acc s a :
  String.eqb (Js.toLowerCase name) "all" = false ->
  fst (getAgent now k name s) = Ok a ->
  resolve_to now k p sender (name :: rest) acc s
  = resolve_to now k p sender rest (acc ++ [recipient_of KTo a])%list
      (touch now a s).
Proof.
  intros Hali Ha. simpl. rewrite Hali. unfold bind.
  rewrite (getAgent_full _ _ _ _ _ Ha). reflexivity.
Qed.

(** X15. Naming the same agent twice in [to] does not deliver once and
    does not abort cleanly: from a reachable store the call returns
    MESSAGE_SEND_FAILED after the message row and the first recipient row
    were written, and both stay in the store (no statement is rolled
    back). *)
Theorem duplicate_recipient_leaves_partial_message :
  forall now input s p sender name r,
    reachable s ->
    fst (getProject (sm_projectSlug input) s) = Ok p ->
    fst (getAgent now (sm_projectSlug input) (sm_sender input) s)
    = Ok sender ->
    sm_to input = [name; name] ->
    or_default (sm_cc input) [] = [] ->
    Js.toLowerCase name <> "all" ->
    fst (getAgent now (sm_projectSlug input) name s) = Ok r ->
    exists e m,
      fst (sendMessage now input s) = Err e
      /\ err_type e = "MESSAGE_SEND_FAILED"
      /\ messages (snd (sendMessage now input s))
         = (messages s ++ [m])%list
      /\ m_id m = next_rowid (map m_id (messages s))
      /\ m_to_agents m = a_name r ++ "," ++ a_name r
      /\ message_recipients (snd (sendMessage now input s))
         = (message_recipients s
            ++ [{| mr_message_id := next_rowid (map m_id (messages s));
                   mr_agent_id := a_id r; mr_kind := KTo;
                   mr_read_ts := None; mr_ack_ts := None |}])%list.
Proof.
  intros now input s p sender name r Hreach Hp Hs Hto Hcc Hali Hr.
  pose proof (reachable_Inv s Hreach) as I.
  set (k := sm_projectSlug input) in *.
  assert (Hsend : sendMessage now input s
                  = sendMessage_for now input p sender (touch now sender s)).
  { unfold sendMessage, bind. fold k. rewrite (getProject_eq _ _ _ Hp).
    rewrite (getAgent_full _ _ _ _ _ Hs). reflexivity. }
  set (s1 := touch now sender s) in *.
  destruct (getAgent_after_touch now now sender k name s r Hr)
    as (r1 & Hr1 & Hid1 & Hn1 & _). fold s1 in Hr1.
  set (s2 := touch now r1 s1).
  destruct (getAgent_after_touch now now r1 k name s1 r1 Hr1)
    as (r2 & Hr2 & Hid2 & Hn2 & _). fold s2 in Hr2.
  set (s3 := touch now r2 s2).
  apply String.eqb_neq in Hali.
  assert (Hres : sendMessage_for now input p sender s1
                 = create_message now input p sender
                     [recipient_of KTo r1; recipient_of KTo r2] s3).
  { unfold sendMessage_for. fold k. rewrite Hto, Hcc. unfold bind at 1.
    rewrite (resolve_to_named now k p sender name [name] [] s1 r1 Hali Hr1).
    fold s2.
    rewrite (resolve_to_named now k p sender name [] _ s2 r2 Hali Hr2).
    reflexivity. }
  rewrite Hsend, Hres. unfold create_message.
  set (mid := next_rowid (map m_id (messages s3))).
  set (row := {| m_id := mid; m_project_id := _ |}).
  set (s4 := set_messages s3 (messages s3 ++ [row])%list).
  assert (Hfresh : existsb (fun mr => (mr_message_id mr =? mid)
                                      && (mr_agent_id mr =? a_id r1))
                     (message_recipients s4) = false).
  { apply find_none_existsb, find_none_iff. intros mr Hin.
    destruct (mr_message_id mr =? mid) eqn:E; [|reflexivity].
    apply Z.eqb_eq in E. exfalso.
    destruct (inv_recipient_message _ I mr Hin) as (m & Hm & Hmid).
    apply (next_rowid_fresh (map m_id (messages s))).
    change (next_rowid (map m_id (messages s))) with mid.
    rewrite <- E, <- Hmid. apply in_map. exact Hm. }
  assert (Hins : insert_recipients mid
                   [recipient_of KTo r1; recipient_of KTo r2] s4
                 = (false,
                    set_message_recipients s4
                      (message_recipients s4
                       ++ [recipient_record mid (recipient_of KTo r1)])%list)).
  { simpl. unfold insert_recipient at 1. simpl rcp_id. rewrite Hfresh.
    unfold insert_recipient. simpl.
    rewrite existsb_app. simpl. rewrite Hid2, !Z.eqb_refl. simpl.
    rewrite orb_true_r. reflexivity. }
  rewrite Hins. simpl.
  eexists. exists row. split; [reflexivity|]. split; [reflexivity|].
  split; [reflexivity|]. split; [reflexivity|]. split.
  - unfold row, names_of_kind. simpl. rewrite Hn2, Hn1. reflexivity.
  - unfold recipient_record. simpl. rewrite Hid1. reflexivity.
Qed.

Lemma duplicate_recipient_leaves_partial_message_witness :
  exists e,
    fst (sendMessage (Scenario.t0 + 1000)
           {| sm_projectSlug := "/repo"; sm_sender := "AmberFox";
              sm_to := ["JadeWolf"; "JadeWolf"]; sm_cc := None;
              sm_subject := "twice"; sm_bodyMd := "";
              sm_threadId := None; sm_importance := None;
              sm_ackRequired := None |} Scenario.s_agents) = Err e
    /\ err_type e = "MESSAGE_SEND_FAILED"
    /\ List.length
         (messages
            (snd (sendMessage (Scenario.t0 + 1000)
                    {| sm_projectSlug := "/repo"; sm_sender := "AmberFox";
                       sm_to := ["JadeWolf"; "JadeWolf"]; sm_cc := None;
                       sm_subject := "twice"; sm_bodyMd := "";
                       sm_threadId := None; sm_importance := None;
                       sm_ackRequired := None |} Scenario.s_agents)))
       = 1%nat.
Proof.
  set (input := {| sm_projectSlug := "/repo"; sm_sender := "AmberFox";
                   sm_to := ["JadeWolf"; "JadeWolf"]; sm_cc := None;
                   sm_subject := "twice"; sm_bodyMd := "";
                   sm_threadId := None; sm_importance := None;
                   sm_ackRequired := None |}).
  assert (Hp : fst (getProject (sm_projectSlug input) Scenario.s_agents)
               = Ok Scenario.repo) by (vm_compute; reflexivity).
  assert (Hs : fst (getAgent (Scenario.t0 + 1000) (sm_projectSlug input)
                      (sm_sender input) Scenario.s_agents)
               = Ok Scenario.amber) by (vm_compute; reflexivity).
  assert (Hr : fst (getAgent (Scenario.t0 + 1000) (sm_projectSlug input)
                      "JadeWolf" Scenario.s_agents)
               = Ok Scenario.jade) by (vm_compute; reflexivity).
  destruct (duplicate_recipient_leaves_partial_message
              (Scenario.t0 + 1000) input Scenario.s_agents
              Scenario.repo Scenario.amber "JadeWolf" Scenario.jade
              reachable_s_agents Hp Hs eq_refl eq_refl)
    as (e & m & H1 & H2 & H3 & _).
  - vm_compute. discriminate.
  - exact Hr.
  - exists e. split; [exact H1|]. split; [exact H2|].
    rewrite H3. reflexivity.
Defined.

(** ** Reading and acknowledging *)

(** X16. An agent that has no recipient row for the message cannot mark
    it read or acknowledge it: both calls return NOT_RECIPIENT
    (recoverable, answered 400) and leave every recipient row as it is. *)
Theorem only_recipients_read_and_acknowledge :
  forall now k n mid s a,
    fst (getAgent now k n s) = Ok a ->
    find (recipient_row mid (a_id a)) (message_recipients s) = None ->
    (exists e,
        markRead now k n mid s = (Err e, touch now a s)
        /\ err_type e = "NOT_RECIPIENT" /\ err_recoverable e = true
        /\ resultResponse_status (fst (markRead now k n mid s)) = 400)
    /\ (exists e,
           acknowledge now k n mid s = (Err e, touch now a s)
           /\ err_type e = "NOT_RECIPIENT" /\ err_recoverable e = true
           /\ resultResponse_status (fst (acknowledge now k n mid s)) = 400)
    /\ message_recipients (touch now a s) = message_recipients s.
Proof.
  intros now k n mid s a Ha Hf. split; [|split; [|reflexivity]].
  - rewrite (markRead_unfold now k n mid s a Ha).
    unfold markRead_for. simpl message_recipients. rewrite Hf.
    eexists. repeat split.
  - rewrite (acknowledge_unfold now k n mid s a Ha).
    unfold acknowledge_for. simpl message_recipients. rewrite Hf.
    eexists. repeat split.
Qed.

Lemma only_recipients_read_and_acknowledge_witness :
  exists e,
    markRead (Scenario.t0 + 1000) "/repo" "AmberFox" 1 Scenario.s_sent
    = (Err e, touch (Scenario.t0 + 1000) Scenario.amber Scenario.s_sent)
    /\ err_type e = "NOT_RECIPIENT".
Proof.
  assert (Ha : fst (getAgent (Scenario.t0 + 1000) "/repo" "AmberFox"
                      Scenario.s_sent) = Ok Scenario.amber)
    by (vm_compute; reflexivity).
  assert (Hf : find (recipient_row 1 (a_id Scenario.amber))
                 (message_recipients Scenario.s_sent) = None)
    by (vm_compute; reflexivity).
  destruct (only_recipients_read_and_acknowledge (Scenario.t0 + 1000)
              "/repo" "AmberFox" 1 Scenario.s_sent Scenario.amber Ha Hf)
    as [(e & H1 & H2 & _) _].
  exists e. split; [exact H1|exact H2].
Defined.

(** X17. Acknowledging implies reading: after an unread message was
    acknowledged, [markRead] at any later time returns the time of the
    acknowledgment as [readAt] and writes nothing. *)
Theorem markRead_after_acknowledge_returns_ack_time :
  forall now1 now2 k n mid s a mr,
    fst (getAgent now1 k n s) = Ok a ->
    find (recipient_row mid (a_id a)) (message_recipients s) = Some mr ->
    mr_read_ts mr = None ->
    exists s2,
      markRead now2 k n mid (snd (acknowledge now1 k n mid s))
      = (Ok {| read := true; readAt := Clock.iso_format now1 |}, s2)
      /\ message_recipients s2
         = message_recipients (snd (acknowledge now1 k n mid s)).
Proof.
  intros now1 now2 k n mid s a mr Ha Hf Hunread.
  rewrite (acknowledge_unfold now1 k n mid s a Ha).
  rewrite (acknowledge_for_eq now1 a mid (touch now1 a s) mr Hf).
  simpl snd. set (s1 := set_message_recipients _ _).
  destruct (getAgent_after_touch now1 now2 a k n s a) as (a' & Ha' & Hid & _).
  { rewrite <- Ha. apply getAgent_same_tables; reflexivity. }
  assert (Ha1 : fst (getAgent now2 k n s1) = Ok a').
  { rewrite <- Ha'. apply getAgent_same_tables; reflexivity. }
  assert (Hf1 : find (recipient_row mid (a_id a')) (message_recipients s1)
                = Some (set_ack (Clock.iso_format now1) mr)).
  { rewrite Hid. apply find_recipient_updated; [reflexivity|exact Hf]. }
  exists (touch now2 a' s1). split; [|reflexivity].
  rewrite (markRead_unfold now2 k n mid s1 a' Ha1).
  apply (markRead_for_already_read now2 a' mid (touch now2 a' s1)
           (set_ack (Clock.iso_format now1) mr) (Clock.iso_format now1)).
  - exact Hf1.
  - simpl. rewrite Hunread. reflexivity.
  - apply truthy_iso_format.
Qed.

Lemma markRead_after_acknowledge_returns_ack_time_witness :
  exists s2,
    markRead (Scenario.t0 + 9000) "/repo" "JadeWolf" 1
      (snd (acknowledge (Scenario.t0 + 5000) "/repo" "JadeWolf" 1
              Scenario.s_sent))
    = (Ok {| read := true;
             readAt := Clock.iso_format (Scenario.t0 + 5000) |}, s2).
Proof.
  assert (Ha : fst (getAgent (Scenario.t0 + 5000) "/repo" "JadeWolf"
                      Scenario.s_sent) = Ok Scenario.jade)
    by (vm_compute; reflexivity).
  assert (Hf : find (recipient_row 1 (a_id Scenario.jade))
                 (message_recipients Scenario.s_sent)
               = Some Scenario.jade_recipient)
    by (vm_compute; reflexivity).
  destruct (markRead_after_acknowledge_returns_ack_time
              (Scenario.t0 + 5000) (Scenario.t0 + 9000) "/repo" "JadeWolf" 1
              Scenario.s_sent Scenario.jade Scenario.jade_recipient
              Ha Hf eq_refl) as (s2 & H & _).
  exists s2. exact H.
Defined.

(** ** Lookups as liveness signals *)

(** X18. A successful [getAgent] returns the row as it was before the
    call: the [last_active_ts] it carries is the previous one, while the
    stored row, found again under the same name, carries the time of the
    call; nothing else in the store changes. *)
Theorem getAgent_returns_row_before_stamp :
  forall now k n s a,
    fst (getAgent now k n s) = Ok a ->
    exists p,
      fst (getProject k s) = Ok p
      /\ In a (agents s)
      /\ find (agent_named (p_id p) n) (agents (snd (getAgent now k n s)))
         = Some (set_last_active (Clock.sqlite_datetime now) a)
      /\ only_touched s (snd (getAgent now k n s)).
Proof.
  intros now k n s a Ha.
  destruct (getAgent_ok _ _ _ _ _ Ha) as (p & Hp & Hf & E).
  exists p. split; [exact Hp|]. split; [exact (proj1 (find_some _ _ Hf))|].
  rewrite E. simpl snd. split; [|apply only_touched_touch].
  rewrite find_agent_touch, Hf. simpl. rewrite Z.eqb_refl. reflexivity.
Qed.

Lemma getAgent_returns_row_before_stamp_witness :
  fst (getAgent (Scenario.t0 + 7000) "/repo" "JadeWolf" Scenario.s_agents)
  = Ok Scenario.jade
  /\ a_last_active_ts Scenario.jade = "2026-11-02 05:00:00"
  /\ find (agent_named 1 "JadeWolf")
       (agents (snd (getAgent (Scenario.t0 + 7000) "/repo" "JadeWolf"
                       Scenario.s_agents)))
     = Some (set_last_active "2026-11-02 05:00:07" Scenario.jade).
Proof.
  assert (Ha : fst (getAgent (Scenario.t0 + 7000) "/repo" "JadeWolf"
                      Scenario.s_agents) = Ok Scenario.jade)
    by (vm_compute; reflexivity).
  destruct (getAgent_returns_row_before_stamp (Scenario.t0 + 7000) "/repo"
              "JadeWolf" Scenario.s_agents Scenario.jade Ha)
    as (p & Hp & _ & Hf & _).
  assert (p = Scenario.repo).
  { assert (E : fst (getProject "/repo" Scenario.s_agents)
                = Ok Scenario.repo) by (vm_compute; reflexivity).
    congruence. }
  subst p. split; [exact Ha|]. split; [reflexivity|]. exact Hf.
Defined.

(** ** Delivery *)

Lemma find_inserted_message (l : list Message) row :
  m_id row = next_rowid (map m_id l) ->
  find (fun m => m_id m =? next_rowid (map m_id l)) (l ++ [row])%list
  = Some row.
Proof.
  intros Hid. rewrite find_app_none.
  - simpl. rewrite Hid, Z.eqb_refl. reflexivity.
  - apply find_none_iff. intros m Hm. apply Z.eqb_neq. intros E.
    apply (next_rowid_fresh (map m_id l)). rewrite <- E.
    apply in_map. exact Hm.
Qed.

(** A send to one named agent, from a reachable store: the message row,
    the store it leaves and the recipient row. *)
Lemma send_to_one now input s p sender name r :
  reachable s ->
  fst (getProject (sm_projectSlug input) s) = Ok p ->
  fst (getAgent now (sm_projectSlug input) (sm_sender input) s) = Ok sender ->
  sm_to input = [name] ->
  or_default (sm_cc input) [] = [] ->
  Js.toLowerCase name <> "all" ->
  fst (getAgent now (sm_projectSlug input) name s) = Ok r ->
  exists r1,
    a_id r1 = a_id r /\ a_name r1 = a_name r
    /\ fst (getAgent now (sm_projectSlug input) name (touch now sender s))
       = Ok r1
    /\ let mid := next_rowid (map m_id (messages s)) in
       let row :=
         {| m_id := mid; m_project_id := p_id p; m_sender_id := a_id sender;
            m_thread_id := sm_threadId input;
            m_subject := sm_subject input; m_body_md := sm_bodyMd input;
            m_to_agents := a_name r; m_cc_agents := "";
            m_importance := or_default (sm_importance input) Normal;
            m_ack_required :=
              if or_default (sm_ackRequired input) false then 1 else 0;
            m_created_ts := Clock.sqlite_datetime now |} in
       let s2 := touch now r1 (touch now sender s) in
       sendMessage now input s
       = (Ok row,
          set_message_recipients
            (set_messages s2 (messages s ++ [row])%list)
            (message_recipients s
             ++ [{| mr_message_id := mid; mr_agent_id := a_id r;
                    mr_kind := KTo; mr_read_ts := None;
                    mr_ack_ts := None |}])%list).
Proof.
  intros Hreach Hp Hs Hto Hcc Hali Hr.
  pose proof (reachable_Inv s Hreach) as I.
  set (k := sm_projectSlug input) in *.
  destruct (getAgent_after_touch now now sender k name s r Hr)
    as (r1 & Hr1 & Hid1 & Hn1 & _).
  exists r1. split; [exact Hid1|]. split; [exact Hn1|].
  split; [exact Hr1|]. cbv zeta.
  apply String.eqb_neq in Hali.
  unfold sendMessage, bind. fold k. rewrite (getProject_eq _ _ _ Hp).
  rewrite (getAgent_full _ _ _ _ _ Hs).
  unfold sendMessage_for. fold k. rewrite Hto, Hcc. unfold bind at 1.
  rewrite (resolve_to_named now k p sender name [] []
             (touch now sender s) r1 Hali Hr1).
  simpl resolve_to. unfold ret, bind. simpl resolve_cc. unfold ret.
  simpl app. unfold create_message.
  set (s2 := touch now r1 (touch now sender s)).
  change (messages s2) with (messages s).
  set (mid := next_rowid (map m_id (messages s))).
  assert (Hfresh : existsb (fun mr => (mr_message_id mr =? mid)
                                      && (mr_agent_id mr =? a_id r1))
                     (message_recipients s) = false).
  { apply find_none_existsb, find_none_iff. intros mr Hin.
    destruct (mr_message_id mr =? mid) eqn:E; [|reflexivity].
    apply Z.eqb_eq in E. exfalso.
    destruct (inv_recipient_message _ I mr Hin) as (m & Hm & Hmid).
    apply (next_rowid_fresh (map m_id (messages s))). fold mid.
    rewrite <- E, <- Hmid. apply in_map. exact Hm. }
  simpl insert_recipients. unfold insert_recipient. simpl rcp_id.
  simpl message_recipients. rewrite Hfresh. simpl messages.
  unfold mid. rewrite find_inserted_message by reflexivity. fold mid.
  unfold names_of_kind, recipient_record. simpl.
  rewrite Hn1, Hid1. reflexivity.
Qed.

(** X19. A message sent to one named agent reaches that agent's inbox:
    from a reachable store the send succeeds, and the recipient's inbox,
    fetched at any later time with the unread filter on, holds the
    message with the sender's name and with [read_ts] and [ack_ts]
    NULL. *)
Theorem sent_message_reaches_inbox :
  forall now now2 input s p sender name r,
    reachable s ->
    fst (getProject (sm_projectSlug input) s) = Ok p ->
    fst (getAgent now (sm_projectSlug input) (sm_sender input) s)
    = Ok sender ->
    sm_to input = [name] ->
    or_default (sm_cc input) [] = [] ->
    Js.toLowerCase name <> "all" ->
    fst (getAgent now (sm_projectSlug input) name s) = Ok r ->
    exists m inbox,
      fst (sendMessage now input s) = Ok m
      /\ m_subject m = sm_subject input
      /\ m_body_md m = sm_bodyMd input
      /\ fst (fetchInbox now2
                {| iq_projectSlug := sm_projectSlug input;
                   iq_agentName := name; iq_limit := None;
                   iq_urgent := None; iq_unread := Some true;
                   iq_since := None |}
                (snd (sendMessage now input s))) = Ok inbox
      /\ In {| im_message := m; im_sender_name := a_name sender;
               im_read_ts := None; im_ack_ts := None |} inbox.
Proof.
  intros now now2 input s p sender name r Hreach Hp Hs Hto Hcc Hali Hr.
  destruct (send_to_one now input s p sender name r
              Hreach Hp Hs Hto Hcc Hali Hr)
    as (r1 & Hid1 & Hn1 & Hr1 & Hsend).
  cbv zeta in Hsend. rewrite Hsend. simpl fst. simpl snd.
  set (k := sm_projectSlug input) in *.
  set (mid := next_rowid (map m_id (messages s))) in *.
  set (row := {| m_id := mid; m_project_id := _ |}) in *.
  set (rec := {| mr_message_id := mid; mr_agent_id := _ |}) in *.
  set (s2 := touch now r1 (touch now sender s)) in *.
  set (s' := set_message_recipients _ _).
  assert (Hp' : fst (getProject k s') = Ok p).
  { rewrite <- Hp. apply getProject_same_projects. reflexivity. }
  destruct (getAgent_after_touch now now2 r1 k name (touch now sender s) r1)
    as (r2 & Hr2 & Hid2 & _).
  { rewrite <- Hr1. apply getAgent_same_tables; reflexivity. }
  assert (Hr' : fst (getAgent now2 k name s') = Ok r2).
  { rewrite <- Hr2. apply getAgent_same_tables; reflexivity. }
  exists row. eexists. split; [reflexivity|]. split; [reflexivity|].
  split; [reflexivity|]. split.
  - unfold fetchInbox, bind. simpl iq_projectSlug. simpl iq_agentName.
    rewrite (getProject_eq _ _ _ Hp'). rewrite (getAgent_full _ _ _ _ _ Hr').
    reflexivity.
  - unfold apply_limit. simpl. apply order_by_desc_in.
    unfold inbox_rows. apply in_flat_map. exists row. split.
    { simpl. apply in_or_app. right. left. reflexivity. }
    apply in_flat_map. exists rec. split.
    { simpl. apply in_or_app. right. left. reflexivity. }
    assert (Hc : (m_id row =? mr_message_id rec)
                 && inbox_where
                      {| iq_projectSlug := k; iq_agentName := name;
                         iq_limit := None; iq_urgent := None;
                         iq_unread := Some true; iq_since := None |}
                      p r2 row rec = true).
    { unfold inbox_where. simpl. rewrite Hid2, Hid1, !Z.eqb_refl.
      reflexivity. }
    rewrite Hc.
    destruct (getAgent_ok _ _ _ _ _ Hs) as (p0 & _ & Hfs & _).
    destruct (find_some _ _ Hfs) as [Hin _].
    destruct (in_agents_touch now sender s sender Hin)
      as (x1 & Hx1 & Hi1 & Hm1 & _).
    destruct (in_agents_touch now r1 (touch now sender s) x1 Hx1)
      as (x2 & Hx2 & Hi2 & Hm2 & _).
    assert (Hx2' : In x2 (agents s')) by exact Hx2.
    destruct (in_agents_touch now2 r2 s' x2 Hx2')
      as (x3 & Hx3 & Hi3 & Hm3 & _).
    apply in_map_iff. exists x3. split.
    + rewrite Hm3, Hm2, Hm1. reflexivity.
    + apply filter_In. split; [exact Hx3|].
      simpl. rewrite Hi3, Hi2, Hi1. apply Z.eqb_refl.
Qed.

Lemma sent_message_reaches_inbox_witness :
  exists m inbox,
    fst (sendMessage Scenario.t0 Scenario.hello Scenario.s_agents) = Ok m
    /\ fst (fetchInbox (Scenario.t0 + 3000)
              {| iq_projectSlug := "/repo"; iq_agentName := "JadeWolf";
                 iq_limit := None; iq_urgent := None;
                 iq_unread := Some true; iq_since := None |}
              (snd (sendMessage Scenario.t0 Scenario.hello
                      Scenario.s_agents))) = Ok inbox
    /\ In {| im_message := m; im_sender_name := "AmberFox";
             im_read_ts := None; im_ack_ts := None |} inbox.
Proof.
  assert (Hp : fst (getProject (sm_projectSlug Scenario.hello)
                      Scenario.s_agents) = Ok Scenario.repo)
    by (vm_compute; reflexivity).
  assert (Hs : fst (getAgent Scenario.t0 (sm_projectSlug Scenario.hello)
                      (sm_sender Scenario.hello) Scenario.s_agents)
               = Ok Scenario.amber) by (vm_compute; reflexivity).
  assert (Hr : fst (getAgent Scenario.t0 (sm_projectSlug Scenario.hello)
                      "JadeWolf" Scenario.s_agents)
               = Ok Scenario.jade) by (vm_compute; reflexivity).
  destruct (sent_message_reaches_inbox Scenario.t0 (Scenario.t0 + 3000)
              Scenario.hello Scenario.s_agents Scenario.repo Scenario.amber
              "JadeWolf" Scenario.jade reachable_s_agents Hp Hs
              eq_refl eq_refl)
    as (m & inbox & H1 & _ & _ & H4 & H5).
  - vm_compute. discriminate.
  - exact Hr.
  - exists m, inbox. split; [exact H1|]. split; [exact H4|exact H5].
Defined.

Lemma flat_map_nil {A B} (f : A -> list B) (l : list A) :
  (forall x, In x l -> f x = []) -> flat_map f l = [].
Proof.
  intros H. induction l as [|x l IH]; simpl; [reflexivity|].
  rewrite (H x (or_introl eq_refl)). apply IH.
  intros y Hy. apply H. right. exact Hy.
Qed.

Lemma filter_by_id_unique (l : list Agent) (b : Agent) :
  NoDup (map a_id l) -> In b l ->
  filter (fun a => a_id b =? a_id a) l = [b].
Proof.
  induction l as [|x l IH]; simpl; intros Hnd Hin; [contradiction|].
  inversion Hnd as [|? ? Hx Hnd']; subst.
  destruct Hin as [->|Hin].
  - rewrite Z.eqb_refl. f_equal. apply filter_none. intros y Hy.
    apply Z.eqb_neq. intros E. apply Hx. rewrite E. apply in_map. exact Hy.
  - destruct (a_id b =? a_id x) eqn:E.
    + apply Z.eqb_eq in E. exfalso. apply Hx. rewrite <- E.
      apply in_map. exact Hin.
    + apply IH; assumption.
Qed.

(** The rows a touch leaves under one id: the rows there were, stamped
    or not. *)
Lemma filter_by_id_touch now b s k :
  filter (fun a => k =? a_id a) (agents (touch now b s))
  = map (fun a => if a_id a =? a_id b
                  then set_last_active (Clock.sqlite_datetime now) a else a)
        (filter (fun a => k =? a_id a) (agents s)).
Proof.
  unfold touch, update_where; simpl.
  induction (agents s) as [|x l IH]; simpl; [reflexivity|].
  assert (E : a_id (if a_id x =? a_id b
                    then set_last_active (Clock.sqlite_datetime now) x
                    else x) = a_id x)
    by (destruct (a_id x =? a_id b); reflexivity).
  rewrite E. destruct (k =? a_id x); simpl; [f_equal|]; exact IH.
Qed.

(** The sender of a message, joined by id after the stamps of a send. *)
Lemma sender_after_stamps now r1 sender s :
  NoDup (map a_id (agents s)) -> In sender (agents s) ->
  exists x,
    filter (fun a => a_id sender =? a_id a)
           (agents (touch now r1 (touch now sender s))) = [x]
    /\ a_name x = a_name sender.
Proof.
  intros Hnd Hin. rewrite !filter_by_id_touch.
  rewrite (filter_by_id_unique _ _ Hnd Hin). simpl.
  eexists. split; [reflexivity|].
  rewrite Z.eqb_refl. simpl. destruct (_ =? a_id r1); reflexivity.
Qed.

(** X20. A message sent to one named agent can be read back: from a
    reachable store, [getMessage] on the id of the returned message gives
    that message with the sender's name, and the sender's outbox, fetched
    at any later time, holds it. *)
Theorem sent_message_is_in_outbox_and_by_id :
  forall now now2 input s p sender name r,
    reachable s ->
    fst (getProject (sm_projectSlug input) s) = Ok p ->
    fst (getAgent now (sm_projectSlug input) (sm_sender input) s)
    = Ok sender ->
    sm_to input = [name] ->
    or_default (sm_cc input) [] = [] ->
    Js.toLowerCase name <> "all" ->
    fst (getAgent now (sm_projectSlug input) name s) = Ok r ->
    exists m outbox,
      fst (sendMessage now input s) = Ok m
      /\ fst (getMessage (m_id m) (snd (sendMessage now input s)))
         = Ok {| mws_message := m; mws_sender_name := a_name sender |}
      /\ fst (fetchOutbox now2
                {| oq_projectSlug := sm_projectSlug input;
                   oq_agentName := sm_sender input; oq_limit := None |}
                (snd (sendMessage now input s))) = Ok outbox
      /\ In {| mws_message := m; mws_sender_name := a_name sender |} outbox.
Proof.
  intros now now2 input s p sender name r Hreach Hp Hs Hto Hcc Hali Hr.
  pose proof (reachable_Inv s Hreach) as I.
  destruct (send_to_one now input s p sender name r
              Hreach Hp Hs Hto Hcc Hali Hr)
    as (r1 & Hid1 & Hn1 & Hr1 & Hsend).
  cbv zeta in Hsend. rewrite Hsend. simpl fst. simpl snd.
  set (k := sm_projectSlug input) in *.
  set (mid := next_rowid (map m_id (messages s))) in *.
  set (row := {| m_id := mid; m_project_id := _ |}) in *.
  set (s2 := touch now r1 (touch now sender s)) in *.
  set (s' := set_message_recipients _ _).
  destruct (getAgent_ok _ _ _ _ _ Hs) as (p0 & Hp0 & Hfs & _).
  assert (p0 = p) by congruence. subst p0.
  destruct (find_some _ _ Hfs) as [Hin Hnamed].
  destruct (sender_after_stamps now r1 sender s (inv_agent_ids _ I) Hin)
    as (x & Hx & Hxname).
  assert (Hp' : fst (getProject k s') = Ok p).
  { rewrite <- Hp. apply getProject_same_projects. reflexivity. }
  destruct (getAgent_after_touch now now sender k (sm_sender input) s sender Hs)
    as (q1 & Hq1 & Hqi1 & _).
  destruct (getAgent_after_touch now now2 r1 k (sm_sender input)
              (touch now sender s) q1)
    as (q2 & Hq2 & Hqi2 & _).
  { rewrite <- Hq1. apply getAgent_same_tables; reflexivity. }
  assert (Hs' : fst (getAgent now2 k (sm_sender input) s') = Ok q2).
  { rewrite <- Hq2. apply getAgent_same_tables; reflexivity. }
  exists row. eexists. split; [reflexivity|]. split; [|split].
  - unfold getMessage, with_sender.
    change (messages s') with (messages s ++ [row])%list.
    change (agents s') with (agents s2).
    rewrite flat_map_app, flat_map_nil.
    + cbn [flat_map app]. rewrite Z.eqb_refl.
      change (m_sender_id row) with (a_id sender).
      unfold s2. rewrite Hx. cbn [map app fst].
      rewrite Hxname. reflexivity.
    + intros m Hm. cbv beta.
      destruct (m_id m =? m_id row) eqn:E; [|reflexivity].
      apply Z.eqb_eq in E. exfalso.
      apply (next_rowid_fresh (map m_id (messages s))).
      change (next_rowid (map m_id (messages s))) with (m_id row).
      rewrite <- E. apply in_map. exact Hm.
  - unfold fetchOutbox, bind. simpl oq_projectSlug. simpl oq_agentName.
    rewrite (getProject_eq _ _ _ Hp'), (getAgent_full _ _ _ _ _ Hs').
    reflexivity.
  - unfold apply_limit. cbn [oq_limit]. apply order_by_desc_in.
    unfold with_sender. apply in_flat_map. exists row. split.
    { change (In row (messages s ++ [row])%list).
      apply in_or_app. right. left. reflexivity. }
    cbv beta.
    change (m_sender_id row) with (a_id sender).
    change (m_project_id row) with (p_id p).
    rewrite Hqi2, Hqi1, !Z.eqb_refl. cbn [andb].
    rewrite filter_by_id_touch.
    change (agents s') with (agents s2). unfold s2. rewrite Hx.
    cbn [map]. left. f_equal.
    destruct (a_id x =? a_id q2); simpl; exact Hxname.
Qed.

Lemma sent_message_is_in_outbox_and_by_id_witness :
  exists m,
    fst (sendMessage Scenario.t0 Scenario.hello Scenario.s_agents) = Ok m
    /\ fst (getMessage (m_id m)
              (snd (sendMessage Scenario.t0 Scenario.hello
                      Scenario.s_agents)))
       = Ok {| mws_message := m; mws_sender_name := "AmberFox" |}.
Proof.
  assert (Hp : fst (getProject (sm_projectSlug Scenario.hello)
                      Scenario.s_agents) = Ok Scenario.repo)
    by (vm_compute; reflexivity).
  assert (Hs : fst (getAgent Scenario.t0 (sm_projectSlug Scenario.hello)
                      (sm_sender Scenario.hello) Scenario.s_agents)
               = Ok Scenario.amber) by (vm_compute; reflexivity).
  assert (Hr : fst (getAgent Scenario.t0 (sm_projectSlug Scenario.hello)
                      "JadeWolf" Scenario.s_agents)
               = Ok Scenario.jade) by (vm_compute; reflexivity).
  destruct (sent_message_is_in_outbox_and_by_id Scenario.t0
              (Scenario.t0 + 3000)
              Scenario.hello Scenario.s_agents Scenario.repo Scenario.amber
              "JadeWolf" Scenario.jade reachable_s_agents Hp Hs
              eq_refl eq_refl)
    as (m & outbox & H1 & H2 & _).
  - vm_compute. discriminate.
  - exact Hr.
  - exists m. split; [exact H1|exact H2].
Defined.

(** What a call of [ensureProject] returns from a reachable store: a row
    of the resulting table that the lookup for the key matches; a row
    appended under the key itself when the lookup had found nothing. *)
Lemma ensureProject_result now k s :
  reachable s ->
  exists p s1,
    ensureProject now k s = (Ok p, s1)
    /\ In p (projects s1)
    /\ project_matches k p = true
    /\ (find (project_matches k) (projects s) = None ->
        p_human_key p = k /\ projects s1 = (projects s ++ [p])%list).
Proof.
  intros Hreach.
  destruct (find (project_matches k) (projects s)) as [e|] eqn:Ef.
  - exists e, s. unfold ensureProject. fold (project_matches k).
    rewrite Ef. destruct (find_some _ _ Ef) as [Hin Hm].
    split; [reflexivity|]. split; [exact Hin|]. split; [exact Hm|].
    discriminate.
  - pose proof (ensureProject_create_fresh now k s Ef) as Hc.
    cbv zeta in Hc.
    set (row := {| p_id := next_rowid _; p_slug := _ |}) in Hc.
    exists row, (set_projects s (projects s ++ [row])%list).
    unfold ensureProject. fold (project_matches k). rewrite Ef.
    split; [exact Hc|]. split.
    { simpl. apply in_or_app. right. left. reflexivity. }
    split.
    { unfold project_matches. simpl. rewrite String.eqb_refl. reflexivity. }
    intros _. split; reflexivity.
Qed.

(** X21. Projects are identified by slug.  From a reachable store, a call
    of [ensureProject] for a key whose slug equals the slug of the key of
    an earlier call returns the row of the earlier call and writes
    nothing, whether or not the two keys are equal: when the earlier call
    created the row, the row returned for the second key carries the
    first key. *)
Theorem ensureProject_identifies_projects_by_slug :
  forall now1 now2 k1 k2 s,
    reachable s ->
    Slug.projectSlug k2 = Slug.projectSlug k1 ->
    exists p s1,
      ensureProject now1 k1 s = (Ok p, s1)
      /\ ensureProject now2 k2 s1 = (Ok p, s1)
      /\ (find (project_matches k1) (projects s) = None ->
          p_human_key p = k1).
Proof.
  intros now1 now2 k1 k2 s Hreach Hslug.
  destruct (ensureProject_result now1 k1 s Hreach)
    as (p & s1 & He & Hin & Hm & Hnew).
  exists p, s1. split; [exact He|]. split; [|intros Hn; apply Hnew, Hn].
  assert (Hreach1 : reachable s1).
  { apply (reachable_step s s1 Hreach).
    apply (step_of_ensureProject now1 k1). rewrite He. reflexivity. }
  pose proof (reachable_Inv s1 Hreach1) as I.
  assert (Hs : forall k q, In q (projects s1) ->
                           project_matches k q = true ->
                           p_slug q = Slug.projectSlug k).
  { intros k q Hq Hmq. unfold project_matches in Hmq.
    apply orb_prop in Hmq. destruct Hmq as [Hk|Hk];
      apply String.eqb_eq in Hk; [|exact Hk].
    rewrite (inv_project_slug_of_key _ I q Hq), Hk. reflexivity. }
  assert (Hm2 : project_matches k2 p = true).
  { unfold project_matches. rewrite Hslug, <- (Hs k1 p Hin Hm).
    rewrite String.eqb_refl. apply orb_true_r. }
  unfold ensureProject. fold (project_matches k2).
  destruct (find (project_matches k2) (projects s1)) as [q|] eqn:Ef.
  - destruct (find_some _ _ Ef) as [Hq Hmq].
    assert (q = p).
    { apply (NoDup_map_inj_in p_slug (projects s1));
        [exact (inv_project_slugs _ I)|exact Hq|exact Hin|].
      rewrite (Hs k2 q Hq Hmq), (Hs k1 p Hin Hm). exact Hslug. }
    subst q. reflexivity.
  - exfalso. pose proof (find_none _ _ Ef p Hin) as Hc.
    rewrite Hm2 in Hc. discriminate.
Qed.

Lemma ensureProject_identifies_projects_by_slug_witness :
  exists p s1,
    ensureProject 0 "/Aa/x/y" empty_store = (Ok p, s1)
    /\ ensureProject 1 "/BB/x/y" s1 = (Ok p, s1)
    /\ p_human_key p = "/Aa/x/y".
Proof.
  assert (Hslug : Slug.projectSlug "/BB/x/y" = Slug.projectSlug "/Aa/x/y")
    by (vm_compute; reflexivity).
  destruct (ensureProject_identifies_projects_by_slug 0 1 "/Aa/x/y" "/BB/x/y"
              empty_store reachable_empty Hslug)
    as (p & s1 & H1 & H2 & H3).
  exists p, s1. split; [exact H1|]. split; [exact H2|].
  apply H3. reflexivity.
Defined.

(** ** Slugs (src/utils/slug.ts) *)

Lemma drop_hyphens_cons c r :
  Slug.drop_hyphens (String c r)
  = if Ascii.eqb c "-" then Slug.drop_hyphens r else String c r.
Proof. destruct c as [[] [] [] [] [] [] [] []]; reflexivity. Qed.

Lemma all_chars_replace_runs b s :
  all_chars slug_char (Slug.replace_runs b s) = true.
Proof.
  revert b. induction s as [|c r IH]; intros b; simpl; [reflexivity|].
  destruct (Slug.is_alnum c) eqn:E.
  - simpl. unfold slug_char at 1. rewrite E. simpl. apply IH.
  - destruct b; [apply IH|]. simpl. apply IH.
Qed.

Lemma all_chars_drop_hyphens p s :
  all_chars p s = true -> all_chars p (Slug.drop_hyphens s) = true.
Proof.
  induction s as [|c r IH]; intros H; [exact H|].
  rewrite drop_hyphens_cons. destruct (Ascii.eqb c "-"); [|exact H].
  simpl in H. apply andb_prop in H. apply IH, H.
Qed.

Lemma all_chars_rev_string p s acc :
  all_chars p (Slug.rev_string s acc) = all_chars p s && all_chars p acc.
Proof.
  revert acc. induction s as [|c r IH]; intros acc; simpl; [reflexivity|].
  rewrite IH. simpl. destruct (p c), (all_chars p r); reflexivity.
Qed.

Lemma all_chars_substring p n m s :
  all_chars p s = true -> all_chars p (String.substring n m s) = true.
Proof.
  revert n m. induction s as [|c r IH]; intros n m H.
  - destruct n, m; reflexivity.
  - simpl in H. apply andb_prop in H. destruct H as [Hc Hr].
    destruct n; simpl.
    + destruct m; simpl; [reflexivity|]. rewrite Hc. apply IH, Hr.
    + apply IH, Hr.
Qed.

Lemma length_substring_0 m s :
  (String.length (String.substring 0 m s) <= m)%nat.
Proof.
  revert s. induction m as [|m IH]; intros s; destruct s; simpl; try lia.
  specialize (IH s). lia.
Qed.

Lemma rev_string_snoc x c acc :
  Slug.rev_string (x ++ String c "") acc = String c (Slug.rev_string x acc).
Proof.
  revert acc. induction x as [|d x IH]; intros acc; simpl; [reflexivity|].
  apply IH.
Qed.

Lemma string_app_assoc (a b c : string) :
  ((a ++ b) ++ c = a ++ (b ++ c))%string.
Proof. induction a as [|x a IH]; simpl; [reflexivity|]. now rewrite IH. Qed.

Lemma rev_string_acc s acc :
  Slug.rev_string s acc = (Slug.rev_string s "" ++ acc)%string.
Proof.
  revert acc. induction s as [|c r IH]; intros acc; simpl; [reflexivity|].
  rewrite (IH (String c acc)), (IH (String c "")).
  rewrite string_app_assoc. reflexivity.
Qed.

Lemma drop_hyphens_snoc x c :
  Ascii.eqb c "-" = false ->
  Slug.drop_hyphens (x ++ String c "")
  = (Slug.drop_hyphens x ++ String c "")%string.
Proof.
  intros Hc. induction x as [|d x IH].
  - simpl String.append. rewrite drop_hyphens_cons, Hc. reflexivity.
  - change (String d x ++ String c "")%string
      with (String d (x ++ String c "")).
    rewrite !drop_hyphens_cons. destruct (Ascii.eqb d "-"); [exact IH|].
    reflexivity.
Qed.

(** The trimmed string is empty or begins with the first character that
    is left once the leading hyphens are gone, which is no hyphen. *)
Lemma trim_hyphens_head s :
  Slug.drop_hyphens s = "" /\ Slug.trim_hyphens s = ""
  \/ exists c r r',
       Slug.drop_hyphens s = String c r
       /\ Ascii.eqb c "-" = false
       /\ Slug.trim_hyphens s = String c r'.
Proof.
  unfold Slug.trim_hyphens.
  assert (H : forall s, Slug.drop_hyphens s = ""
                        \/ exists c r, Slug.drop_hyphens s = String c r
                                       /\ Ascii.eqb c "-" = false).
  { clear s. induction s as [|c r IH]; [left; reflexivity|].
    rewrite drop_hyphens_cons. destruct (Ascii.eqb c "-") eqn:E;
      [exact IH|]. right. exists c, r. split; [reflexivity|exact E]. }
  destruct (H s) as [E|(c & r & E & Hc)].
  - left. rewrite E. split; reflexivity.
  - right. exists c, r. eexists. split; [exact E|]. split; [exact Hc|].
    rewrite E. simpl Slug.rev_string at 2.
    rewrite (rev_string_acc r (String c "")).
    rewrite (drop_hyphens_snoc _ _ Hc), rev_string_snoc. reflexivity.
Qed.

(** X22. [slugify] gives URL-safe text for any input: every character of
    the result is a lower-case letter, a digit or a hyphen, the result
    has at most 64 characters, and it does not begin with a hyphen. *)
Theorem slugify_is_url_safe :
  forall input,
    all_chars slug_char (Slug.slugify input) = true
    /\ (String.length (Slug.slugify input) <= 64)%nat
    /\ forall rest, Slug.slugify input <> String "-" rest.
Proof.
  intros input. unfold Slug.slugify.
  set (t := Slug.replace_runs false (Js.toLowerCase input)).
  split; [|split].
  - apply all_chars_substring. unfold Slug.trim_hyphens.
    rewrite all_chars_rev_string. simpl. rewrite andb_true_r.
    apply all_chars_drop_hyphens. rewrite all_chars_rev_string. simpl.
    rewrite andb_true_r. apply all_chars_drop_hyphens.
    apply all_chars_replace_runs.
  - apply length_substring_0.
  - intros rest.
    destruct (trim_hyphens_head t) as [[_ E]|(c & r & r' & _ & Hc & E)];
      rewrite E.
    + discriminate.
    + simpl. intros H. injection H as H _. subst c. discriminate.
Qed.

Lemma all_chars_app p a b :
  all_chars p (a ++ b) = all_chars p a && all_chars p b.
Proof.
  induction a as [|c a IH]; simpl; [reflexivity|].
  rewrite IH. apply andb_assoc.
Qed.

Lemma toLowerCase_app a b :
  Js.toLowerCase (a ++ b) = (Js.toLowerCase a ++ Js.toLowerCase b)%string.
Proof. induction a as [|c a IH]; simpl; [reflexivity|]. now rewrite IH. Qed.

Lemma drop_hyphens_empty s :
  Slug.drop_hyphens s = "" ->
  all_chars (fun c => Ascii.eqb c "-") s = true.
Proof.
  induction s as [|c r IH]; [reflexivity|].
  rewrite drop_hyphens_cons. simpl.
  destruct (Ascii.eqb c "-"); [exact IH|discriminate].
Qed.

(** A replaced string made of hyphens only comes from a string without
    letters and digits. *)
Lemma replace_runs_hyphens_only b s :
  all_chars (fun c => Ascii.eqb c "-") (Slug.replace_runs b s) = true ->
  all_chars (fun c => negb (Slug.is_alnum c)) s = true.
Proof.
  revert b. induction s as [|c r IH]; intros b; simpl; [reflexivity|].
  destruct (Slug.is_alnum c) eqn:E.
  - simpl. intros H. apply andb_prop in H. destruct H as [Hc _].
    apply Ascii.eqb_eq in Hc. subst c. discriminate.
  - simpl. destruct b; [apply IH|]. simpl. apply IH.
Qed.

Lemma hex_digit_alnum d :
  0 <= d < 16 -> Slug.is_alnum (Js.lower_char (Slug.hex_digit d)) = true.
Proof.
  intros H.
  assert (E : d = 0 \/ d = 1 \/ d = 2 \/ d = 3 \/ d = 4 \/ d = 5 \/ d = 6
              \/ d = 7 \/ d = 8 \/ d = 9 \/ d = 10 \/ d = 11 \/ d = 12
              \/ d = 13 \/ d = 14 \/ d = 15) by lia.
  repeat (destruct E as [E|E]; [subst d; reflexivity|]).
  subst d; reflexivity.
Qed.

Lemma hex_aux_head fuel n acc :
  (exists d r, acc = String (Slug.hex_digit d) r /\ 0 <= d < 16) ->
  exists d r, Slug.hex_aux fuel n acc = String (Slug.hex_digit d) r
              /\ 0 <= d < 16.
Proof.
  revert n acc. induction fuel as [|f IH]; intros n acc H; simpl;
    [exact H|].
  assert (Hd : exists d r,
             String (Slug.hex_digit (n mod 16)) acc
             = String (Slug.hex_digit d) r /\ 0 <= d < 16).
  { exists (n mod 16), acc. split; [reflexivity|].
    apply Z.mod_pos_bound. lia. }
  destruct (n / 16 =? 0); [exact Hd|]. apply IH. exact Hd.
Qed.

Lemma simpleHash_head str :
  exists d r, Slug.simpleHash str = String (Slug.hex_digit d) r
              /\ 0 <= d < 16.
Proof.
  unfold Slug.simpleHash, Slug.toString16.
  set (n := Z.abs _). change (Slug.hex_aux 16 n "")
    with (let acc := String (Slug.hex_digit (n mod 16)) "" in
          if n / 16 =? 0 then acc else Slug.hex_aux 15 (n / 16) acc).
  cbv zeta.
  assert (Hd : exists d r,
             String (Slug.hex_digit (n mod 16)) ""
             = String (Slug.hex_digit d) r /\ 0 <= d < 16).
  { exists (n mod 16), "". split; [reflexivity|].
    apply Z.mod_pos_bound. lia. }
  destruct (n / 16 =? 0); [exact Hd|]. apply hex_aux_head. exact Hd.
Qed.

(** X23. The slug of a project is never empty and begins with a
    lower-case letter or a digit, whatever the key (the empty key and
    keys without letters and digits included): the hash suffix always
    contributes a character that survives the replacement and the trim. *)
Theorem projectSlug_is_never_empty :
  forall humanKey,
    exists c rest,
      Slug.projectSlug humanKey = String c rest
      /\ Slug.is_alnum c = true.
Proof.
  intros k. unfold Slug.projectSlug, Slug.slugify.
  set (relevant := Js.join "-" _).
  set (t := Slug.replace_runs false _).
  destruct (trim_hyphens_head t) as [[E _]|(c & r & r' & Ed & Hc & E)].
  - exfalso. apply drop_hyphens_empty in E.
    apply replace_runs_hyphens_only in E.
    rewrite !toLowerCase_app, !all_chars_app in E.
    apply andb_prop in E. destruct E as [_ E].
    apply andb_prop in E. destruct E as [_ E].
    destruct (simpleHash_head k) as (d & h & Eh & Hd).
    rewrite Eh in E. simpl in E.
    rewrite (hex_digit_alnum d Hd) in E. discriminate.
  - rewrite E. exists c. eexists. split; [reflexivity|].
    assert (Ha : all_chars slug_char (Slug.drop_hyphens t) = true).
    { apply all_chars_drop_hyphens. apply all_chars_replace_runs. }
    rewrite Ed in Ha. simpl in Ha. apply andb_prop in Ha.
    destruct Ha as [Ha _]. unfold slug_char in Ha. rewrite Hc in Ha.
    rewrite orb_false_r in Ha. exact Ha.
Qed.

(** ** Output helpers *)

Lemma length_substring_0_min m s :
  String.length (String.substring 0 m s) = Nat.min m (String.length s).
Proof.
  revert s. induction m as [|m IH]; intros s; destruct s; simpl;
    try reflexivity.
  now rewrite IH.
Qed.

Lemma length_string_app a b :
  String.length (a ++ b) = (String.length a + String.length b)%nat.
Proof. induction a as [|c a IH]; simpl; [reflexivity|]. now rewrite IH. Qed.

(** X24. With room for the ellipsis, [truncate] keeps its promise: for
    [maxLen] of 3 or more the result has the length of the input or
    [maxLen], whichever is smaller, so it is never longer than either. *)
Theorem truncate_fits :
  forall str maxLen,
    3 <= maxLen ->
    Z.of_nat (String.length (truncate str maxLen))
    = Z.min (Z.of_nat (String.length str)) maxLen.
Proof.
  intros str maxLen H. unfold truncate.
  destruct (Z.of_nat (String.length str) <=? maxLen) eqn:E.
  - apply Z.leb_le in E. lia.
  - apply Z.leb_gt in E. unfold slice_0.
    destruct (maxLen - 3 <? 0) eqn:En; [apply Z.ltb_lt in En; lia|].
    rewrite length_string_app, length_substring_0_min. simpl. lia.
Qed.

Lemma truncate_fits_witness :
  Z.of_nat (String.length (truncate "src/handlers/reservation.ts" 12)) = 12.
Proof.
  assert (H : (3 <= 12)%Z) by lia.
  exact (truncate_fits "src/handlers/reservation.ts" 12 H).
Defined.

(** ** Search (src/handlers/search.ts) *)

Lemma strip_quotes_blank q :
  all_chars (fun c => is_quote c || is_space c) q = true ->
  all_chars is_space (strip_quotes q) = true.
Proof.
  induction q as [|c r IH]; simpl; [reflexivity|].
  intros H. apply andb_prop in H. destruct H as [Hc Hr].
  destruct (is_quote c) eqn:E; [apply IH, Hr|].
  simpl in Hc. simpl. rewrite Hc. apply IH, Hr.
Qed.

Lemma trim_start_blank x :
  all_chars is_space x = true -> trim_start x = "".
Proof.
  induction x as [|c r IH]; simpl; [reflexivity|].
  intros H. apply andb_prop in H. destruct H as [Hc Hr].
  rewrite Hc. apply IH, Hr.
Qed.

(** X25. A query made of quote characters and white space only searches
    nothing: for an existing project [searchMessages] returns the empty
    list without consulting the full-text index or the tables, whatever
    the index would answer, and leaves the store unchanged. *)
Theorem blank_query_finds_nothing :
  forall fts_match query s p,
    fst (getProject (sq_projectSlug query) s) = Ok p ->
    all_chars (fun c => is_quote c || is_space c) (sq_query query) = true ->
    searchMessages fts_match query s = (Ok [], s).
Proof.
  intros fts_match query s p Hp Hq.
  unfold searchMessages, bind. rewrite (getProject_eq _ _ _ Hp).
  assert (E : trim (strip_quotes (sq_query query)) = "").
  { unfold trim. rewrite (trim_start_blank _ (strip_quotes_blank _ Hq)).
    reflexivity. }
  rewrite E. reflexivity.
Qed.

Lemma blank_query_finds_nothing_witness :
  searchMessages
    (fun _ _ _ s => Some (with_sender (fun _ => true) s))
    {| sq_projectSlug := "/repo";
       sq_query := String (ascii_of_nat 34)
                     (String " " (String (ascii_of_nat 39) ""));
       sq_limit := None |}
    Scenario.s_sent
  = (Ok [], Scenario.s_sent).
Proof.
  apply (blank_query_finds_nothing _ _ _ Scenario.repo).
  - vm_compute. reflexivity.
  - vm_compute. reflexivity.
Defined.

(** ** The keys of the schema hold in every reachable store *)

Lemma Keys_transfer s s' :
  projects s' = projects s ->
  map agent_key (agents s') = map agent_key (agents s) ->
  map recipient_key (message_recipients s')
  = map recipient_key (message_recipients s) ->
  map fr_id (file_reservations s') = map fr_id (file_reservations s) ->
  SchemaKeys s -> SchemaKeys s'.
Proof.
  intros Hp Ha Hr Hf [K1 K2 K3 K4 K5].
  constructor; rewrite ?Hp, ?Ha, ?Hr, ?Hf; assumption.
Qed.

Lemma Keys_only_touched s s' :
  only_touched s s' -> SchemaKeys s -> SchemaKeys s'.
Proof.
  intros (H1 & H2 & _ & H4 & H5). apply Keys_transfer; try congruence.
  apply (f_equal (map agent_key)) in H2. rewrite !map_map in H2. exact H2.
Qed.

Lemma Keys_empty : SchemaKeys empty_store.
Proof. constructor; simpl; constructor. Qed.

Lemma not_in_keys {A B} (key : A -> B) (p : A -> bool) (k : B)
    (rows : list A) :
  (forall x, key x = k -> p x = true) ->
  existsb p rows = false -> ~ In k (map key rows).
Proof.
  intros Hp E Hin. apply in_map_iff in Hin. destruct Hin as (x & Hx & Hin).
  pose proof (existsb_false_forall _ _ E x Hin) as Hf.
  rewrite (Hp x Hx) in Hf. discriminate.
Qed.

Lemma Keys_ensureProject now k s :
  SchemaKeys s -> SchemaKeys (snd (ensureProject now k s)).
Proof.
  intros K. unfold ensureProject.
  destruct (find _ (projects s)); [exact K|].
  unfold ensureProject_create, insert_project.
  destruct (existsb (fun p => String.eqb (p_slug p) (Slug.projectSlug k))
              (projects s)); [exact K|].
  destruct (existsb (fun p => String.eqb (p_human_key p) k) (projects s))
    eqn:E2; [exact K|].
  set (s' := set_projects s _).
  assert (SchemaKeys s') as K'.
  { destruct K as [K1 K2 K3 K4 K5]. constructor; auto; simpl;
      rewrite map_app; simpl; apply NoDup_snoc; auto.
    - apply next_rowid_fresh.
    - apply (not_in_keys _ _ _ _ (fun x Hx =>
               proj2 (String.eqb_eq (p_human_key x) k) Hx) E2). }
  destruct (find _ (projects s')); exact K'.
Qed.

Lemma Keys_registerAgent_named now input p name s :
  SchemaKeys s -> SchemaKeys (snd (registerAgent_named now input p name s)).
Proof.
  intros K. unfold registerAgent_named.
  destruct (find (agent_named (p_id p) name) (agents s)) as [b|]; simpl.
  - apply (Keys_transfer s); auto. simpl.
    apply map_update_where_key. reflexivity.
  - destruct (existsb _ (agents s)) eqn:E; [exact K|].
    set (s1 := set_agents s _).
    assert (SchemaKeys s1) as K1.
    { destruct K as [K1 K2 K3 K4 K5]. constructor; auto. simpl.
      rewrite map_app. simpl. apply NoDup_snoc; [exact K3|].
      apply (not_in_keys agent_key _ _ _) with (2 := E).
      intros x Hx. unfold agent_key in Hx. injection Hx as H1 H2.
      unfold agent_named. rewrite H1, H2, Z.eqb_refl, String.eqb_refl.
      reflexivity. }
    match goal with
    | |- SchemaKeys (snd match ?x with _ => _ end) => destruct x
    end; exact K1.
Qed.

Lemma Keys_registerAgent fuel rnd now input s r s' :
  registerAgent fuel rnd now input s = Some (r, s') ->
  SchemaKeys s -> SchemaKeys s'.
Proof.
  unfold registerAgent. intros H K.
  pose proof (getProject_store (reg_projectSlug input) s) as Hs.
  destruct (getProject (reg_projectSlug input) s) as [[p|e] s0];
    simpl in Hs; subst s0.
  - destruct (resolve_name _ _ _ _ _) as [name|]; [|discriminate].
    injection H as H. apply (f_equal snd) in H. simpl in H. subst s'.
    apply Keys_registerAgent_named. exact K.
  - injection H as _ <-. exact K.
Qed.

Lemma Keys_insert_recipients mid rs :
  forall s, SchemaKeys s -> SchemaKeys (snd (insert_recipients mid rs s)).
Proof.
  induction rs as [|r rs IH]; intros s K; simpl; [exact K|].
  unfold insert_recipient.
  destruct (existsb _ (message_recipients s)) eqn:E; [exact K|].
  apply IH. destruct K as [K1 K2 K3 K4 K5]. constructor; auto. simpl.
  rewrite map_app. simpl. apply NoDup_snoc; [exact K4|].
  apply (not_in_keys recipient_key _ _ _) with (2 := E).
  intros x Hx. unfold recipient_key in Hx. simpl in Hx.
  injection Hx as H1 H2. rewrite H1, H2, !Z.eqb_refl. reflexivity.
Qed.

Lemma Keys_create_message now input p sender rs s :
  SchemaKeys s -> SchemaKeys (snd (create_message now input p sender rs s)).
Proof.
  intros K. unfold create_message.
  set (mid := next_rowid (map m_id (messages s))).
  set (row := {| m_id := mid; m_project_id := _ |}).
  set (s1 := set_messages s (messages s ++ [row])%list).
  assert (K1 : SchemaKeys s1) by (apply (Keys_transfer s); auto).
  pose proof (Keys_insert_recipients mid rs s1 K1) as K2.
  destruct (insert_recipients mid rs s1) as [[|] s2]; exact K2.
Qed.

Lemma Keys_sendMessage now input s :
  SchemaKeys s -> SchemaKeys (snd (sendMessage now input s)).
Proof.
  intros I. unfold sendMessage, bind.
  pose proof (getProject_only_touched (sm_projectSlug input) s) as H1.
  destruct (getProject (sm_projectSlug input) s) as [[p|e] s1]; simpl in *;
    [|exact (Keys_only_touched _ _ H1 I)].
  apply (Keys_only_touched _ _ H1) in I. clear H1.
  pose proof (getAgent_only_touched now (sm_projectSlug input)
                (sm_sender input) s1) as H2.
  destruct (getAgent now (sm_projectSlug input) (sm_sender input) s1)
    as [[sender|e] s2]; simpl in *; [|exact (Keys_only_touched _ _ H2 I)].
  apply (Keys_only_touched _ _ H2) in I. clear H2.
  unfold sendMessage_for, bind.
  pose proof (resolve_to_only_touched now (sm_projectSlug input) p sender
                (sm_to input) [] s2) as H3.
  destruct (resolve_to now (sm_projectSlug input) p sender (sm_to input) [] s2)
    as [[rs|e] s3]; simpl in *; [|exact (Keys_only_touched _ _ H3 I)].
  apply (Keys_only_touched _ _ H3) in I. clear H3.
  pose proof (resolve_cc_only_touched now (sm_projectSlug input)
                (or_default (sm_cc input) []) rs s3) as H4.
  destruct (resolve_cc now (sm_projectSlug input)
              (or_default (sm_cc input) []) rs s3)
    as [[rcps|e] s4]; simpl in *; [|exact (Keys_only_touched _ _ H4 I)].
  apply (Keys_only_touched _ _ H4) in I. clear H4.
  destruct rcps as [|r rcps]; [exact I|].
  apply Keys_create_message. exact I.
Qed.

Lemma Keys_markRead now k n mid s :
  SchemaKeys s -> SchemaKeys (snd (markRead now k n mid s)).
Proof.
  intros I. unfold markRead, bind.
  pose proof (getAgent_only_touched now k n s) as H.
  destruct (getAgent now k n s) as [[a|e] s1]; simpl in *;
    [|exact (Keys_only_touched _ _ H I)].
  apply (Keys_only_touched _ _ H) in I. unfold markRead_for.
  destruct (find _ (message_recipients s1)) as [mr|]; [|exact I].
  destruct (if Js.truthy_opt (mr_read_ts mr) then mr_read_ts mr else None);
    [exact I|].
  simpl. apply (Keys_transfer s1); auto. simpl.
  apply map_update_where_key. reflexivity.
Qed.

Lemma Keys_acknowledge now k n mid s :
  SchemaKeys s -> SchemaKeys (snd (acknowledge now k n mid s)).
Proof.
  intros I. unfold acknowledge, bind.
  pose proof (getAgent_only_touched now k n s) as H.
  destruct (getAgent now k n s) as [[a|e] s1]; simpl in *;
    [|exact (Keys_only_touched _ _ H I)].
  apply (Keys_only_touched _ _ H) in I. unfold acknowledge_for.
  destruct (find _ (message_recipients s1)) as [mr|]; [|exact I].
  simpl. apply (Keys_transfer s1); auto. simpl.
  apply map_update_where_key. reflexivity.
Qed.

Lemma Keys_createReservation now input s :
  SchemaKeys s -> SchemaKeys (snd (createReservation now input s)).
Proof.
  intros I. unfold createReservation, bind.
  pose proof (getProject_only_touched (cr_projectSlug input) s) as H1.
  destruct (getProject (cr_projectSlug input) s) as [[p|e] s1]; simpl in *;
    [|exact (Keys_only_touched _ _ H1 I)].
  apply (Keys_only_touched _ _ H1) in I. clear H1.
  pose proof (getAgent_only_touched now (cr_projectSlug input)
                (cr_agentName input) s1) as H2.
  destruct (getAgent now (cr_projectSlug input) (cr_agentName input) s1)
    as [[a|e] s2]; simpl in *; [|exact (Keys_only_touched _ _ H2 I)].
  apply (Keys_only_touched _ _ H2) in I. clear H2.
  unfold createReservation_for.
  destruct (Clock.toISOString _); [|exact I].
  simpl. destruct I as [K1 K2 K3 K4 K5]. constructor; auto. simpl.
  rewrite map_app. simpl. apply NoDup_snoc; [exact K5|].
  apply next_rowid_fresh.
Qed.

Lemma Keys_releaseReservations now input s :
  SchemaKeys s -> SchemaKeys (snd (releaseReservations now input s)).
Proof.
  intros I. unfold releaseReservations, bind.
  pose proof (getProject_only_touched (rl_projectSlug input) s) as H1.
  destruct (getProject (rl_projectSlug input) s) as [[p|e] s1]; simpl in *;
    [|exact (Keys_only_touched _ _ H1 I)].
  apply (Keys_only_touched _ _ H1) in I. clear H1.
  pose proof (getAgent_only_touched now (rl_projectSlug input)
                (rl_agentName input) s1) as H2.
  destruct (getAgent now (rl_projectSlug input) (rl_agentName input) s1)
    as [[a|e] s2]; simpl in *; [|exact (Keys_only_touched _ _ H2 I)].
  apply (Keys_only_touched _ _ H2) in I. clear H2.
  unfold releaseReservations_for.
  assert (Hrun : forall w,
             SchemaKeys
               (set_file_reservations s2
                  (update_where w (set_released (Clock.iso_format now))
                     (file_reservations s2)))).
  { intros w. apply (Keys_transfer s2); auto. simpl.
    apply map_update_where_key. reflexivity. }
  destruct (or_default (rl_all input) false); [apply Hrun|].
  destruct (rl_pattern input) as [pat|]; [|exact I].
  destruct (Js.truthy pat); [apply Hrun|exact I].
Qed.

Lemma Keys_runRetention now days s :
  SchemaKeys s -> SchemaKeys (snd (runRetention now days s)).
Proof.
  intros [K1 K2 K3 K4 K5]. unfold runRetention. simpl.
  constructor; simpl; auto.
  - apply NoDup_map_filter. exact K4.
  - apply NoDup_map_filter.
    rewrite map_update_where_key by reflexivity. exact K5.
Qed.

Lemma step_Keys s s' : step s s' -> SchemaKeys s -> SchemaKeys s'.
Proof.
  intros H I. destruct H as
    [now k s r s' E | fuel rnd now input s r s' E | now k n s r s' E
    | now input s r s' E | now k n mid s r s' E | now k n mid s r s' E
    | now input s r s' E | now input s r s' E | now days s r s' E].
  - replace s' with (snd (ensureProject now k s)) by (rewrite E; reflexivity).
    apply Keys_ensureProject. exact I.
  - exact (Keys_registerAgent _ _ _ _ _ _ _ E I).
  - replace s' with (snd (getAgent now k n s)) by (rewrite E; reflexivity).
    exact (Keys_only_touched _ _ (getAgent_only_touched now k n s) I).
  - replace s' with (snd (sendMessage now input s))
      by (rewrite E; reflexivity).
    apply Keys_sendMessage. exact I.
  - replace s' with (snd (markRead now k n mid s))
      by (rewrite E; reflexivity).
    apply Keys_markRead. exact I.
  - replace s' with (snd (acknowledge now k n mid s))
      by (rewrite E; reflexivity).
    apply Keys_acknowledge. exact I.
  - replace s' with (snd (createReservation now input s))
      by (rewrite E; reflexivity).
    apply Keys_createReservation. exact I.
  - replace s' with (snd (releaseReservations now input s))
      by (rewrite E; reflexivity).
    apply Keys_releaseReservations. exact I.
  - replace s' with (snd (runRetention now days s))
      by (rewrite E; reflexivity).
    apply Keys_runRetention. exact I.
Qed.

Lemma reachable_Keys s : reachable s -> SchemaKeys s.
Proof.
  induction 1 as [|s s' _ IH Hstep]; [apply Keys_empty|].
  exact (step_Keys s s' Hstep IH).
Qed.

(** X26. No run of the handlers breaks a key of the schema.  In every
    store reachable from the empty one the primary keys and the UNIQUE
    columns are free of duplicates: project ids, slugs and human keys,
    agent ids and (project, name) pairs, message ids, (message, agent)
    pairs of recipients, and reservation ids. *)
Theorem reachable_store_satisfies_schema_keys :
  forall s,
    reachable s ->
    SchemaKeys s
    /\ NoDup (map p_slug (projects s))
    /\ NoDup (map a_id (agents s))
    /\ NoDup (map m_id (messages s)).
Proof.
  intros s H. pose proof (reachable_Inv s H) as I.
  split; [exact (reachable_Keys s H)|].
  split; [exact (inv_project_slugs _ I)|].
  split; [exact (inv_agent_ids _ I)|exact (inv_message_ids _ I)].
Qed.

Lemma reachable_store_satisfies_schema_keys_witness :
  SchemaKeys Scenario.s_sent
  /\ NoDup (map p_slug (projects Scenario.s_sent))
  /\ NoDup (map a_id (agents Scenario.s_sent))
  /\ NoDup (map m_id (messages Scenario.s_sent)).
Proof.
  exact (reachable_store_satisfies_schema_keys Scenario.s_sent
           reachable_s_sent).
Defined.

(** ** Reading and the unread inbox *)

Lemma in_sql_limit {A} n (rows : list A) x :
  In x (sql_limit n rows) -> In x rows.
Proof.
  unfold sql_limit. destruct (n <? 0); [auto|].
  revert rows. induction (Z.to_nat n) as [|k IH]; intros rows H;
    [contradiction|].
  destruct rows as [|y rows]; [contradiction|].
  simpl in H. destruct H as [H|H]; [left; exact H|right; apply IH, H].
Qed.

Lemma in_apply_limit {A} limit (rows : list A) x :
  In x (apply_limit limit rows) -> In x rows.
Proof.
  unfold apply_limit. destruct (truthy_num limit); [apply in_sql_limit|auto].
Qed.

(** Where a row of the inbox join comes from. *)
Lemma in_inbox_rows keep s row :
  In row (inbox_rows keep s) ->
  exists m mr,
    In m (messages s) /\ In mr (message_recipients s)
    /\ m_id m = mr_message_id mr /\ keep m mr = true
    /\ im_message row = m /\ im_read_ts row = mr_read_ts mr
    /\ im_ack_ts row = mr_ack_ts mr.
Proof.
  unfold inbox_rows. intros H.
  apply in_flat_map in H. destruct H as (m & Hm & H).
  apply in_flat_map in H. destruct H as (mr & Hmr & H).
  destruct ((m_id m =? mr_message_id mr) && keep m mr) eqn:E;
    [|contradiction].
  apply andb_prop in E. destruct E as [E1 E2]. apply Z.eqb_eq in E1.
  apply in_map_iff in H. destruct H as (a & <- & _).
  exists m, mr. repeat split; assumption.
Qed.

(** After a successful [markRead] from a store with unique recipient
    keys, no row of the pair is unread. *)
Lemma markRead_for_leaves_none_unread now a mid s r :
  NoDup (map recipient_key (message_recipients s)) ->
  fst (markRead_for now a mid s) = Ok r ->
  forall mr, In mr (message_recipients (snd (markRead_for now a mid s))) ->
             recipient_row mid (a_id a) mr = true ->
             is_null (mr_read_ts mr) = false.
Proof.
  intros Hnd. unfold markRead_for.
  destruct (find _ (message_recipients s)) as [mr0|] eqn:Ef;
    [|discriminate].
  destruct (find_some _ _ Ef) as [Hin0 Hk0].
  destruct (mr_read_ts mr0) as [ts|] eqn:Er; simpl.
  - destruct (Js.truthy ts); simpl.
    + intros _ mr Hin Hk.
      assert (mr = mr0).
      { apply (NoDup_map_inj_in recipient_key (message_recipients s));
          auto.
        unfold recipient_row in Hk, Hk0.
        apply andb_prop in Hk. apply andb_prop in Hk0.
        destruct Hk as [A1 A2], Hk0 as [B1 B2].
        apply Z.eqb_eq in A1, A2, B1, B2. unfold recipient_key. congruence. }
      subst mr. rewrite Er. reflexivity.
    + intros _ mr Hin Hk. unfold update_where in Hin.
      apply in_map_iff in Hin. destruct Hin as (x & Hx & _).
      destruct (recipient_row mid (a_id a) x) eqn:Ex.
      * subst mr. reflexivity.
      * subst mr. rewrite Ex in Hk. discriminate.
  - intros _ mr Hin Hk. unfold update_where in Hin.
    apply in_map_iff in Hin. destruct Hin as (x & Hx & _).
    destruct (recipient_row mid (a_id a) x) eqn:Ex.
    + subst mr. reflexivity.
    + subst mr. rewrite Ex in Hk. discriminate.
Qed.

Lemma markRead_for_same_tables now a mid s :
  projects (snd (markRead_for now a mid s)) = projects s
  /\ agents (snd (markRead_for now a mid s)) = agents s.
Proof.
  unfold markRead_for.
  destruct (find _ (message_recipients s)) as [mr|]; [|split; reflexivity].
  destruct (if Js.truthy_opt (mr_read_ts mr) then mr_read_ts mr else None);
    split; reflexivity.
Qed.

(** X27. What was marked read is no longer unread.  From a reachable
    store, once [markRead] succeeded for an agent and a message, no row
    of that agent's inbox fetched with [unread] set, at any later time
    and with any other filter, carries the id of that message. *)
Theorem read_message_leaves_unread_inbox :
  forall now1 now2 q mid s r rows,
    reachable s ->
    fst (markRead now1 (iq_projectSlug q) (iq_agentName q) mid s) = Ok r ->
    iq_unread q = Some true ->
    fst (fetchInbox now2 q
           (snd (markRead now1 (iq_projectSlug q) (iq_agentName q) mid s)))
    = Ok rows ->
    forall row, In row rows -> m_id (im_message row) <> mid.
Proof.
  intros now1 now2 q mid s r rows Hreach Hmark Hun Hfetch row Hrow Hid.
  set (k := iq_projectSlug q) in *. set (n := iq_agentName q) in *.
  destruct (fst (getAgent now1 k n s)) as [a|e] eqn:Ha.
  2:{ unfold markRead, bind in Hmark.
      pose proof (getAgent_err _ _ _ _ _ Ha) as He.
      destruct (getAgent now1 k n s) as [[a|e'] s0]; simpl in *;
        discriminate. }
  rewrite (markRead_unfold _ _ _ _ _ _ Ha) in Hmark, Hfetch.
  set (s1 := touch now1 a s) in *.
  assert (K1 : SchemaKeys s1).
  { apply (Keys_only_touched s); [apply only_touched_touch|].
    apply reachable_Keys, Hreach. }
  pose proof (markRead_for_leaves_none_unread now1 a mid s1 r
                (key_recipient _ K1) Hmark) as Hread.
  destruct (markRead_for_same_tables now1 a mid s1) as [Hps Has].
  set (s2 := snd (markRead_for now1 a mid s1)) in *.
  destruct (getAgent_after_touch now1 now2 a k n s a) as (a' & Ha' & Hid' & _).
  { rewrite <- Ha. apply getAgent_same_tables; reflexivity. }
  assert (Ha2 : fst (getAgent now2 k n s2) = Ok a').
  { rewrite <- Ha'. apply getAgent_same_tables; assumption. }
  destruct (getAgent_ok _ _ _ _ _ Ha2) as (p & Hp & _ & _).
  unfold fetchInbox, bind in Hfetch. fold k n in Hfetch.
  rewrite (getProject_eq _ _ _ Hp), (getAgent_full _ _ _ _ _ Ha2) in Hfetch.
  simpl in Hfetch. injection Hfetch as <-.
  apply in_apply_limit in Hrow. apply order_by_desc_in in Hrow.
  apply in_inbox_rows in Hrow.
  destruct Hrow as (m & mr & _ & Hmr & Hjoin & Hkeep & Hm & _).
  unfold inbox_where in Hkeep. rewrite Hun in Hkeep. simpl in Hkeep.
  repeat (apply andb_prop in Hkeep; destruct Hkeep as [Hkeep ?]).
  apply Z.eqb_eq in Hkeep.
  assert (Hnull : is_null (mr_read_ts mr) = false).
  { apply Hread; [exact Hmr|]. unfold recipient_row.
    rewrite <- Hjoin, <- Hm, Hid, Hkeep, Hid', !Z.eqb_refl. reflexivity. }
  congruence.
Qed.

Lemma reachable_s_two : reachable Later.s_two.
Proof.
  apply (reachable_step Scenario.s_sent); [exact reachable_s_sent|].
  apply (step_of_sendMessage Later.t1 Scenario.broadcast).
  vm_compute. reflexivity.
Qed.

Lemma read_message_leaves_unread_inbox_witness :
  exists rows,
    fst (fetchInbox (Later.t1 + 2000) Later.jade_unread
           (snd (markRead (Later.t1 + 1000) "/repo" "JadeWolf" 1
                   Later.s_two))) = Ok rows
    /\ map (fun row => m_id (im_message row)) rows = [2]
    /\ forall row, In row rows -> m_id (im_message row) <> 1.
Proof.
  assert (Hm : fst (markRead (Later.t1 + 1000)
                      (iq_projectSlug Later.jade_unread)
                      (iq_agentName Later.jade_unread) 1 Later.s_two)
               = Ok {| read := true; readAt := "2026-11-02T05:01:01.000Z" |})
    by (vm_compute; reflexivity).
  eexists. split; [vm_compute; reflexivity|]. split; [reflexivity|].
  apply (read_message_leaves_unread_inbox (Later.t1 + 1000) (Later.t1 + 2000)
           Later.jade_unread 1 Later.s_two _ _ reachable_s_two Hm eq_refl).
  vm_compute. reflexivity.
Defined.

(** ** Registration, read back *)

Lemma find_unique_key {A B} (key : A -> B) (p : A -> bool) (l : list A)
    (x : A) :
  NoDup (map key l) -> In x l -> p x = true ->
  (forall y, In y l -> p y = true -> key y = key x) ->
  find p l = Some x.
Proof.
  intros Hnd Hin Hx Hk.
  destruct (find p l) as [y|] eqn:E.
  - destruct (find_some _ _ E) as [Hy Hpy]. f_equal.
    apply (NoDup_map_inj_in key l); auto.
  - pose proof (find_none _ _ E x Hin) as Hc. congruence.
Qed.

(** The row a successful [registerAgent_named] returns is a row of the
    resulting table, under the project and the name asked for, with the
    profile of the request. *)
Lemma registerAgent_named_ok now input p name s a s' :
  NoDup (map a_id (agents s)) ->
  registerAgent_named now input p name s = (Ok a, s') ->
  In a (agents s')
  /\ agent_named (p_id p) name a = true
  /\ a_program a = reg_program input /\ a_model a = reg_model input
  /\ a_task_description a = or_default (reg_taskDescription input) ""
  /\ projects s' = projects s.
Proof.
  intros Hnd. unfold registerAgent_named.
  destruct (find (agent_named (p_id p) name) (agents s)) as [b|] eqn:Ef.
  - destruct (find_some _ _ Ef) as [Hb Hnamed].
    intros H. injection H as Ha Hs. subst s'. simpl in Ha. simpl.
    rewrite find_update_where in Ha by reflexivity.
    rewrite (find_by_id_unique _ _ Hnd Hb) in Ha. simpl in Ha.
    rewrite Z.eqb_refl in Ha. subst a. simpl.
    split; [|repeat split; exact Hnamed].
    unfold update_where. apply in_map_iff. exists b.
    rewrite Z.eqb_refl. split; [reflexivity|exact Hb].
  - destruct (existsb _ (agents s)); [discriminate|].
    simpl agents. rewrite (find_app_none _ _ _ Ef).
    cbn [find]. unfold agent_named at 1. cbn [a_project_id a_name].
    rewrite Z.eqb_refl, String.eqb_refl. cbn [andb].
    intros H. injection H as Ha Hs. subst a s'. simpl.
    split; [apply in_or_app; right; left; reflexivity|].
    split; [|repeat split].
    unfold agent_named. cbn [a_project_id a_name].
    rewrite Z.eqb_refl, String.eqb_refl. reflexivity.
Qed.

(** X28. What [registerAgent] returns can be read back.  From a
    reachable store, the row a successful registration returns carries
    the profile of the request, and the three readers agree on it:
    [getAgent] under the returned name (at any later time) and
    [getAgentById] under the returned id give exactly that row, and
    [listAgents] of the project contains it. *)
Theorem registered_agent_can_be_read_back :
  forall fuel rnd now now2 input s a s',
    reachable s ->
    registerAgent fuel rnd now input s = Some (Ok a, s') ->
    a_program a = reg_program input
    /\ a_model a = reg_model input
    /\ fst (getAgent now2 (reg_projectSlug input) (a_name a) s') = Ok a
    /\ getAgentById (a_id a) s' = Some a
    /\ exists rows,
         listAgents (reg_projectSlug input) s' = (Ok rows, s')
         /\ In a rows.
Proof.
  intros fuel rnd now now2 input s a s' Hreach Hreg.
  assert (Hreach' : reachable s').
  { apply (reachable_step s s' Hreach).
    apply (step_of_registerAgent fuel rnd now input). rewrite Hreg.
    reflexivity. }
  pose proof (reachable_Inv s Hreach) as I.
  pose proof (reachable_Inv s' Hreach') as I'.
  pose proof (reachable_Keys s' Hreach') as K'.
  unfold registerAgent in Hreg.
  pose proof (getProject_store (reg_projectSlug input) s) as Hst.
  destruct (getProject (reg_projectSlug input) s) as [[p|e] s0] eqn:Ep;
    simpl in Hst; subst s0; [|discriminate].
  destruct (resolve_name fuel rnd input p s) as [name|]; [|discriminate].
  injection Hreg as Hreg.
  destruct (registerAgent_named_ok now input p name s a s'
              (inv_agent_ids _ I) Hreg)
    as (Hin & Hnamed & Hprog & Hmodel & _ & Hprojects).
  unfold agent_named in Hnamed. apply andb_prop in Hnamed.
  destruct Hnamed as [Hpid Hname].
  apply Z.eqb_eq in Hpid. apply String.eqb_eq in Hname.
  assert (Hp' : fst (getProject (reg_projectSlug input) s') = Ok p).
  { rewrite (getProject_same_projects _ s' s Hprojects), Ep. reflexivity. }
  assert (Hfind : find (agent_named (p_id p) (a_name a)) (agents s')
                  = Some a).
  { apply (find_unique_key agent_key); auto.
    - exact (key_agent_name _ K').
    - unfold agent_named. rewrite Hpid, Z.eqb_refl, String.eqb_refl.
      reflexivity.
    - intros y _ Hy. unfold agent_named in Hy. apply andb_prop in Hy.
      destruct Hy as [H1 H2]. apply Z.eqb_eq in H1.
      apply String.eqb_eq in H2. unfold agent_key. congruence. }
  split; [exact Hprog|]. split; [exact Hmodel|]. split; [|split].
  - rewrite (getAgent_eq now2 _ _ _ p a Hp' Hfind). reflexivity.
  - unfold getAgentById.
    apply (find_by_id_unique _ _ (inv_agent_ids _ I') Hin).
  - unfold listAgents, bind. rewrite (getProject_eq _ _ _ Hp').
    eexists. split; [reflexivity|].
    apply order_by_desc_in. apply filter_In. split; [exact Hin|].
    apply Z.eqb_eq. exact Hpid.
Qed.

Lemma registered_agent_can_be_read_back_witness :
  fst (getAgent (Scenario.t0 + 1000) "/repo" "JadeWolf" Scenario.s_agents)
  = Ok Scenario.jade
  /\ getAgentById 2 Scenario.s_agents = Some Scenario.jade.
Proof.
  assert (Hreach : reachable Scenario.s_amber).
  { apply (reachable_step Scenario.s_project).
    - apply (reachable_step empty_store); [constructor|].
      apply (step_of_ensureProject Scenario.t0 "/repo").
      vm_compute. reflexivity.
    - apply (step_of_registerAgent 0 Scenario.rnd0 Scenario.t0
               (Scenario.reg "AmberFox")).
      vm_compute. reflexivity. }
  assert (Hreg : registerAgent 0 Scenario.rnd0 Scenario.t0
                   (Scenario.reg "JadeWolf") Scenario.s_amber
                 = Some (Ok Scenario.jade, Scenario.s_agents))
    by (vm_compute; reflexivity).
  destruct (registered_agent_can_be_read_back 0 Scenario.rnd0 Scenario.t0
              (Scenario.t0 + 1000) (Scenario.reg "JadeWolf")
              Scenario.s_amber Scenario.jade Scenario.s_agents Hreach Hreg)
    as (_ & _ & H1 & H2 & _).
  split; [exact H1|exact H2].
Defined.

(** ** The inbox shows the reader's own messages *)

(** X29. An inbox holds nothing but what was addressed to its reader.
    Every row [fetchInbox] returns is a stored message of the project
    joined with a recipient row of the asking agent for that message,
    whose read and acknowledgment times it carries; and with a positive
    [limit] at most that many rows come back. *)
Theorem inbox_shows_only_own_messages :
  forall now q s rows,
    fst (fetchInbox now q s) = Ok rows ->
    exists p a,
      fst (getProject (iq_projectSlug q) s) = Ok p
      /\ fst (getAgent now (iq_projectSlug q) (iq_agentName q) s) = Ok a
      /\ (forall row, In row rows ->
            In (im_message row) (messages s)
            /\ m_project_id (im_message row) = p_id p
            /\ exists mr,
                 In mr (message_recipients s)
                 /\ mr_message_id mr = m_id (im_message row)
                 /\ mr_agent_id mr = a_id a
                 /\ im_read_ts row = mr_read_ts mr
                 /\ im_ack_ts row = mr_ack_ts mr)
      /\ (forall n, iq_limit q = Some n -> 0 < n ->
                    Z.of_nat (List.length rows) <= n).
Proof.
  intros now q s rows H. unfold fetchInbox, bind in H.
  pose proof (getProject_store (iq_projectSlug q) s) as Hst.
  destruct (getProject (iq_projectSlug q) s) as [[p|e] s0] eqn:Ep;
    simpl in Hst; subst s0; [|discriminate].
  destruct (fst (getAgent now (iq_projectSlug q) (iq_agentName q) s))
    as [a|e] eqn:Ea.
  2:{ pose proof (getAgent_err _ _ _ _ _ Ea) as He.
      destruct (getAgent now (iq_projectSlug q) (iq_agentName q) s)
        as [[a|e'] s0]; simpl in *; discriminate. }
  rewrite (getAgent_full _ _ _ _ _ Ea) in H. simpl in H.
  injection H as <-.
  exists p, a. split; [reflexivity|]. split; [reflexivity|]. split.
  - intros row Hrow. apply in_apply_limit in Hrow.
    apply order_by_desc_in in Hrow. apply in_inbox_rows in Hrow.
    destruct Hrow as (m & mr & Hm & Hmr & Hjoin & Hkeep & Him & Hr & Hk).
    rewrite messages_touch in Hm. rewrite recipients_touch in Hmr.
    unfold inbox_where in Hkeep.
    repeat (apply andb_prop in Hkeep; destruct Hkeep as [Hkeep ?]).
    apply Z.eqb_eq in Hkeep.
    match goal with Hq : (m_project_id m =? p_id p) = true |- _ =>
      apply Z.eqb_eq in Hq; rename Hq into Hproj end.
    subst m. split; [exact Hm|]. split; [exact Hproj|].
    exists mr. repeat split; auto.
  - intros n Hn Hpos. unfold apply_limit. rewrite Hn. simpl.
    destruct (n =? 0) eqn:E0; [apply Z.eqb_eq in E0; lia|]. simpl.
    unfold sql_limit. destruct (n <? 0) eqn:En;
      [apply Z.ltb_lt in En; lia|].
    pose proof (firstn_le_length (Z.to_nat n)
                  (order_by_desc (fun r => m_created_ts (im_message r))
                     (inbox_rows (inbox_where q p a) (touch now a s)))).
    lia.
Qed.

Lemma inbox_shows_only_own_messages_witness :
  exists rows,
    fst (fetchInbox (Later.t1 + 1000) Later.jade_unread Later.s_two)
    = Ok rows
    /\ map (fun row => m_id (im_message row)) rows = [2; 1]
    /\ forall row, In row rows -> In (im_message row) (messages Later.s_two).
Proof.
  eexists. split; [vm_compute; reflexivity|]. split; [reflexivity|].
  match goal with
  | |- forall row, In row ?rows -> _ =>
      assert (H : fst (fetchInbox (Later.t1 + 1000) Later.jade_unread
                         Later.s_two) = Ok rows)
        by (vm_compute; reflexivity)
  end.
  destruct (inbox_shows_only_own_messages _ _ _ _ H) as (p & a & _ & _ & Hrows & _).
  intros row Hrow. exact (proj1 (Hrows row Hrow)).
Defined.

(** ** Retention and the messages *)




(** * Later instants have later date texts *)

(** ** The calendar is monotone *)










(** ** Padded numbers compare as numbers *)






(** * The overlap heuristic: the code against the words *)


























